(** * GR Race Guardian: the stochastic race-strategy core, embedded in Rocq

    A shallow embedding of the strategy engine of [backend-python/grracing]:
    the overtake, traffic, weather and pit-rejoin leaf models, the driver
    twin generator, the Monte Carlo race twin and the advanced pit decision
    engine, followed by the properties the specification states about them.

    Conventions of the embedding.
    - Python [int] is [Z].  A finite Python or NumPy [float] is a rational
      [Q]: arithmetic on finite values is exact and never overflows, except
      where a property is about rounding error; there the rounding of the
      platform is a parameter of the operation, and [binary64] is the
      rounding of a Python [float].  Properties stated in exact arithmetic
      are those whose comparisons the rounding cannot change.
    - An [int] beyond the float range cannot take part in float arithmetic
      (Python raises [OverflowError]); that case lies outside the embedding,
      and a property that depends on such an operation is stated for ints
      of float size ([float_sized]).
    - A Python exception is a [Raise] in the [result] monad.  A division of
      Python scalars by zero raises [ZeroDivisionError]; a division of NumPy
      scalars by zero yields [inf] or [nan], which [npfloat] tracks.
    - A dictionary used as a table is an association list read with
      [dict_get]; a dictionary used as a record is a [Record] whose optional
      keys are [option] fields.
    - [np.random] is an explicit tape of pre-drawn numbers threaded through
      the simulation. *)

From Stdlib Require Import ZArith QArith Qabs Qminmax Qround Qpower Lqa Lia.
From Stdlib Require Import List String Ascii Bool Permutation.
Import ListNotations.

Open Scope Q_scope.

(* ===================================================================== *)
(** * Part I. The embedding                                               *)
(* ===================================================================== *)

(** ** Python values, exceptions and builtins *)

Module Py.

Inductive exn : Type :=
| AttributeError (type_name attr : string)
| ZeroDivisionError
| IndexError
| ValueError (msg : string).

Inductive result (A : Type) : Type :=
| Ok (a : A)
| Raise (e : exn).

Arguments Ok {A} a.
Arguments Raise {A} e.

Definition bind {A B : Type} (m : result A) (k : A -> result B) : result B :=
  match m with
  | Ok a => k a
  | Raise e => Raise e
  end.

Definition Qlt_bool (x y : Q) : bool := negb (Qle_bool y x).

(** Builtin [min(a, b)] and [max(a, b)]: the first argument is kept unless
    the second is strictly smaller (larger). *)
Definition min2 (a b : Q) : Q := if Qlt_bool b a then b else a.
Definition max2 (a b : Q) : Q := if Qlt_bool a b then b else a.

(** [x / y] on Python scalars. *)
Definition truediv (x y : Q) : result Q :=
  if Qeq_bool y 0 then Raise ZeroDivisionError else Ok (x / y).

(** [int(x)]: truncation toward zero. *)
Definition int (x : Q) : Z := Z.quot (Qnum x) (Zpos (Qden x)).

(** [d.get(k, default)] on a table with string keys. *)
Fixpoint dict_get {V : Type} (d : list (string * V)) (k : string) (default : V) : V :=
  match d with
  | [] => default
  | (k', v) :: rest => if String.eqb k k' then v else dict_get rest k default
  end.

(** [s.lower()] on ASCII text. *)
Definition lower_ascii (c : ascii) : ascii :=
  let n := nat_of_ascii c in
  if (65 <=? n)%nat && (n <=? 90)%nat then ascii_of_nat (n + 32) else c.

Fixpoint lower (s : string) : string :=
  match s with
  | EmptyString => EmptyString
  | String c rest => String (lower_ascii c) (lower rest)
  end.

(** [needle in s] on strings. *)
Fixpoint contains (needle s : string) : bool :=
  String.prefix needle s
  || match s with
     | EmptyString => false
     | String _ rest => contains needle rest
     end.

(** [[f(x) for x in xs]] where [f] may raise. *)
Fixpoint mapM {A B : Type} (f : A -> result B) (xs : list A) : result (list B) :=
  match xs with
  | [] => Ok []
  | x :: rest =>
      bind (f x) (fun y => bind (mapM f rest) (fun ys => Ok (y :: ys)))
  end.

(** [enumerate(xs, 1)] *)
Definition enumerate1 {A : Type} (xs : list A) : list (Z * A) :=
  combine (map Z.of_nat (seq 1 (List.length xs))) xs.

(** Rounding.  Where a property is about the error of float arithmetic, the
    operation takes the rounding [rnd] of the platform as a parameter: the
    float result of an operation is [rnd] of its exact result.  For
    binary64 and results in the normal range, [rnd] is within a relative
    error of [2^-53] and keeps the order of its arguments; [binary64] below
    is that rounding, and the identity is the case of exact arithmetic. *)
Definition unit_roundoff : Q := 1 # 9007199254740992.

Definition rounds_to_nearest (rnd : Q -> Q) : Prop :=
  forall x, Qabs (rnd x - x) <= unit_roundoff * Qabs x.

(** Rounding to the nearest float never inverts an order. *)
Definition monotone_rounding (rnd : Q -> Q) : Prop :=
  forall x y, x <= y -> rnd x <= rnd y.

(** The rounding of binary64, the format of a Python [float]: to the nearest
    number with a significand of 53 bits, a tie going to the even
    significand.  The exponent is not bounded, so the definition is that of
    the platform for results in the normal range, [2^-1022 <= |x| < 2^1024].
    [round_half_even] rounds to the nearest integer and [ilog2 x] is the
    exponent of [x > 0], the [k] with [2^k <= x < 2^(k+1)]. *)
Definition round_half_even (x : Q) : Z :=
  let f := Qfloor x in
  match Qcompare (x - inject_Z f) (1 # 2) with
  | Lt => f
  | Gt => (f + 1)%Z
  | Eq => if Z.even f then f else (f + 1)%Z
  end.

Definition ilog2 (x : Q) : Z :=
  let k := (Z.log2 (Qnum x) - Z.log2 (Zpos (Qden x)))%Z in
  if Qle_bool (2 ^ k) x then k else (k - 1)%Z.

Definition binary64_pos (x : Q) : Q :=
  let e := (ilog2 x - 52)%Z in
  inject_Z (round_half_even (x / 2 ^ e)) * 2 ^ e.

Definition binary64 (x : Q) : Q :=
  match Qcompare x 0 with
  | Eq => 0
  | Gt => binary64_pos x
  | Lt => - binary64_pos (- x)
  end.

(** An [int] that meets a [float] in an operation is converted to [float]
    first, and the conversion raises [OverflowError] beyond the largest
    float, just under [2^1024]; the quotient of two ints raises it when the
    result leaves that range.  The arithmetic below is exact and has no such
    limit, so a property that depends on such an operation is stated for
    ints of a magnitude up to [2^1000]. *)
Definition float_sized (n : Z) : Prop := (Z.abs n <= 2 ^ 1000)%Z.

(** [x / y] on Python scalars, rounded. *)
Definition truediv_rounded (rnd : Q -> Q) (x y : Q) : result Q :=
  if Qeq_bool y 0 then Raise ZeroDivisionError else Ok (rnd (x / y)).

(** [sum(xs)] on floats: one rounding per addition, left to right. *)
Definition fsum (rnd : Q -> Q) (xs : list Q) : Q :=
  fold_left (fun acc x => rnd (acc + x)) xs 0.

(** [np.mean] of a non-empty list of finite values. *)
Definition qsum (l : list Q) : Q := fold_right Qplus 0 l.
Definition mean (l : list Q) : Q := qsum l / inject_Z (Z.of_nat (List.length l)).

(** [range(start, stop)] *)
Definition range (start stop : Z) : list Z :=
  map (fun i => (start + Z.of_nat i)%Z) (seq 0 (Z.to_nat (stop - start))).

End Py.

Import Py.

Declare Scope py_scope.
Delimit Scope py_scope with py.
Notation "x <- m ;; k" := (Py.bind m (fun x => k))
  (at level 61, m at next level, right associativity) : py_scope.
Open Scope py_scope.

(** ** grracing/overtake.py *)

Module overtake.

Definition sector_factors : list (string * Q) :=
  [("S1", 0.3); ("S2", 0.5); ("S3", 0.4)]%string.

(** [(speed_delta / defender_speed) * 0.5 if defender_speed > 0 else 0] *)
Definition speed_advantage (attacker_speed defender_speed : Q) : result Q :=
  let speed_delta := attacker_speed - defender_speed in
  if Qlt_bool 0 defender_speed
  then (r <- truediv speed_delta defender_speed ;; Ok (r * 0.5))
  else Ok 0.

(** [1.0 / abs(attacker_position - defender_position)
     if attacker_position != defender_position else 0] *)
Definition position_proximity (attacker_position defender_position : Z) : result Q :=
  if negb (Z.eqb attacker_position defender_position)
  then truediv 1 (inject_Z (Z.abs (attacker_position - defender_position)))
  else Ok 0.

(** [min(tire_age_delta / 20, 0.5)] *)
Definition tire_advantage (attacker_tire_age defender_tire_age : Z) : result Q :=
  let tire_age_delta := (defender_tire_age - attacker_tire_age)%Z in
  r <- truediv (inject_Z tire_age_delta) 20 ;;
  Ok (min2 r 0.5).

Definition calculate_overtake_probability
    (attacker_speed defender_speed : Q)
    (attacker_position defender_position : Z)
    (attacker_tire_age defender_tire_age : Z)
    (sector : string) : result Q :=
  speed_advantage <- speed_advantage attacker_speed defender_speed ;;
  position_proximity <- position_proximity attacker_position defender_position ;;
  tire_advantage <- tire_advantage attacker_tire_age defender_tire_age ;;
  let sector_factor := dict_get sector_factors sector 0.4 in
  let base_prob := 0.1 in
  let probability :=
    base_prob
    + speed_advantage * 0.4
    + position_proximity * 0.2
    + tire_advantage * 0.2
    + sector_factor * 0.1 in
  let probability := max2 0 (min2 1 probability) in
  Ok probability.

End overtake.

(** The formula of the specification, section 4.3, as it is worded there. *)
Module overtake_spec.

Definition clip (x lo hi : Q) : Q := Qmin (Qmax x lo) hi.

Definition sector_factor (sector : string) : option Q :=
  if String.eqb sector "S1" then Some 0.3
  else if String.eqb sector "S2" then Some 0.5
  else if String.eqb sector "S3" then Some 0.4
  else None.

Definition speed_advantage (attacker_speed defender_speed : Q) : Q :=
  (attacker_speed - defender_speed) / defender_speed * 0.5.

Definition position_proximity (attacker_position defender_position : Z) : Q :=
  1 / inject_Z (Z.abs (attacker_position - defender_position)).

(** [clip((defender_age - attacker_age)/20, 0, 0.5)] *)
Definition tire_age_advantage (attacker_tire_age defender_tire_age : Z) : Q :=
  clip (inject_Z (defender_tire_age - attacker_tire_age) / 20) 0 0.5.

(** The same term without the lower bound: [min((defender_age - attacker_age)/20, 0.5)]. *)
Definition tire_age_advantage_unbounded_below (attacker_tire_age defender_tire_age : Z) : Q :=
  Qmin (inject_Z (defender_tire_age - attacker_tire_age) / 20) 0.5.

Definition probability_with (tire_term : Z -> Z -> Q)
    (attacker_speed defender_speed : Q)
    (attacker_position defender_position : Z)
    (attacker_tire_age defender_tire_age : Z)
    (sf : Q) : Q :=
  clip (0.1
        + 0.4 * speed_advantage attacker_speed defender_speed
        + 0.2 * position_proximity attacker_position defender_position
        + 0.2 * tire_term attacker_tire_age defender_tire_age
        + 0.1 * sf) 0 1.

(** The weighted sum of section 4.3 for given values of the four terms. *)
Definition probability_of_terms
    (speed_advantage position_proximity tire_age_advantage sf : Q) : Q :=
  clip (0.1
        + 0.4 * speed_advantage
        + 0.2 * position_proximity
        + 0.2 * tire_age_advantage
        + 0.1 * sf) 0 1.

Definition probability := probability_with tire_age_advantage.
Definition probability_amended := probability_with tire_age_advantage_unbounded_below.

(** The claim of section 4.3 as the specification states it. *)
Definition formula_as_stated : Prop :=
  forall attacker_speed defender_speed attacker_position defender_position
         attacker_tire_age defender_tire_age sector sf,
    0 < defender_speed ->
    attacker_position <> defender_position ->
    sector_factor sector = Some sf ->
    exists p,
      overtake.calculate_overtake_probability
        attacker_speed defender_speed attacker_position defender_position
        attacker_tire_age defender_tire_age sector = Ok p
      /\ p == probability attacker_speed defender_speed attacker_position
                defender_position attacker_tire_age defender_tire_age sf.

End overtake_spec.

(** ** grracing/traffic.py *)

Module traffic.

(** An entry of the [drivers] list handed to the traffic model. *)
Record Driver : Type := {
  id : string;
  position : option Z;
  sector : option string
}.

Definition in_sector (s : string) (d : Driver) : bool :=
  match sector d with
  | Some s' => String.eqb s' s
  | None => false
  end.

Definition position_or_0 (d : Driver) : Z :=
  match position d with Some p => p | None => 0%Z end.

(** [max(positions)] and [min(positions)] of a non-empty list of ints. *)
Definition max_list (l : list Z) : Z :=
  match l with [] => 0%Z | x :: r => fold_left Z.max r x end.
Definition min_list (l : list Z) : Z :=
  match l with [] => 0%Z | x :: r => fold_left Z.min r x end.

Definition calculate_traffic_density (drivers : list Driver) (sector : string) : Q :=
  let drivers_in_sector := filter (in_sector sector) drivers in
  let density :=
    inject_Z (Z.of_nat (List.length drivers_in_sector))
    / inject_Z (Z.max (Z.of_nat (List.length drivers)) 1) in
  let density :=
    if (1 <? List.length drivers_in_sector)%nat then
      let positions := map position_or_0 drivers_in_sector in
      let position_spread := (max_list positions - min_list positions)%Z in
      let proximity_factor := 1 / (1 + inject_Z position_spread / 5) in
      density * (1 + proximity_factor)
    else density in
  min2 1 density.

Section FloatPower.

(** [x ** y] on floats, for the non-integral exponent of the time-loss law. *)
Variable fpow : Q -> Q -> Q.

Definition base_loss_per_sector : list (string * Q) :=
  [("S1", 0.3); ("S2", 0.5); ("S3", 0.4)]%string.

Definition estimate_time_lost (traffic_density : Q) (sector : string) : Q :=
  let base := dict_get base_loss_per_sector sector 0.4 in
  base * fpow traffic_density 1.5.

End FloatPower.

End traffic.

(** ** grracing/weather.py *)

Module weather.

Inductive condition : Type := dry | damp | wet | mixed.

Definition base_pace_modifiers (c : condition) : Q :=
  match c with dry => 1.0 | wet => 1.15 | damp => 1.08 | mixed => 1.12 end.

Definition temp_effect_per_deg : Q := 0.002.

Definition determine_condition (track_temp ambient_temp humidity rainfall : Q) : condition :=
  if Qlt_bool 0.5 rainfall then wet
  else if Qlt_bool 0.1 rainfall || Qlt_bool 80 humidity then damp
  else if Qlt_bool track_temp 15 || Qlt_bool 50 track_temp then mixed
  else dry.

Definition calculate_pace_modifier (track_temp ambient_temp humidity rainfall : Q) : Q :=
  let condition := determine_condition track_temp ambient_temp humidity rainfall in
  let base_modifier := base_pace_modifiers condition in
  let optimal_temp := 27.5 in
  let temp_delta := Qabs (track_temp - optimal_temp) in
  let temp_modifier := 1.0 + temp_delta * temp_effect_per_deg in
  base_modifier * temp_modifier.

Definition degradation_modifiers (c : condition) : Q :=
  match c with dry => 1.0 | wet => 0.7 | damp => 0.85 | mixed => 0.9 end.

Definition calculate_degradation_modifier
    (track_temp ambient_temp humidity rainfall : Q) : Q :=
  let condition := determine_condition track_temp ambient_temp humidity rainfall in
  let base_modifier := degradation_modifiers condition in
  let temp_effect := 1.0 + (track_temp - 25) * 0.01 in
  let temp_effect := max2 0.5 (min2 2.0 temp_effect) in
  base_modifier * temp_effect.

Definition adjust_lap_time
    (base_lap_time track_temp ambient_temp humidity rainfall : Q) : Q :=
  let modifier := calculate_pace_modifier track_temp ambient_temp humidity rainfall in
  base_lap_time * modifier.

Definition adjust_degradation_rate
    (base_rate track_temp ambient_temp humidity rainfall : Q) : Q :=
  let modifier :=
    calculate_degradation_modifier track_temp ambient_temp humidity rainfall in
  base_rate * modifier.

End weather.

(** ** grracing/pit_rejoin.py *)

Module pit_rejoin.

Record TrafficImpact : Type := {
  cars_ahead : Q;
  traffic_loss_per_lap : Q;
  sector : string;
  density : Q;
  clear_window : bool
}.

Record RejoinResult : Type := {
  driver_id : string;
  pit_lap : Z;
  position_before_pit : Z;
  rejoin_position : Z;
  positions_lost : Z;
  time_lost : Q;
  ghost_position : Z;
  traffic_impact : TrafficImpact;
  rejoin_sector : string
}.

Definition sector_penalties : list (string * Q) :=
  [("S1", 0.8); ("S2", 1.2); ("S3", 1.0)]%string.

Definition _calculate_rejoin_time_loss
    (traffic_density : Q) (sector : string) (average_lap_time : Q) : Q :=
  let base_rejoin_penalty := 1.5 in
  let traffic_multiplier := 1.0 + traffic_density * 0.5 in
  let sector_mult := dict_get sector_penalties sector 1.0 in
  base_rejoin_penalty * traffic_multiplier * sector_mult.

Definition _time_to_positions (time_lost average_lap_time : Q) : Q :=
  let avg_gap_per_position := 1.0 in
  let positions_lost := time_lost / avg_gap_per_position in
  max2 0 positions_lost.

Definition _calculate_ghost_position
    (current_position pit_lap : Z) (average_lap_time : Q) : Z :=
  let degradation_per_lap := 0.1 in
  let laps_since_pit_window := Z.max 0 (pit_lap - 15) in
  let ghost_time_loss := inject_Z laps_since_pit_window * degradation_per_lap in
  let ghost_positions_lost := ghost_time_loss / 1.0 in
  Z.min (current_position + int ghost_positions_lost) (current_position + 5).

Definition sector_multipliers : list (string * Q) :=
  [("S1", 0.8); ("S2", 1.3); ("S3", 1.0)]%string.

Definition _calculate_traffic_impact
    (rejoin_position traffic_density : Q) (sector : string) : TrafficImpact :=
  let cars_ahead := max2 0 (rejoin_position - 1) in
  let base_penalty := 0.1 in
  let sector_mult := dict_get sector_multipliers sector 1.0 in
  let density_mult := 1.0 + traffic_density * 0.5 in
  let traffic_loss_per_lap := cars_ahead * base_penalty * sector_mult * density_mult in
  {| cars_ahead := cars_ahead;
     traffic_loss_per_lap := traffic_loss_per_lap;
     sector := sector;
     density := traffic_density;
     clear_window := Qlt_bool traffic_loss_per_lap 0.2 |}.

Definition simulate_pit_rejoin
    (driver_id : string) (current_position pit_lap : Z)
    (pit_time average_lap_time traffic_density : Q) (total_cars : Z)
    (sector_at_pit : string) : RejoinResult :=
  let total_time_lost :=
    pit_time
    + _calculate_rejoin_time_loss traffic_density sector_at_pit average_lap_time in
  let positions_lost := _time_to_positions total_time_lost average_lap_time in
  let rejoin_position :=
    min2 (inject_Z current_position + positions_lost) (inject_Z total_cars) in
  let ghost_position :=
    _calculate_ghost_position current_position pit_lap average_lap_time in
  let traffic_impact :=
    _calculate_traffic_impact rejoin_position traffic_density sector_at_pit in
  {| driver_id := driver_id;
     pit_lap := pit_lap;
     position_before_pit := current_position;
     rejoin_position := int rejoin_position;
     positions_lost := int positions_lost;
     time_lost := total_time_lost;
     ghost_position := ghost_position;
     traffic_impact := traffic_impact;
     rejoin_sector := sector_at_pit |}.

(** [time_lost] in float arithmetic: the sum [total_time_lost] of
    [simulate_pit_rejoin] and the body of [_calculate_rejoin_time_loss], with
    every literal rounded to the float it denotes and every operation
    followed by the rounding [rnd].  With the identity for [rnd] this is the
    [time_lost] of [simulate_pit_rejoin] above. *)
Section Rounded.

Variable rnd : Q -> Q.

Definition _calculate_rejoin_time_loss_rounded
    (traffic_density : Q) (sector : string) (average_lap_time : Q) : Q :=
  let base_rejoin_penalty := rnd 1.5 in
  let traffic_multiplier := rnd (rnd 1.0 + rnd (traffic_density * rnd 0.5)) in
  let sector_mult := rnd (dict_get sector_penalties sector 1.0) in
  rnd (rnd (base_rejoin_penalty * traffic_multiplier) * sector_mult).

Definition time_lost_rounded
    (pit_time average_lap_time traffic_density : Q) (sector_at_pit : string) : Q :=
  let total_time_lost :=
    rnd (pit_time
         + _calculate_rejoin_time_loss_rounded traffic_density sector_at_pit
             average_lap_time) in
  total_time_lost.

End Rounded.

(** The entries of [traffic_forecast] and the result of
    [predict_optimal_pit_window]. *)
Module Forecast.
Record t : Type := {
  lap : Z;
  traffic_density : Q;
  suitable : bool
}.
End Forecast.

Module PitWindow.
Record t : Type := {
  optimal_lap : Z;
  window_start : Z;
  window_end : Z;
  traffic_forecast : list Forecast.t;
  degradation_urgent : bool;
  recommendation : string
}.
End PitWindow.

(** [min(traffic_forecast, key=lambda x: x["traffic_density"])]: the first
    entry of least density; an empty forecast is rejected. *)
Definition least_traffic (traffic_forecast : list Forecast.t) : result Forecast.t :=
  match traffic_forecast with
  | [] => Raise (ValueError "min() arg is an empty sequence")
  | w :: rest =>
      Ok (fold_left
            (fun best w' =>
               if Qlt_bool (Forecast.traffic_density w') (Forecast.traffic_density best)
               then w' else best)
            rest w)
  end.

Definition predict_optimal_pit_window
    (current_position : Z) (traffic_density : Q) (tire_age : Z)
    (degradation_rate : Q) (total_laps current_lap : Z) : result PitWindow.t :=
  let traffic_forecast :=
    map (fun lap =>
           let predicted_density :=
             traffic_density * (1.0 - inject_Z (lap - current_lap) * 0.05) in
           {| Forecast.lap := lap;
              Forecast.traffic_density := max2 0.0 predicted_density;
              Forecast.suitable := Qlt_bool predicted_density 0.4 |})
        (range current_lap (Z.min (current_lap + 10) total_laps)) in
  best_window <- least_traffic traffic_forecast ;;
  let degradation_urgent := (20 <? tire_age)%Z || Qlt_bool 0.003 degradation_rate in
  Ok {| PitWindow.optimal_lap := Forecast.lap best_window;
        PitWindow.window_start := Z.max current_lap (Forecast.lap best_window - 2);
        PitWindow.window_end := Z.min total_laps (Forecast.lap best_window + 2);
        PitWindow.traffic_forecast := traffic_forecast;
        PitWindow.degradation_urgent := degradation_urgent;
        PitWindow.recommendation :=
          if degradation_urgent then "PIT_NOW"%string else "PIT_IN_WINDOW"%string |}.

End pit_rejoin.

(** ** grracing/degradation.py *)

Module degradation.

(** Instances of [TireDegradationModel] as this module defines the class. *)
Record TireDegradationModel : Type := {
  compound : string;
  track_temp : Q
}.

(** [TireDegradationModel(compound="SOFT", track_temp=25.0)] *)
Definition __init__ (compound : option string) (track_temp : option Q) : TireDegradationModel :=
  {| compound := match compound with Some c => c | None => "SOFT"%string end;
     track_temp := match track_temp with Some t => t | None => 25.0 end |}.

Definition compound_coefficients : list (string * Q) :=
  [("SOFT", 0.08); ("MEDIUM", 0.05); ("HARD", 0.03);
   ("SUPER_SOFT", 0.10); ("INTERMEDIATE", 0.12); ("WET", 0.15)]%string.

(** [base ** n] for a float base and an int exponent, as an exact power.
    In Python the power raises [OverflowError] once it leaves the float
    range ([1.08 ** 10000]); the exact power has no such limit, so what is
    said about a returned lap time holds for exponents far below it. *)
Definition pow_int (base : Q) (n : Z) : result Q :=
  if Qeq_bool base 0 && (n <? 0)%Z then Raise ZeroDivisionError
  else Ok (Qpower base n).

Definition exponential_degradation (self : TireDegradationModel)
    (lap_number : Z) (base_time : Q) (degradation_rate : option Q) : result Q :=
  let degradation_rate :=
    match degradation_rate with
    | Some r => r
    | None => dict_get compound_coefficients (compound self) 0.05
    end in
  degradation_factor <- pow_int (1 + degradation_rate) lap_number ;;
  Ok (base_time * degradation_factor).

Definition linear_degradation (self : TireDegradationModel)
    (lap_number : Z) (base_time : Q) (degradation_per_lap : option Q) : Q :=
  let degradation_per_lap :=
    match degradation_per_lap with
    | Some d => d
    | None => dict_get compound_coefficients (compound self) 0.05 * base_time
    end in
  base_time + degradation_per_lap * inject_Z lap_number.

Definition temp_coefficient : Q := 0.002.

Definition optimal_temp_range : list (string * (Z * Z)) :=
  [("SOFT", (30, 40)); ("MEDIUM", (35, 45)); ("HARD", (40, 50))]%string%Z.

Definition temperature_adjusted_degradation (self : TireDegradationModel)
    (lap_number : Z) (base_time : Q) (current_temp : option Q) : Q :=
  let current_temp :=
    match current_temp with Some t => t | None => track_temp self end in
  let base_degradation := linear_degradation self lap_number base_time None in
  let optimal_range := dict_get optimal_temp_range (compound self) (30, 40)%Z in
  let optimal_temp := inject_Z (fst optimal_range + snd optimal_range) / 2 in
  let temp_delta := current_temp - optimal_temp in
  let temp_adjustment :=
    base_degradation * (1 + Qabs temp_delta * temp_coefficient) in
  if Qlt_bool 5 temp_delta || Qlt_bool temp_delta (-5)
  then temp_adjustment * 1.2
  else temp_adjustment.

Module PitWindow.
Record t : Type := {
  optimal_pit_lap : option Z;
  current_time : Q;
  fresher_time : Q;
  time_gain_per_lap : Q;
  pit_loss : Q
}.
End PitWindow.

(** [pit_loss] defaults to 25.0. *)
Definition calculate_pit_window (self : TireDegradationModel)
    (current_time degradation_rate : Q) (pit_loss : option Q) : result PitWindow.t :=
  let pit_loss := match pit_loss with Some p => p | None => 25.0 end in
  base_time <- truediv current_time (1 + degradation_rate) ;;
  let optimal_pit_lap :=
    find (fun lap =>
            let degraded_time :=
              linear_degradation self lap base_time
                (Some (degradation_rate * base_time)) in
            let new_tire_time := base_time in
            let time_gain := degraded_time - new_tire_time in
            Qlt_bool pit_loss time_gain)
         (range 1 100) in
  Ok {| PitWindow.optimal_pit_lap := optimal_pit_lap;
        PitWindow.current_time := current_time;
        PitWindow.fresher_time := base_time;
        PitWindow.time_gain_per_lap := degradation_rate * base_time;
        PitWindow.pit_loss := pit_loss |}.

(** The class body defines [exponential_degradation], [linear_degradation],
    [temperature_adjusted_degradation], [fit_degradation_curve],
    [predict_stint_degradation] and [calculate_pit_window]; [__init__] sets
    [compound], [track_temp], [compound_coefficients], [temp_coefficient] and
    [optimal_temp_range].  There is no [calculate_degradation] among them:
    the slot of that method is empty. *)
Definition calculate_degradation : option (Z -> string -> option Q -> Q) := None.

(** [obj.name] on an instance: the bound method when the class defines it,
    [AttributeError] otherwise. *)
Definition getattr {M : Type} (name : string) (slot : option M) : result M :=
  match slot with
  | Some m => Ok m
  | None => Raise (AttributeError "TireDegradationModel" name)
  end.

End degradation.

(** ** grracing/models/tire_degradation.py *)

Module models_tire_degradation.

Definition compound_multipliers : list (string * Q) :=
  [("SOFT", 1.5); ("MEDIUM", 1.0); ("HARD", 0.7)]%string.

(** [TireDegradationModel.calculate_degradation] of the production model,
    the only definition of that name in the package; [track_temp] defaults
    to 25.0. *)
Definition calculate_degradation (tire_age : Z) (compound : string)
    (track_temp : option Q) : Q :=
  let track_temp := match track_temp with Some t => t | None => 25.0 end in
  let base_rate := 0.002 in
  let rate := base_rate * dict_get compound_multipliers compound 1.0 in
  let temp_multiplier := 1.0 + (track_temp - 25) * 0.01 in
  let rate := rate * temp_multiplier in
  let degradation := rate * inject_Z tire_age in
  min2 degradation 0.1.

End models_tire_degradation.

(** ** grracing/strategy_optimizer.py *)

Module strategy_optimizer.

Module Window.
Record t : Type := {
  start : Z;
  end_ : Z;
  optimal : Z;
  urgency : string
}.
End Window.

(** The two shapes of dictionary returned by the undercut analysis: the
    early return, and the full assessment. *)
Module Undercut.
Inductive t : Type :=
| Rejected (reason : string)
| Assessed (viable : bool) (recommended_lap : Z) (time_gain : Q)
           (laps_undercut : Z) (traffic_impact : Q) (confidence : string).

Definition viable (u : t) : bool :=
  match u with Rejected _ => false | Assessed v _ _ _ _ _ => v end.
Definition time_gain (u : t) : Q :=
  match u with Rejected _ => 0.0 | Assessed _ _ g _ _ _ => g end.
End Undercut.

Module Overcut.
Inductive t : Type :=
| Rejected (reason : string)
| Assessed (viable : bool) (recommended_lap : Z) (time_gain : Q)
           (opponent_degradation : Q) (traffic_impact : Q) (confidence : string).

Definition viable (o : t) : bool :=
  match o with Rejected _ => false | Assessed v _ _ _ _ _ => v end.
Definition time_gain (o : t) : Q :=
  match o with Rejected _ => 0.0 | Assessed _ _ g _ _ _ => g end.
End Overcut.

Module DegradationDecision.
Record t : Type := {
  decision : string;
  urgency : string;
  current_degradation : Q;
  predicted_degradation : Q;
  degradation_rate : Q
}.
End DegradationDecision.

Module Risk.
Record t : Type := {
  score : Q;
  level : string;
  risks : list string
}.
End Risk.

Inductive reasoning : Type :=
| StrongUndercut (time_gain : Q)
| OvercutViable (time_gain : Q)
| CriticalDegradation
| StandardWindow.

Module Recommendation.
Record t : Type := {
  strategy : string;
  lap : option Z;
  reasoning : reasoning;
  confidence : string
}.
End Recommendation.

(** The result of [optimize_pit_strategy] (the timestamp is left out). *)
Module Strategy.
Record t : Type := {
  driver_id : string;
  current_lap : Z;
  optimal_pit_window : Window.t;
  undercut_analysis : Undercut.t;
  overcut_analysis : Overcut.t;
  degradation_decision : DegradationDecision.t;
  risk_score : Risk.t;
  recommendation : Recommendation.t
}.
End Strategy.

(** The division is guarded by [degradation_rate > 0]. *)
Definition _calculate_optimal_pit_window
    (current_lap total_laps tire_age : Z) (degradation_rate traffic_density : Q)
  : Window.t :=
  let degradation_threshold := 0.02 in
  let critical_lap :=
    if Qlt_bool 0 degradation_rate
    then (current_lap + int (degradation_threshold / degradation_rate))%Z
    else (current_lap + 20)%Z in
  let traffic_adjustment :=
    if Qlt_bool 0.7 traffic_density then (-2)%Z
    else if Qlt_bool traffic_density 0.3 then 2%Z
    else 0%Z in
  let optimal_lap :=
    Z.max (current_lap + 1)
          (Z.min (critical_lap + traffic_adjustment) (total_laps - 10)) in
  {| Window.start := Z.max (current_lap + 1) (optimal_lap - 2);
     Window.end_ := Z.min (total_laps - 5) (optimal_lap + 2);
     Window.optimal := optimal_lap;
     Window.urgency :=
       if (20 <? tire_age)%Z then "high"%string
       else if (15 <? tire_age)%Z then "medium"%string
       else "low"%string |}.

(** [if not opponent_pace: opponent_pace = driver_pace] *)
Definition opponent_pace_or (opponent_pace : option Q) (driver_pace : Q) : Q :=
  match opponent_pace with
  | Some p => if Qeq_bool p 0 then driver_pace else p
  | None => driver_pace
  end.

Definition _analyze_undercut
    (driver_id : string) (current_lap : Z) (optimal_window : Window.t)
    (driver_pace : Q) (opponent_pace : option Q) (tire_age : Z)
    (traffic_density : Q) : Undercut.t :=
  let opponent_pace := opponent_pace_or opponent_pace driver_pace in
  let fresh_tire_advantage := 0.015 in
  let pace_gain_per_lap := driver_pace * fresh_tire_advantage in
  let opponent_pit_lap := (Window.optimal optimal_window + 3)%Z in
  let undercut_lap := Z.max (current_lap + 1) (Window.start optimal_window - 2) in
  let laps_undercut := (opponent_pit_lap - undercut_lap)%Z in
  if (laps_undercut <=? 0)%Z then
    Undercut.Rejected "Opponent will pit before or at same time"%string
  else
    let total_gain := pace_gain_per_lap * inject_Z laps_undercut in
    let traffic_penalty := traffic_density * 0.5 in
    let net_gain := total_gain - traffic_penalty in
    let viable := Qlt_bool 1.0 net_gain && Qlt_bool traffic_density 0.5 in
    Undercut.Assessed viable
      (if viable then undercut_lap else Window.optimal optimal_window)
      (max2 0.0 net_gain)
      laps_undercut
      traffic_penalty
      (if Qlt_bool 2.0 net_gain then "high"%string
       else if Qlt_bool 1.0 net_gain then "medium"%string
       else "low"%string).

Definition _analyze_overcut
    (driver_id : string) (current_lap : Z) (optimal_window : Window.t)
    (driver_pace : Q) (opponent_pace : option Q) (tire_age : Z)
    (traffic_density : Q) : Overcut.t :=
  let opponent_pace := opponent_pace_or opponent_pace driver_pace in
  let opponent_pit_lap := (Window.optimal optimal_window + 2)%Z in
  let overcut_lap := (opponent_pit_lap + 3)%Z in
  if (Window.end_ optimal_window <? overcut_lap)%Z then
    Overcut.Rejected "Overcut window exceeds optimal pit window"%string
  else
    let opponent_tire_age_at_pit := (opponent_pit_lap - current_lap + tire_age)%Z in
    let degradation_penalty := inject_Z opponent_tire_age_at_pit * 0.002 in
    let driver_advantage := degradation_penalty * 3 in
    let traffic_penalty := traffic_density * 0.3 in
    let net_gain := driver_advantage - traffic_penalty in
    let viable := Qlt_bool 0.5 net_gain && (tire_age <? 18)%Z in
    Overcut.Assessed viable
      (if viable then overcut_lap else Window.optimal optimal_window)
      (max2 0.0 net_gain)
      degradation_penalty
      traffic_penalty
      (if Qlt_bool 1.5 net_gain then "high"%string
       else if Qlt_bool 0.5 net_gain then "medium"%string
       else "low"%string).

Definition _make_degradation_aware_decision
    (tire_age : Z) (degradation_rate : Q) (optimal_window : Window.t)
    (current_lap : Z) : DegradationDecision.t :=
  let current_degradation := inject_Z tire_age * degradation_rate in
  let laps_to_window := (Window.optimal optimal_window - current_lap)%Z in
  let future_degradation := inject_Z (tire_age + laps_to_window) * degradation_rate in
  let '(decision, urgency) :=
    if Qlt_bool 0.05 current_degradation then ("PIT_NOW"%string, "critical"%string)
    else if Qlt_bool 0.04 future_degradation then ("PIT_IN_WINDOW"%string, "high"%string)
    else if Qlt_bool 0.003 degradation_rate then ("PIT_EARLY"%string, "medium"%string)
    else ("EXTEND_STINT"%string, "low"%string) in
  {| DegradationDecision.decision := decision;
     DegradationDecision.urgency := urgency;
     DegradationDecision.current_degradation := current_degradation;
     DegradationDecision.predicted_degradation := future_degradation;
     DegradationDecision.degradation_rate := degradation_rate |}.

Definition _calculate_risk_score
    (tire_age : Z) (degradation_rate traffic_density : Q) (position : Z) : Risk.t :=
  let risks := [] in
  let score := 0.0 in
  let '(risks, score) :=
    if (25 <? tire_age)%Z then
      (risks ++ ["Critical tire age - high failure risk"%string], score + 0.4)
    else if (20 <? tire_age)%Z then
      (risks ++ ["High tire age - performance degradation"%string], score + 0.3)
    else (risks, score) in
  let '(risks, score) :=
    if Qlt_bool 0.004 degradation_rate then
      (risks ++ ["High degradation rate - pace loss accelerating"%string], score + 0.3)
    else (risks, score) in
  let '(risks, score) :=
    if Qlt_bool 0.7 traffic_density then
      (risks ++ ["Heavy traffic - difficult pit rejoin"%string], score + 0.2)
    else (risks, score) in
  let '(risks, score) :=
    if (position <=? 3)%Z then
      (risks ++ ["Podium position - strategy critical"%string], score + 0.1)
    else (risks, score) in
  {| Risk.score := min2 1.0 score;
     Risk.level :=
       if Qlt_bool 0.6 score then "high"%string
       else if Qlt_bool 0.3 score then "medium"%string
       else "low"%string;
     Risk.risks := risks |}.

(** The degradation decision has no key ["optimal_lap"]: the lap of the
    standard strategy is the default [None] of the lookup. *)
Definition _generate_recommendation
    (undercut : Undercut.t) (overcut : Overcut.t)
    (degradation : DegradationDecision.t) (risk : Risk.t) : Recommendation.t :=
  let strong_undercut :=
    match undercut with
    | Undercut.Assessed true recommended_lap time_gain _ _ confidence =>
        if Qlt_bool 2.0 time_gain then
          Some {| Recommendation.strategy := "UNDERCUT"%string;
                  Recommendation.lap := Some recommended_lap;
                  Recommendation.reasoning := StrongUndercut time_gain;
                  Recommendation.confidence := confidence |}
        else None
    | _ => None
    end in
  let viable_overcut :=
    match overcut with
    | Overcut.Assessed true recommended_lap time_gain _ _ confidence =>
        if Qlt_bool 1.5 time_gain then
          Some {| Recommendation.strategy := "OVERCUT"%string;
                  Recommendation.lap := Some recommended_lap;
                  Recommendation.reasoning := OvercutViable time_gain;
                  Recommendation.confidence := confidence |}
        else None
    | _ => None
    end in
  match strong_undercut, viable_overcut with
  | Some r, _ => r
  | None, Some r => r
  | None, None =>
      if String.eqb (DegradationDecision.decision degradation) "PIT_NOW"%string then
        {| Recommendation.strategy := "PIT_NOW"%string;
           Recommendation.lap := None;
           Recommendation.reasoning := CriticalDegradation;
           Recommendation.confidence := "high"%string |}
      else
        {| Recommendation.strategy := "STANDARD_PIT"%string;
           Recommendation.lap := None;
           Recommendation.reasoning := StandardWindow;
           Recommendation.confidence := "medium"%string |}
  end.

Definition optimize_pit_strategy
    (driver_id : string) (current_lap total_laps current_position tire_age : Z)
    (tire_compound : string) (degradation_rate traffic_density driver_pace : Q)
    (opponent_pace : option Q) : Strategy.t :=
  let optimal_window :=
    _calculate_optimal_pit_window current_lap total_laps tire_age
      degradation_rate traffic_density in
  let undercut_analysis :=
    _analyze_undercut driver_id current_lap optimal_window driver_pace
      opponent_pace tire_age traffic_density in
  let overcut_analysis :=
    _analyze_overcut driver_id current_lap optimal_window driver_pace
      opponent_pace tire_age traffic_density in
  let degradation_decision :=
    _make_degradation_aware_decision tire_age degradation_rate optimal_window
      current_lap in
  let risk_score :=
    _calculate_risk_score tire_age degradation_rate traffic_density current_position in
  {| Strategy.driver_id := driver_id;
     Strategy.current_lap := current_lap;
     Strategy.optimal_pit_window := optimal_window;
     Strategy.undercut_analysis := undercut_analysis;
     Strategy.overcut_analysis := overcut_analysis;
     Strategy.degradation_decision := degradation_decision;
     Strategy.risk_score := risk_score;
     Strategy.recommendation :=
       _generate_recommendation undercut_analysis overcut_analysis
         degradation_decision risk_score |}.

End strategy_optimizer.

(** ** [np.random]: a tape of pre-drawn numbers *)

Module Random.

(** [normals] holds standard normal draws and [uniforms] draws from
    [[0, 1)]; the cursors count the draws consumed so far. *)
Record Rng : Type := {
  normals : nat -> Q;
  uniforms : nat -> Q;
  normal_cursor : nat;
  uniform_cursor : nat
}.

(** Computations that draw random numbers and may raise. *)
Definition M (A : Type) : Type := Rng -> result (A * Rng).

Definition ret {A : Type} (a : A) : M A := fun g => Ok (a, g).

Definition bind {A B : Type} (m : M A) (k : A -> M B) : M B :=
  fun g =>
    match m g with
    | Ok (a, g') => k a g'
    | Raise e => Raise e
    end.

Definition lift {A : Type} (r : result A) : M A :=
  fun g => match r with Ok a => Ok (a, g) | Raise e => Raise e end.

(** [np.random.random()] *)
Definition random : M Q :=
  fun g =>
    Ok (uniforms g (uniform_cursor g),
        {| normals := normals g; uniforms := uniforms g;
           normal_cursor := normal_cursor g;
           uniform_cursor := S (uniform_cursor g) |}).

(** [np.random.uniform(low, high)] *)
Definition uniform (low high : Q) : M Q :=
  bind random (fun u => ret (low + (high - low) * u)).

(** [np.random.normal(loc, scale)]; a negative [scale] is rejected. *)
Definition normal (loc scale : Q) : M Q :=
  fun g =>
    if Qlt_bool scale 0 then Raise (ValueError "scale < 0")
    else
      Ok (loc + scale * normals g (normal_cursor g),
          {| normals := normals g; uniforms := uniforms g;
             normal_cursor := S (normal_cursor g);
             uniform_cursor := uniform_cursor g |}).

End Random.

Declare Scope sim_scope.
Delimit Scope sim_scope with sim.
Notation "x <~ m ;; k" := (Random.bind m (fun x => k))
  (at level 61, m at next level, right associativity) : sim_scope.

(** ** Insertion-ordered dictionaries with string keys *)

Module Dict.

Definition t (V : Type) : Type := list (string * V).

Fixpoint get {V : Type} (d : t V) (k : string) : option V :=
  match d with
  | [] => None
  | (k', v) :: rest => if String.eqb k k' then Some v else get rest k
  end.

(** [d[k] = v]: an existing key keeps its place, a new key goes last. *)
Fixpoint set {V : Type} (d : t V) (k : string) (v : V) : t V :=
  match d with
  | [] => [(k, v)]
  | (k', v') :: rest =>
      if String.eqb k k' then (k', v) :: rest else (k', v') :: set rest k v
  end.

Definition keys {V : Type} (d : t V) : list string := map fst d.
Definition values {V : Type} (d : t V) : list V := map snd d.

(** [{key(x): value(x) for x in xs}] *)
Definition comprehension {X V : Type} (key : X -> string) (value : X -> V)
    (xs : list X) : t V :=
  fold_left (fun d x => set d (key x) (value x)) xs [].

End Dict.

(** [sorted(xs, key=...)]: stable, ascending in the key. *)
Module Sorted.

Fixpoint insert {A : Type} (key : A -> Q) (x : A) (l : list A) : list A :=
  match l with
  | [] => [x]
  | y :: rest =>
      if Qle_bool (key x) (key y) then x :: y :: rest
      else y :: insert key x rest
  end.

Definition sorted {A : Type} (key : A -> Q) (l : list A) : list A :=
  fold_right (insert key) [] l.

End Sorted.

(** ** grracing/race_twin.py *)

Module race_twin.

(** The keys of a driver twin that the simulator reads. *)
Module Twin.
Record DegradationProfile : Type := {
  base_pace : option Q;
  rate : option Q
}.
Record t : Type := {
  pace_vector : option Q;
  consistency_index : option Q;
  degradation_profile : option DegradationProfile
}.
End Twin.

(** An entry of the [drivers] argument. *)
Module Driver.
Record t : Type := {
  id : string;
  position : option Z;
  tire_age : option Z;
  tire_compound : option string
}.
End Driver.

Module Weather.
Record t : Type := {
  track_temp : option Q;
  ambient_temp : option Q;
  humidity : option Q;
  rainfall : option Q
}.
End Weather.

Module Strategy.
Record t : Type := {
  driver_id : option string;
  planned_pits : option (list Z)
}.
End Strategy.

Module PitStop.
Record t : Type := {
  lap : Z;
  pit_time : Q;
  new_compound : string;
  old_compound : string;
  rejoin_position : Z;
  positions_lost : Z;
  time_lost : Q;
  traffic_impact : pit_rejoin.TrafficImpact
}.
End PitStop.

(** The per-driver state of one iteration. *)
Module State.
Record t : Type := {
  driver_id : string;
  position : Z;
  lap_times : list Q;
  pit_stops : list PitStop.t;
  tire_age : Z;
  tire_compound : string;
  total_time : Q;
  twin : option Twin.t
}.

Definition set_position (s : t) (p : Z) : t :=
  {| driver_id := driver_id s; position := p; lap_times := lap_times s;
     pit_stops := pit_stops s; tire_age := tire_age s;
     tire_compound := tire_compound s; total_time := total_time s;
     twin := twin s |}.

(** [lap_times.append(lap_time); total_time += lap_time; tire_age += 1] *)
Definition record_lap (s : t) (lap_time : Q) : t :=
  {| driver_id := driver_id s; position := position s;
     lap_times := lap_times s ++ [lap_time];
     pit_stops := pit_stops s; tire_age := (tire_age s + 1)%Z;
     tire_compound := tire_compound s; total_time := total_time s + lap_time;
     twin := twin s |}.

(** The five assignments that follow a pit stop. *)
Definition record_pit (s : t) (pit_result : PitStop.t) : t :=
  {| driver_id := driver_id s;
     position := PitStop.rejoin_position pit_result;
     lap_times := lap_times s;
     pit_stops := pit_stops s ++ [pit_result];
     tire_age := 0;
     tire_compound := PitStop.new_compound pit_result;
     total_time := total_time s + PitStop.pit_time pit_result;
     twin := twin s |}.
End State.

Module SimulationResult.
Record t : Type := {
  finishing_order : list string;
  pit_stops : Dict.t (list PitStop.t);
  total_times : Dict.t Q
}.
End SimulationResult.

(** [RaceTwinSimulator.__init__]: the stored simulation count. *)
Definition __init__ (num_simulations : Z) : Z :=
  Z.max 100 (Z.min num_simulations 500).

Definition or_default {A : Type} (o : option A) (default : A) : A :=
  match o with Some a => a | None => default end.

(** [state.get('twin', {})] followed by a [.get] on it: the key is always
    present, and holds [None] for a driver without a twin. *)
Definition twin_of (state : State.t) : result Twin.t :=
  match State.twin state with
  | Some t => Ok t
  | None => Raise (AttributeError "NoneType" "get")
  end.

(** [weather_data.get('track_temp', 25) if weather_data else 25] *)
Definition track_temp_of (weather_data : option Weather.t) : Q :=
  match weather_data with
  | Some w => or_default (Weather.track_temp w) 25
  | None => 25
  end.

Definition sector_of_lap (lap : Z) : string :=
  match ((lap - 1) mod 3)%Z with
  | 0%Z => "S1"
  | 1%Z => "S2"
  | _ => "S3"
  end.

Definition driver_list (drivers : Dict.t State.t) (sector : string) : list traffic.Driver :=
  map (fun '(did, s) =>
         {| traffic.id := did;
            traffic.position := Some (State.position s);
            traffic.sector := Some sector |}) drivers.

Section Simulator.

Import Random.
Local Open Scope sim_scope.

(** Float exponentiation, used by the traffic model. *)
Variable fpow : Q -> Q -> Q.

(** The slot [calculate_degradation] of the class bound to the imported
    name [TireDegradationModel]. *)
Variable calculate_degradation_slot : option (Z -> string -> option Q -> Q).

Definition _calculate_traffic_penalty
    (driver_id : string) (position : Z) (drivers : Dict.t State.t)
    (sector : string) : M Q :=
  let cars_ahead := (position - 1)%Z in
  if (cars_ahead =? 0)%Z then ret 0
  else
    let traffic_density :=
      traffic.calculate_traffic_density (driver_list drivers sector) sector in
    let time_lost := traffic.estimate_time_lost fpow traffic_density sector in
    let position_penalty := inject_Z cars_ahead * 0.05 in
    let total_penalty := time_lost + position_penalty in
    noise <~ uniform (-0.02) 0.08 ;;
    let total_penalty := total_penalty + noise in
    ret (max2 total_penalty 0).

Definition _calculate_lap_time
    (driver_id : string) (state : State.t) (lap : Z)
    (weather_data : option Weather.t) (drivers : Dict.t State.t) : M Q :=
  twin <~ lift (twin_of state) ;;
  let base_pace := or_default (Twin.pace_vector twin) 0 in
  let base_lap_time := 95.0 in
  let adjusted_time := base_lap_time * (1 + base_pace) in
  let tire_age := State.tire_age state in
  let tire_compound := State.tire_compound state in
  let track_temp := track_temp_of weather_data in
  let degradation_model := degradation.__init__ (Some tire_compound) (Some track_temp) in
  let base_pace :=
    match Twin.degradation_profile twin with
    | Some profile => or_default (Twin.base_pace profile) adjusted_time
    | None => adjusted_time
    end in
  degraded_time <~ lift (degradation.exponential_degradation
                           degradation_model tire_age base_pace None) ;;
  degradation_factor <~
    lift (if Qlt_bool 0 base_pace
          then truediv (degraded_time - base_pace) base_pace
          else Ok (inject_Z tire_age * 0.002)) ;;
  let adjusted_time := degraded_time in
  let adjusted_time :=
    match weather_data with
    | Some w =>
        adjusted_time *
        weather.calculate_pace_modifier
          (or_default (Weather.track_temp w) 25)
          (or_default (Weather.ambient_temp w) 25)
          (or_default (Weather.humidity w) 50)
          (or_default (Weather.rainfall w) 0)
    | None => adjusted_time
    end in
  let sector := sector_of_lap lap in
  traffic_penalty <~
    _calculate_traffic_penalty driver_id (State.position state) drivers sector ;;
  let adjusted_time := adjusted_time + traffic_penalty in
  let consistency := or_default (Twin.consistency_index twin) 0.8 in
  let variance := (1 - consistency) * 0.5 in
  random_factor <~ normal 0 variance ;;
  let adjusted_time := adjusted_time + random_factor in
  ret (max2 adjusted_time 90).

(** The loop over [pit_strategy_options]: a planned stop of this driver on
    this lap. *)
Definition planned_stop (driver_id : string) (lap : Z)
    (pit_strategy_options : option (list Strategy.t)) : bool :=
  match pit_strategy_options with
  | Some options =>
      existsb (fun strategy =>
                 match Strategy.driver_id strategy with
                 | Some d =>
                     String.eqb d driver_id
                     && existsb (Z.eqb lap) (or_default (Strategy.planned_pits strategy) [])
                 | None => false
                 end) options
  | None => false
  end.

Definition _should_pit
    (driver_id : string) (state : State.t) (lap total_laps : Z)
    (pit_strategy_options : option (list Strategy.t)) : M bool :=
  if planned_stop driver_id lap pit_strategy_options then ret true
  else
    let tire_age := State.tire_age state in
    twin <~ lift (twin_of state) ;;
    let degradation_rate :=
      match Twin.degradation_profile twin with
      | Some profile => or_default (Twin.rate profile) 0.002
      | None => 0.002
      end in
    let critical_age := if Qlt_bool degradation_rate 0.003 then 20%Z else 15%Z in
    if (critical_age <=? tire_age)%Z && (10 <=? total_laps - lap)%Z then ret true
    else if (25 <? tire_age)%Z then
      u <~ random ;;
      ret (Qlt_bool u 0.1)
    else ret false.

Definition compound_sequence : list string := ["SOFT"; "MEDIUM"; "HARD"]%string.

(** [compound_sequence.index(c) if c in compound_sequence else 1] *)
Definition compound_index (c : string) : nat :=
  if String.eqb c "SOFT" then 0%nat
  else if String.eqb c "MEDIUM" then 1%nat
  else if String.eqb c "HARD" then 2%nat
  else 1%nat.

(** [s.get('lap_times', [95.0])[-1] if s.get('lap_times') else 95.0] *)
Definition last_lap_time (s : State.t) : Q := last (State.lap_times s) 95.0.

Definition _simulate_pit_stop
    (state : State.t) (lap : Z) (drivers : Dict.t State.t) (total_cars : Z) : M PitStop.t :=
  let base_pit_time := 22.0 in
  pit_time_variance <~ uniform (-2) 2 ;;
  let total_pit_time := base_pit_time + pit_time_variance in
  let current_compound := State.tire_compound state in
  let current_idx := compound_index current_compound in
  u <~ random ;;
  let new_idx :=
    if Qlt_bool u 0.7
    then Nat.min (current_idx + 1) (List.length compound_sequence - 1)
    else current_idx in
  let new_compound := nth new_idx compound_sequence "MEDIUM"%string in
  let current_position := State.position state in
  let average_lap_time := mean (map last_lap_time (Dict.values drivers)) in
  let traffic_density :=
    traffic.calculate_traffic_density (driver_list drivers "S2") "S2" in
  let rejoin_result :=
    pit_rejoin.simulate_pit_rejoin
      (State.driver_id state) current_position lap total_pit_time
      average_lap_time traffic_density total_cars "S2" in
  ret {| PitStop.lap := lap;
         PitStop.pit_time := total_pit_time;
         PitStop.new_compound := new_compound;
         PitStop.old_compound := current_compound;
         PitStop.rejoin_position := pit_rejoin.rejoin_position rejoin_result;
         PitStop.positions_lost := pit_rejoin.positions_lost rejoin_result;
         PitStop.time_lost := pit_rejoin.time_lost rejoin_result;
         PitStop.traffic_impact := pit_rejoin.traffic_impact rejoin_result |}.

(** The first entry, in dictionary order, that runs at [position]. *)
Definition find_position (all_states : Dict.t State.t) (position : Z)
  : option (string * State.t) :=
  find (fun '(_, s) => (State.position s =? position)%Z) all_states.

Definition _simulate_overtakes
    (driver_id : string) (state : State.t) (all_states : Dict.t State.t) (lap : Z)
  : M (Dict.t State.t) :=
  let current_pos := State.position state in
  if (current_pos =? 1)%Z then ret all_states
  else
    match find_position all_states (current_pos - 1) with
    | None => ret all_states
    | Some (ahead_id, ahead_state) =>
        twin <~ lift (twin_of state) ;;
        ahead_twin <~ lift (twin_of ahead_state) ;;
        let base_speed := 150.0 in
        let attacker_speed :=
          base_speed * (1 - or_default (Twin.pace_vector twin) 0 * 2) in
        let defender_speed :=
          base_speed * (1 - or_default (Twin.pace_vector ahead_twin) 0 * 2) in
        let sector := sector_of_lap lap in
        overtake_prob <~
          lift (overtake.calculate_overtake_probability
                  attacker_speed defender_speed current_pos (current_pos - 1)
                  (State.tire_age state) (State.tire_age ahead_state) sector) ;;
        u <~ random ;;
        if Qlt_bool u overtake_prob then
          let all_states :=
            Dict.set all_states driver_id
              (State.set_position state (State.position ahead_state)) in
          ret (Dict.set all_states ahead_id
                 (State.set_position ahead_state (State.position state)))
        else ret all_states
    end.

(** The body of the inner loop for one driver.  The state object is shared
    with [race_state]; every mutation is written back under its key. *)
Definition simulate_driver_lap
    (lap total_laps : Z) (weather_data : option Weather.t)
    (pit_strategy_options : option (list Strategy.t)) (total_cars : Z)
    (race_state : Dict.t State.t) (driver_id : string) : M (Dict.t State.t) :=
  match Dict.get race_state driver_id with
  | None => ret race_state
  | Some state =>
      lap_time <~ _calculate_lap_time driver_id state lap weather_data race_state ;;
      let state := State.record_lap state lap_time in
      let race_state := Dict.set race_state driver_id state in
      method <~ lift (degradation.getattr "calculate_degradation"
                        calculate_degradation_slot) ;;
      let degradation :=
        method (State.tire_age state) (State.tire_compound state)
               (Some (track_temp_of weather_data)) in
      should_pit <~ _should_pit driver_id state lap total_laps pit_strategy_options ;;
      after_pit <~
        (if should_pit : bool then
           pit_result <~ _simulate_pit_stop state lap race_state total_cars ;;
           let state := State.record_pit state pit_result in
           ret (state, Dict.set race_state driver_id state)
         else ret (state, race_state)) ;;
      let '(state, race_state) := after_pit in
      _simulate_overtakes driver_id state race_state lap
  end.

(** [for k in ks: acc = step(acc, k)] in the monad. *)
Fixpoint for_each {A S : Type} (step : S -> A -> M S) (xs : list A) (acc : S) : M S :=
  match xs with
  | [] => ret acc
  | x :: rest => acc' <~ step acc x ;; for_each step rest acc'
  end.

(** Positions 1, 2, ... in ascending order of total time. *)
Definition rerank (race_state : Dict.t State.t) : Dict.t State.t :=
  let sorted_drivers := Sorted.sorted (fun x => State.total_time (snd x)) race_state in
  snd (fold_left
         (fun '(new_pos, rs) '(driver_id, _) =>
            ((new_pos + 1)%Z,
             match Dict.get rs driver_id with
             | Some s => Dict.set rs driver_id (State.set_position s new_pos)
             | None => rs
             end))
         sorted_drivers (1%Z, race_state)).

Definition simulate_lap
    (total_laps : Z) (weather_data : option Weather.t)
    (pit_strategy_options : option (list Strategy.t)) (total_cars : Z)
    (race_state : Dict.t State.t) (lap : Z) : M (Dict.t State.t) :=
  race_state <~
    for_each (simulate_driver_lap lap total_laps weather_data
                pit_strategy_options total_cars)
             (Dict.keys race_state) race_state ;;
  ret (rerank race_state).

(** [range(start, stop)] *)
Definition range (start stop : Z) : list Z :=
  map (fun i => (start + Z.of_nat i)%Z) (seq 0 (Z.to_nat (stop - start))).

Definition initial_state (driver_twins : Dict.t Twin.t) (driver : Driver.t) : State.t :=
  {| State.driver_id := Driver.id driver;
     State.position := or_default (Driver.position driver) 0%Z;
     State.lap_times := [];
     State.pit_stops := [];
     State.tire_age := or_default (Driver.tire_age driver) 0%Z;
     State.tire_compound := or_default (Driver.tire_compound driver) "MEDIUM"%string;
     State.total_time := 0;
     State.twin := Dict.get driver_twins (Driver.id driver) |}.

Definition _simulate_single_race_with
    (drivers : list Driver.t) (driver_twins : Dict.t Twin.t)
    (total_laps current_lap : Z) (weather_data : option Weather.t)
    (pit_strategy_options : option (list Strategy.t)) : M SimulationResult.t :=
  let race_state :=
    Dict.comprehension Driver.id (initial_state driver_twins) drivers in
  race_state <~
    for_each (simulate_lap total_laps weather_data pit_strategy_options
                (Z.of_nat (List.length drivers)))
             (range current_lap (total_laps + 1)) race_state ;;
  let final_positions :=
    Sorted.sorted snd
      (map (fun '(driver_id, state) => (driver_id, State.total_time state)) race_state) in
  ret {| SimulationResult.finishing_order := map fst final_positions;
         SimulationResult.pit_stops :=
           map (fun '(driver_id, state) => (driver_id, State.pit_stops state)) race_state;
         SimulationResult.total_times :=
           map (fun '(driver_id, state) => (driver_id, State.total_time state)) race_state |}.

End Simulator.

(** [collections.Counter] over ints, in order of first occurrence. *)
Module Counter.

Definition t : Type := list (Z * Z).

Fixpoint add (c : t) (k : Z) : t :=
  match c with
  | [] => [(k, 1%Z)]
  | (k', n) :: rest =>
      if (k =? k')%Z then (k', (n + 1)%Z) :: rest else (k', n) :: add rest k
  end.

Definition of_list (l : list Z) : t := fold_left add l [].

(** [most_common(1)]: the first entry of maximal count. *)
Definition most_common1 (c : t) : list (Z * Z) :=
  match c with
  | [] => []
  | x :: rest =>
      [fold_left (fun best y => if (snd best <? snd y)%Z then y else best) rest x]
  end.

End Counter.

Module FinishingProb.
Record t : Type := {
  driver_id : string;
  position : Z;
  probability : Q;
  position_distribution : list (Z * Q)
}.
End FinishingProb.

(** The first loop of [_analyze_finishing_positions]: the finishing
    positions of every driver, one per result that lists the driver. *)
Definition record_position (driver_positions : Dict.t (list Z)) (p : Z * string)
  : Dict.t (list Z) :=
  let '(pos, driver_id) := p in
  Dict.set driver_positions driver_id
    (or_default (Dict.get driver_positions driver_id) [] ++ [pos]).

Definition record_result (driver_positions : Dict.t (list Z))
    (result : SimulationResult.t) : Dict.t (list Z) :=
  fold_left record_position
    (enumerate1 (SimulationResult.finishing_order result)) driver_positions.

Definition collect_positions (simulation_results : list SimulationResult.t)
  : Dict.t (list Z) :=
  fold_left record_result simulation_results [].

(** Measures used to state the aggregation properties: the number of
    positions recorded for a driver, and the sum of the counts of a
    [Counter]. *)
Definition lenof (o : option (list Z)) : nat :=
  match o with Some l => List.length l | None => 0%nat end.

Definition counter_total (c : Counter.t) : Z := fold_right Z.add 0%Z (map snd c).

(** How often the results list driver [id] at position [pos]: the entries
    [(pos, id)] of [enumerate(finishing_order, 1)], counted over all
    results. *)
Definition listed_at (pos : Z) (id : string) (p : Z * string) : bool :=
  (fst p =? pos)%Z && String.eqb (snd p) id.

Definition finishes_at (results : list SimulationResult.t) (id : string) (pos : Z)
  : nat :=
  list_sum
    (map (fun r =>
            List.length (filter (listed_at pos id)
                           (enumerate1 (SimulationResult.finishing_order r))))
         results).

Section Aggregate.

(** The rounding of float division. *)
Variable rnd : Q -> Q.

(** One entry of the [position_distribution] comprehension. *)
Definition position_share (total_sims : Z) (entry : Z * Z) : result (Z * Q) :=
  let '(pos, count) := entry in
  share <- truediv_rounded rnd (inject_Z count) (inject_Z total_sims) ;;
  Ok (pos, share).

(** The body of the second loop: the entry of one driver. *)
Definition finishing_prob (total_sims : Z) (entry : string * list Z)
  : result FinishingProb.t :=
  let '(driver_id, positions) := entry in
  let position_counter := Counter.of_list positions in
  most_common <-
    match Counter.most_common1 position_counter with
    | x :: _ => Ok x
    | [] => Raise IndexError
    end ;;
  let most_common_pos := fst most_common in
  probability <-
    truediv_rounded rnd (inject_Z (snd most_common)) (inject_Z total_sims) ;;
  position_distribution <- mapM (position_share total_sims) position_counter ;;
  Ok {| FinishingProb.driver_id := driver_id;
        FinishingProb.position := most_common_pos;
        FinishingProb.probability := probability;
        FinishingProb.position_distribution := position_distribution |}.

Definition _analyze_finishing_positions
    (simulation_results : list SimulationResult.t) : result (list FinishingProb.t) :=
  let driver_positions := collect_positions simulation_results in
  let total_sims := Z.of_nat (List.length simulation_results) in
  finishing_probs <- mapM (finishing_prob total_sims) driver_positions ;;
  Ok (Sorted.sorted (fun x => inject_Z (FinishingProb.position x)) finishing_probs).

End Aggregate.

(** The simulator as the module is written: [TireDegradationModel] is the
    class imported from [degradation]. *)
Definition _simulate_single_race (fpow : Q -> Q -> Q) :=
  _simulate_single_race_with fpow degradation.calculate_degradation.

(** *** The analyses of the finished simulations *)

Module PitRecommendations.
Record t : Type := {
  optimal_window_start : Z;
  optimal_window_end : Z;
  most_common : option Z;
  undercut_viable : bool;
  time_gain : option Q;
  undercut_time_gain : option Q;
  overcut_viable : option bool;
  overcut_time_gain : option Q;
  recommendation : option strategy_optimizer.Recommendation.t;
  pit_stops_per_driver : option Q
}.
End PitRecommendations.

(** The laps of all pit stops of all results, in the order of the loops. *)
Definition pit_laps (simulation_results : list SimulationResult.t) : list Z :=
  flat_map (fun result =>
              flat_map (fun '(_, pits) => map PitStop.lap pits)
                       (SimulationResult.pit_stops result))
           simulation_results.

Definition _analyze_pit_strategies
    (simulation_results : list SimulationResult.t) (drivers : list Driver.t)
    (driver_twins : Dict.t Twin.t) (current_lap total_laps : Z)
  : result PitRecommendations.t :=
  let pit_windows := pit_laps simulation_results in
  match pit_windows with
  | [] =>
      Ok {| PitRecommendations.optimal_window_start := 18;
            PitRecommendations.optimal_window_end := 22;
            PitRecommendations.most_common := None;
            PitRecommendations.undercut_viable := false;
            PitRecommendations.time_gain := Some 0.0;
            PitRecommendations.undercut_time_gain := None;
            PitRecommendations.overcut_viable := None;
            PitRecommendations.overcut_time_gain := None;
            PitRecommendations.recommendation := None;
            PitRecommendations.pit_stops_per_driver := None |}
  | _ =>
      most_common_pit <-
        match Counter.most_common1 (Counter.of_list pit_windows) with
        | x :: _ => Ok (fst x)
        | [] => Raise IndexError
        end ;;
      let optimal_start := Z.max 1 (most_common_pit - 2) in
      let optimal_end := (most_common_pit + 2)%Z in
      match drivers with
      | primary_driver :: _ =>
          let driver_id := Driver.id primary_driver in
          let degradation_rate :=
            match Dict.get driver_twins driver_id with
            | Some twin =>
                match Twin.degradation_profile twin with
                | Some profile => or_default (Twin.rate profile) 0.002
                | None => 0.002
                end
            | None => 0.002
            end in
          let strategy_result :=
            strategy_optimizer.optimize_pit_strategy
              driver_id current_lap total_laps
              (or_default (Driver.position primary_driver) 1%Z)
              (or_default (Driver.tire_age primary_driver) 10%Z)
              (or_default (Driver.tire_compound primary_driver) "MEDIUM"%string)
              degradation_rate 0.5 95.0
              (if (1 <? List.length drivers)%nat then Some 95.5 else None) in
          let undercut_analysis :=
            strategy_optimizer.Strategy.undercut_analysis strategy_result in
          let overcut_analysis :=
            strategy_optimizer.Strategy.overcut_analysis strategy_result in
          pit_stops_per_driver <-
            truediv (inject_Z (Z.of_nat (List.length pit_windows)))
                    (inject_Z (Z.of_nat (List.length simulation_results))) ;;
          Ok {| PitRecommendations.optimal_window_start := optimal_start;
                PitRecommendations.optimal_window_end := optimal_end;
                PitRecommendations.most_common := Some most_common_pit;
                PitRecommendations.undercut_viable :=
                  strategy_optimizer.Undercut.viable undercut_analysis;
                PitRecommendations.time_gain := None;
                PitRecommendations.undercut_time_gain :=
                  Some (strategy_optimizer.Undercut.time_gain undercut_analysis);
                PitRecommendations.overcut_viable :=
                  Some (strategy_optimizer.Overcut.viable overcut_analysis);
                PitRecommendations.overcut_time_gain :=
                  Some (strategy_optimizer.Overcut.time_gain overcut_analysis);
                PitRecommendations.recommendation :=
                  Some (strategy_optimizer.Strategy.recommendation strategy_result);
                PitRecommendations.pit_stops_per_driver := Some pit_stops_per_driver |}
      | [] =>
          pit_stops_per_driver <-
            truediv (inject_Z (Z.of_nat (List.length pit_windows)))
                    (inject_Z (Z.of_nat (List.length simulation_results))) ;;
          Ok {| PitRecommendations.optimal_window_start := optimal_start;
                PitRecommendations.optimal_window_end := optimal_end;
                PitRecommendations.most_common := Some most_common_pit;
                PitRecommendations.undercut_viable := false;
                PitRecommendations.time_gain := Some 0.0;
                PitRecommendations.undercut_time_gain := None;
                PitRecommendations.overcut_viable := None;
                PitRecommendations.overcut_time_gain := None;
                PitRecommendations.recommendation := None;
                PitRecommendations.pit_stops_per_driver := Some pit_stops_per_driver |}
      end
  end.

Module TrafficSimulation.
Record t : Type := {
  clear_window : bool;
  busy : bool;
  traffic_density : Q;
  average_traffic_penalty : Q;
  clear_window_probability : Q
}.
End TrafficSimulation.

(** All pit stops of all results, in the order of the loops. *)
Definition all_pit_stops (simulation_results : list SimulationResult.t)
  : list PitStop.t :=
  flat_map (fun result => flat_map snd (SimulationResult.pit_stops result))
           simulation_results.

Definition _simulate_traffic_scenarios
    (simulation_results : list SimulationResult.t) (drivers : list Driver.t)
  : TrafficSimulation.t :=
  let pits := all_pit_stops simulation_results in
  let traffic_penalties :=
    map (fun pit => pit_rejoin.traffic_loss_per_lap (PitStop.traffic_impact pit)) pits in
  let clear_windows :=
    map (fun pit => pit_rejoin.clear_window (PitStop.traffic_impact pit)) pits in
  let avg_traffic_penalty :=
    match traffic_penalties with [] => 0.2 | _ => mean traffic_penalties end in
  let clear_window_ratio :=
    match clear_windows with
    | [] => 0.5
    | _ =>
        inject_Z (Z.of_nat (List.length (filter (fun b => b) clear_windows)))
        / inject_Z (Z.of_nat (List.length clear_windows))
    end in
  let driver_list :=
    map (fun d =>
           {| traffic.id := Driver.id d;
              traffic.position := Some (or_default (Driver.position d) 1%Z);
              traffic.sector := Some "S2"%string |}) drivers in
  let current_traffic := traffic.calculate_traffic_density driver_list "S2" in
  {| TrafficSimulation.clear_window := Qlt_bool 0.6 clear_window_ratio;
     TrafficSimulation.busy := Qlt_bool 0.7 current_traffic;
     TrafficSimulation.traffic_density := current_traffic;
     TrafficSimulation.average_traffic_penalty := avg_traffic_penalty;
     TrafficSimulation.clear_window_probability := clear_window_ratio |}.

Module UndercutOutcomes.
Record t : Type := {
  viable : bool;
  time_gain : Q;
  confidence : string;
  success_rate : Q
}.
End UndercutOutcomes.

(** The body of the innermost loop: the gain a pit stop adds to
    [undercut_gains], if any. *)
Definition undercut_gain (pit : PitStop.t) : list Q :=
  if (PitStop.positions_lost pit <=? 1)%Z then
    let time_gain := PitStop.time_lost pit - 25.0 in
    if Qlt_bool time_gain 0 then [Qabs time_gain] else []
  else [].

Definition _analyze_undercut_outcomes
    (simulation_results : list SimulationResult.t) (drivers : list Driver.t)
    (driver_twins : Dict.t Twin.t) : UndercutOutcomes.t :=
  let undercut_gains := flat_map undercut_gain (all_pit_stops simulation_results) in
  let avg_undercut_gain :=
    match undercut_gains with [] => 0.0 | _ => mean undercut_gains end in
  let viable := Qlt_bool 1.0 avg_undercut_gain in
  {| UndercutOutcomes.viable := viable;
     UndercutOutcomes.time_gain := avg_undercut_gain;
     UndercutOutcomes.confidence :=
       if Qlt_bool 2.0 avg_undercut_gain then "high"
       else if Qlt_bool 1.0 avg_undercut_gain then "medium"
       else "low";
     UndercutOutcomes.success_rate :=
       match undercut_gains with
       | [] => 0.0
       | _ =>
           inject_Z (Z.of_nat (List.length undercut_gains))
           / inject_Z (Z.max (Z.of_nat (List.length simulation_results)) 1)
       end |}.

End race_twin.

(** ** NumPy scalars *)

Module Np.

(** A [np.float64]: a finite value, an infinity or [nan]. *)
Inductive npfloat : Type :=
| Finite (q : Q)
| Inf (positive : bool)
| NaN.

(** [x / y] on NumPy scalars: a zero divisor gives [nan] or an infinity
    (with a warning) rather than an exception.  The divisor zero is taken
    to be [+0.0]. *)
Definition div (x y : Q) : npfloat :=
  if Qeq_bool y 0 then
    if Qeq_bool x 0 then NaN else Inf (Qlt_bool 0 x)
  else Finite (x / y).

(** [x < y] in IEEE order: false as soon as a [nan] is involved. *)
Definition lt (x y : npfloat) : bool :=
  match x, y with
  | NaN, _ | _, NaN => false
  | Finite a, Finite b => Qlt_bool a b
  | Finite _, Inf p => p
  | Inf p, Finite _ => negb p
  | Inf p, Inf p' => negb p && p'
  end.

(** Builtin [min(a, b)] and [max(a, b)] when an argument is a NumPy scalar. *)
Definition min2 (a b : npfloat) : npfloat := if lt b a then b else a.
Definition max2 (a b : npfloat) : npfloat := if lt a b then b else a.

(** [x * m] for a finite factor [m]. *)
Definition scale (x : npfloat) (m : Q) : npfloat :=
  match x with
  | Finite q => Finite (q * m)
  | Inf p =>
      if Qeq_bool m 0 then NaN
      else Inf (if Qlt_bool 0 m then p else negb p)
  | NaN => NaN
  end.

(** [x + y] *)
Definition add (x y : npfloat) : npfloat :=
  match x, y with
  | NaN, _ | _, NaN => NaN
  | Finite a, Finite b => Finite (a + b)
  | Finite _, Inf p | Inf p, Finite _ => Inf p
  | Inf p, Inf p' => if Bool.eqb p p' then Inf p else NaN
  end.

(** [np.mean] of an array that may be empty: the mean of nothing is [nan]. *)
Definition mean_of (a : list Q) : npfloat :=
  match a with
  | [] => NaN
  | _ => Finite (mean a)
  end.

(** [np.clip(x, lo, hi)]: [nan] passes through. *)
Definition clip (x : npfloat) (lo hi : Q) : npfloat :=
  match x with
  | Finite q => Finite (Py.min2 (Py.max2 q lo) hi)
  | Inf true => Finite hi
  | Inf false => Finite lo
  | NaN => NaN
  end.

(** [lo <= x <= hi] *)
Definition between (x : npfloat) (lo hi : Q) : Prop :=
  match x with
  | Finite q => lo <= q <= hi
  | _ => False
  end.

(** [np.percentile(a, q)] with linear interpolation, on a non-empty array. *)
Definition percentile (a : list Q) (q : Q) : Q :=
  let s := Sorted.sorted (fun x => x) a in
  let index := inject_Z (Z.of_nat (List.length a) - 1) * q / 100 in
  let below := Qfloor index in
  let gamma := index - inject_Z below in
  let left := nth (Z.to_nat below) s 0 in
  let right := nth (Z.to_nat below + 1) s left in
  left + (right - left) * gamma.

(** [np.var]: the population variance. *)
Definition var (a : list Q) : Q :=
  let m := mean a in
  mean (map (fun x => (x - m) * (x - m)) a).

End Np.

(** ** grracing/driver_twin.py *)

Module driver_twin.

Inductive fit_type : Type := linear | exponential.

Record DegradationProfile : Type := {
  rate : Np.npfloat;
  exponent : option Q;
  base_pace : option Q;
  type : fit_type;
  compound : string;
  confidence : Q
}.

Record SectorStrengths : Type := {
  S1 : Q;
  S2 : Q;
  S3 : Q
}.

Record FatigueDropoff : Type := {
  factor : Q;
  fatigue_constant : option Q;
  critical_lap : Z;
  trend : string
}.

(** The twin (the timestamp is left out). *)
Module DriverTwin.
Record t : Type := {
  driver_id : string;
  pace_vector : Np.npfloat;
  consistency_index : Q;
  aggression_score : Np.npfloat;
  degradation_profile : DegradationProfile;
  sector_strengths : SectorStrengths;
  fatigue_dropoff : FatigueDropoff;
  lap_count : Z;
  confidence : Q;
  note : option string
}.
End DriverTwin.

(** One lap of [sector_times] and one sample of [telemetry_data]; a key
    that is absent is [None]. *)
Module SectorTimes.
Record t : Type := {
  S1 : option Q;
  S2 : option Q;
  S3 : option Q
}.
End SectorTimes.

Module Telemetry.
Record t : Type := {
  throttle : option Q;
  brake : option Q;
  speed : option Q;
  steering : option Q;
  g_force : option Q
}.
End Telemetry.

(** [[d[key] for d in ds if key in d]] *)
Fixpoint present {A V : Type} (key : A -> option V) (ds : list A) : list V :=
  match ds with
  | [] => []
  | d :: rest =>
      match key d with
      | Some v => v :: present key rest
      | None => present key rest
      end
  end.

(** [np.diff] *)
Fixpoint diff (a : list Q) : list Q :=
  match a with
  | x :: ((y :: _) as rest) => (y - x) :: diff rest
  | _ => []
  end.

(** [np.max] of a non-empty array. *)
Definition max_list (l : list Q) : Q :=
  match l with
  | [] => 0
  | x :: rest => fold_left Qmax rest x
  end.

(** The IQR bounds [Q1 - 1.5 IQR <= t <= Q3 + 1.5 IQR] applied to an array. *)
Definition within_iqr (a : list Q) : list Q :=
  let Q1 := Np.percentile a 25 in
  let Q3 := Np.percentile a 75 in
  let IQR := Q3 - Q1 in
  let lower_bound := Q1 - 1.5 * IQR in
  let upper_bound := Q3 + 1.5 * IQR in
  filter (fun t => Qle_bool lower_bound t && Qle_bool t upper_bound) a.

Definition _calculate_aggression_score (telemetry_data : list Telemetry.t) : Np.npfloat :=
  let throttle_values := present Telemetry.throttle telemetry_data in
  let brake_values := present Telemetry.brake telemetry_data in
  let speed_values := present Telemetry.speed telemetry_data in
  let steering_values := present Telemetry.steering telemetry_data in
  let g_force_values := present Telemetry.g_force telemetry_data in
  match throttle_values with
  | [] => Np.Finite 0.5
  | _ =>
      let throttle_factor :=
        if (1 <? List.length throttle_values)%nat then
          let throttle_diffs := diff throttle_values in
          let throttle_rate :=
            Np.mean_of (map Qabs (filter (fun d => Qlt_bool 0 d) throttle_diffs)) in
          Np.min2 (Np.scale throttle_rate 10) (Np.Finite 1.0)
        else Np.Finite 0.5 in
      let brake_factor :=
        match brake_values with
        | [] => 0.3
        | _ =>
            let brake_peaks := max_list brake_values in
            let brake_variance := Np.var brake_values in
            Py.min2 (brake_peaks * 0.5 + brake_variance * 5) 1.0
        end in
      let speed_factor :=
        if (1 <? List.length speed_values)%nat then
          let max_speed := max_list speed_values in
          let avg_speed := mean speed_values in
          let speed_variance := Np.var speed_values in
          if Qlt_bool 0 avg_speed then
            Py.min2 ((max_speed - avg_speed) / avg_speed * 0.5
                     + speed_variance / (avg_speed * avg_speed) * 10) 1.0
          else 0.0
        else 0.3 in
      let steering_factor :=
        if (1 <? List.length steering_values)%nat then
          let steering_variance := Np.var steering_values in
          Py.min2 (steering_variance * 20) 1.0
        else 0.2 in
      let g_factor :=
        match g_force_values with
        | [] => 0.2
        | _ =>
            let max_g := max_list (map Qabs g_force_values) in
            Py.min2 (max_g / 5.0) 1.0
        end in
      let aggression :=
        Np.add (Np.scale throttle_factor 0.25)
          (Np.Finite (brake_factor * 0.20
                      + speed_factor * 0.20
                      + steering_factor * 0.15
                      + g_factor * 0.20)) in
      Np.clip aggression 0.0 1.0
  end.

(** [robust_mean] of a non-empty list. *)
Definition robust_mean (values : list Q) : Q :=
  if (5 <=? List.length values)%nat then
    match within_iqr values with
    | [] => mean values
    | filtered => mean filtered
    end
  else mean values.

Definition unit_strengths : SectorStrengths := {| S1 := 1.0; S2 := 1.0; S3 := 1.0 |}.

(** [[s.get(key, 0) for s in sector_times if s.get(key, 0) > 0]] *)
Definition positive_times (key : SectorTimes.t -> option Q)
    (sector_times : list SectorTimes.t) : list Q :=
  filter (fun t => Qlt_bool 0 t)
         (map (fun s => match key s with Some t => t | None => 0 end) sector_times).

Definition _calculate_sector_strengths (sector_times : list SectorTimes.t)
  : SectorStrengths :=
  if (List.length sector_times <? 2)%nat then unit_strengths
  else
    let s1_times := positive_times SectorTimes.S1 sector_times in
    let s2_times := positive_times SectorTimes.S2 sector_times in
    let s3_times := positive_times SectorTimes.S3 sector_times in
    match s1_times, s2_times, s3_times with
    | _ :: _, _ :: _, _ :: _ =>
        let avg_s1 := robust_mean s1_times in
        let avg_s2 := robust_mean s2_times in
        let avg_s3 := robust_mean s3_times in
        let overall_avg := (avg_s1 + avg_s2 + avg_s3) / 3.0 in
        if Qeq_bool overall_avg 0 then unit_strengths
        else
          let calculate_strength sector_avg :=
            if Qeq_bool sector_avg 0 then 1.0
            else Py.min2 (Py.max2 (overall_avg / sector_avg) 0.8) 1.2 in
          {| S1 := calculate_strength avg_s1;
             S2 := calculate_strength avg_s2;
             S3 := calculate_strength avg_s3 |}
    | _, _, _ => unit_strengths
    end.

Definition min_laps_for_twin : nat := 5.

(** [min(lap_times)] of a non-empty list. *)
Definition min_list (l : list Q) : Q :=
  match l with
  | [] => 0
  | x :: rest => fold_left Py.min2 rest x
  end.

Definition _calculate_pace_vector (lap_times : list Q) : Np.npfloat :=
  if (List.length lap_times <? 2)%nat then Np.Finite 0
  else
    let best_lap := min_list lap_times in
    let avg_lap := mean lap_times in
    let pace_vector := Np.div (avg_lap - best_lap) best_lap in
    Np.clip pace_vector (-0.1) 0.1.

Definition _calculate_confidence (lap_count : Z) : Q :=
  if (lap_count <? 5)%Z then 0.5
  else if (lap_count <? 10)%Z then 0.7
  else if (lap_count <? 20)%Z then 0.85
  else 0.95.

Definition compound_multipliers : list (string * Q) :=
  [("SOFT", 1.5); ("MEDIUM", 1.0); ("HARD", 0.7)]%string.

(** [l[-n:]] *)
Definition last_n {A : Type} (n : nat) (l : list A) : list A :=
  skipn (List.length l - n) l.

Section Generator.

(** Square root, float exponentiation and natural logarithm of the
    platform. *)
Variable fsqrt : Q -> Q.
Variable fpow : Q -> Q -> Q.
Variable flog : Q -> Q.

(** Whether [scipy] could be imported, and what its [curve_fit] returns for
    the models fitted to [lap_times] (around [base_pace] for the two
    degradation models): the fitted parameters, or nothing when the call
    raises. *)
Variable SCIPY_AVAILABLE : bool.
Variable curve_fit_exponential : Q -> list Q -> option (Q * Q).
Variable curve_fit_linear : Q -> list Q -> option Q.
Variable curve_fit_fatigue : list Q -> option (Q * Q).

Definition std (a : list Q) : Q := fsqrt (Np.var a).

(** The IQR filter: the array and mean to go on with. *)
Definition remove_outliers (lap_times_array : list Q) (mean_lap : Q) : list Q * Q :=
  if (5 <=? List.length lap_times_array)%nat then
    let filtered_times := within_iqr lap_times_array in
    if (1 <? List.length filtered_times)%nat
    then (filtered_times, mean filtered_times)
    else (lap_times_array, mean_lap)
  else (lap_times_array, mean_lap).

Definition _calculate_consistency_index (lap_times : list Q) : Q :=
  if (List.length lap_times <? 2)%nat then 0.7
  else
    let lap_times_array := lap_times in
    let mean_lap := mean lap_times_array in
    if Qeq_bool mean_lap 0 then 0.7
    else
      let '(lap_times_array, mean_lap) := remove_outliers lap_times_array mean_lap in
      let std_dev := std lap_times_array in
      let coefficient_of_variation :=
        if Qlt_bool 0 mean_lap then std_dev / mean_lap else 0 in
      let consistency := 1 - coefficient_of_variation in
      Py.min2 (Py.max2 consistency 0) 1.

(** [exponential_model(laps, rate, exponent)] and the R-squared of the fit. *)
Definition r_squared (base_pace : Q) (lap_times : list Q) (rate exponent : Q) : Q :=
  let laps := map (fun i => inject_Z (Z.of_nat i)) (seq 1 (List.length lap_times)) in
  let predicted := map (fun lap => base_pace * (1 + rate * fpow lap exponent)) laps in
  let ss_res :=
    qsum (map (fun '(t, p) => (t - p) * (t - p)) (combine lap_times predicted)) in
  let m := mean lap_times in
  let ss_tot := qsum (map (fun t => (t - m) * (t - m)) lap_times) in
  if Qlt_bool 0 ss_tot then 1 - ss_res / ss_tot else 0.5.

(** The [except] branch: a finite-difference estimate, capped at once. *)
Definition fallback_rate (base_pace : Q) (lap_times : list Q) : Np.npfloat :=
  let n := inject_Z (Z.of_nat (List.length lap_times)) in
  let degradation_rate :=
    if (5 <=? List.length lap_times)%nat then
      let recent_laps := last_n 5 lap_times in
      let early_laps := firstn 5 lap_times in
      Np.div (mean recent_laps - mean early_laps) (base_pace * n)
    else
      Np.div (last lap_times 0 - hd 0 lap_times) (base_pace * n) in
  Np.max2 (Np.Finite 0) (Np.min2 degradation_rate (Np.Finite 0.01)).

(** The [try] statement: the rate, exponent, fit type and confidence it
    leaves behind. *)
Definition fit (base_pace : Q) (lap_times : list Q)
  : Np.npfloat * Q * fit_type * Q :=
  let failed := (fallback_rate base_pace lap_times, 1.0, linear, 0.5) in
  if SCIPY_AVAILABLE then
    if (5 <=? List.length lap_times)%nat then
      match curve_fit_exponential base_pace lap_times with
      | Some (degradation_rate, exponent) =>
          let r2 := r_squared base_pace lap_times degradation_rate exponent in
          let confidence := Py.max2 0.5 (Py.min2 r2 1.0) in
          (Np.Finite degradation_rate, exponent, exponential, confidence)
      | None => failed
      end
    else
      match curve_fit_linear base_pace lap_times with
      | Some degradation_rate => (Np.Finite degradation_rate, 1.0, linear, 0.5)
      | None => failed
      end
  else failed.

(** The two lines under "Normalize degradation rate". *)
Definition cap_rate (degradation_rate : Np.npfloat) : Np.npfloat :=
  let degradation_rate := Np.max2 (Np.Finite 0) degradation_rate in
  Np.min2 degradation_rate (Np.Finite 0.01).

Definition _calculate_degradation_profile
    (lap_times : list Q) (tire_compound : string) : DegradationProfile :=
  if (List.length lap_times <? 3)%nat then
    {| rate := Np.Finite 0.002;
       exponent := Some 1.0;
       base_pace := Some (match lap_times with [] => 95.0 | _ => mean lap_times end);
       type := linear;
       compound := tire_compound;
       confidence := 0.5 |}
  else
    let base_pace := mean (firstn (Nat.min 3 (List.length lap_times)) lap_times) in
    let '(degradation_rate, exponent, fit_type, confidence) := fit base_pace lap_times in
    let degradation_rate := cap_rate degradation_rate in
    let degradation_rate :=
      Np.scale degradation_rate (dict_get compound_multipliers tire_compound 1.0) in
    let confidence :=
      Py.max2 confidence
        (Py.min2 (inject_Z (Z.of_nat (List.length lap_times)) / 20) 1.0) in
    {| rate := degradation_rate;
       exponent := Some exponent;
       base_pace := Some base_pace;
       type := fit_type;
       compound := tire_compound;
       confidence := confidence |}.

(** The linear early/late comparison shared by the [else] and [except]
    branches of the fatigue fit. *)
Definition fatigue_trend (lap_times recent_laps early_laps : list Q) : Q :=
  let recent_avg := mean recent_laps in
  let early_avg := mean early_laps in
  if Qlt_bool 0 early_avg
  then (recent_avg - early_avg)
       / (early_avg * inject_Z (Z.of_nat (List.length lap_times)))
  else 0.02.

Definition _calculate_fatigue_dropoff (lap_times : list Q) (current_lap : Z)
  : FatigueDropoff :=
  if (List.length lap_times <? 5)%nat then
    {| factor := 0.02;
       fatigue_constant := Some 30.0;
       critical_lap := (current_lap + 25)%Z;
       trend := "stable" |}
  else
    let '(fatigue_factor, fatigue_constant) :=
      if SCIPY_AVAILABLE && (8 <=? List.length lap_times)%nat then
        match curve_fit_fatigue lap_times with
        | Some popt => popt
        | None =>
            (fatigue_trend lap_times (last_n 5 lap_times) (firstn 5 lap_times), 30.0)
        end
      else
        let n := Nat.min 5 (List.length lap_times) in
        (fatigue_trend lap_times (last_n n lap_times) (firstn n lap_times), 30.0) in
    let fatigue_factor := Py.max2 0.0 fatigue_factor in
    let fatigue_factor := Py.min2 fatigue_factor 0.05 in
    let fatigue_constant := Py.max2 10.0 (Py.min2 fatigue_constant 100.0) in
    let critical_lap :=
      if Qlt_bool 0.02 fatigue_factor then
        (current_lap
         + int (- fatigue_constant * flog (1.0 - 0.02 / fatigue_factor)))%Z
      else (current_lap + 30)%Z in
    let trend :=
      (if Qlt_bool fatigue_factor 0.01 then "improving"
       else if Qlt_bool fatigue_factor 0.02 then "stable"
       else if Qlt_bool fatigue_factor 0.035 then "degrading"
       else "critical")%string in
    {| factor := fatigue_factor;
       fatigue_constant := Some fatigue_constant;
       critical_lap := critical_lap;
       trend := trend |}.

Definition _generate_default_twin (driver_id : string) (current_lap : Z) : DriverTwin.t :=
  {| DriverTwin.driver_id := driver_id;
     DriverTwin.pace_vector := Np.Finite 0.0;
     DriverTwin.consistency_index := 0.7;
     DriverTwin.aggression_score := Np.Finite 0.5;
     DriverTwin.degradation_profile :=
       {| rate := Np.Finite 0.002;
          exponent := None;
          base_pace := None;
          type := linear;
          compound := "MEDIUM";
          confidence := 0.5 |};
     DriverTwin.sector_strengths := unit_strengths;
     DriverTwin.fatigue_dropoff :=
       {| factor := 0.02;
          fatigue_constant := None;
          critical_lap := (current_lap + 20)%Z;
          trend := "stable" |};
     DriverTwin.lap_count := 0;
     DriverTwin.confidence := 0.5;
     DriverTwin.note := Some "Insufficient data - using defaults"%string |}.

Definition generate_driver_twin
    (driver_id : string) (lap_times : list Q) (sector_times : list SectorTimes.t)
    (telemetry_data : option (list Telemetry.t))
    (tire_compound : string) (current_lap : Z) : DriverTwin.t :=
  if (List.length lap_times <? min_laps_for_twin)%nat then
    _generate_default_twin driver_id current_lap
  else
    let pace_vector := _calculate_pace_vector lap_times in
    let consistency_index := _calculate_consistency_index lap_times in
    let aggression_score :=
      match telemetry_data with
      | None | Some [] => Np.Finite 0.5
      | Some telemetry_data => _calculate_aggression_score telemetry_data
      end in
    let degradation_profile := _calculate_degradation_profile lap_times tire_compound in
    let sector_strengths := _calculate_sector_strengths sector_times in
    let fatigue_dropoff := _calculate_fatigue_dropoff lap_times current_lap in
    {| DriverTwin.driver_id := driver_id;
       DriverTwin.pace_vector := pace_vector;
       DriverTwin.consistency_index := consistency_index;
       DriverTwin.aggression_score := aggression_score;
       DriverTwin.degradation_profile := degradation_profile;
       DriverTwin.sector_strengths := sector_strengths;
       DriverTwin.fatigue_dropoff := fatigue_dropoff;
       DriverTwin.lap_count := Z.of_nat (List.length lap_times);
       DriverTwin.confidence :=
         _calculate_confidence (Z.of_nat (List.length lap_times));
       DriverTwin.note := None |}.

End Generator.

End driver_twin.

(** ** grracing/pit_decision_engine.py *)

Module pit_decision_engine.

(** *** Optional inputs.  [None] stands for an omitted or empty value. *)

Module RaceTwin.
Record OptimalWindow : Type := {
  start : option Z;
  end_ : option Z
}.
Record PitRecommendations : Type := {
  optimal_window : option OptimalWindow
}.
Record UndercutOutcomes : Type := {
  viable : option bool;
  time_gain : option Q
}.
Record TireCliff : Type := {
  critical : option bool;
  lap : option Z
}.
Record TrafficSimulation : Type := {
  clear_window : option bool
}.
Record t : Type := {
  pit_recommendations : option PitRecommendations;
  undercut_outcomes : option UndercutOutcomes;
  tire_cliff_prediction : option TireCliff;
  traffic_simulation : option TrafficSimulation
}.
End RaceTwin.

Module DriverTwin.
Record DegradationProfile : Type := {
  rate : option Q
}.
Record t : Type := {
  degradation_profile : option DegradationProfile
}.
End DriverTwin.

Module Opponent.
Record t : Type := {
  id : option string;
  gap : option Q;
  tire_age : option Z;
  just_pitted : option bool
}.
(** An opponent given as an empty dictionary. *)
Definition is_empty (o : t) : bool :=
  match id o, gap o, tire_age o, just_pitted o with
  | None, None, None, None => true
  | _, _, _, _ => false
  end.
End Opponent.

Module WeatherData.
Record t : Type := {
  condition : option string;
  track_temp : option Q
}.
End WeatherData.

(** *** Factors *)

Module Prediction.
Record t : Type := {
  lap : Z;
  degradation : Q;
  pace_loss : Q
}.
End Prediction.

Module DegradationFactor.
Record t : Type := {
  weight : Q;
  score : Q;
  urgency : string;
  current_degradation : Q;
  degradation_rate : Q;
  tire_age : Z;
  predicted_degradation : list Prediction.t;
  critical_lap : option Z
}.
End DegradationFactor.

Module Window.
Record t : Type := {
  lap : Z;
  predicted_density : Q;
  clear : bool
}.
End Window.

Module TrafficFactor.
Record t : Type := {
  weight : Q;
  score : Q;
  traffic_level : string;
  traffic_density : Q;
  cars_ahead : Z;
  clear_window_now : bool;
  traffic_window : list Window.t;
  best_window_lap : option Z
}.
End TrafficFactor.

Module Insights.
Record t : Type := {
  optimal_window : option bool;
  window : option (Z * Z);
  laps_to_window : option Z;
  past_window : option bool;
  undercut_viable : option bool;
  undercut_gain : option Q;
  tire_cliff_imminent : option bool;
  cliff_lap : option Z;
  clear_window : option bool
}.
Definition empty : t :=
  {| optimal_window := None; window := None; laps_to_window := None;
     past_window := None; undercut_viable := None; undercut_gain := None;
     tire_cliff_imminent := None; cliff_lap := None; clear_window := None |}.
(** A dictionary is true when it has a key. *)
Definition nonempty (i : t) : bool :=
  match optimal_window i, window i, laps_to_window i, past_window i,
        undercut_viable i, undercut_gain i, tire_cliff_imminent i,
        cliff_lap i, clear_window i with
  | None, None, None, None, None, None, None, None, None => false
  | _, _, _, _, _, _, _, _, _ => true
  end.
End Insights.

(** The race-twin, opponent and weather factors: the common keys, and the
    insights of the race-twin factor. *)
Module Factor.
Record t : Type := {
  weight : Q;
  score : Q;
  available : bool;
  insights : option Insights.t
}.
End Factor.

(** *** Result *)

Inductive reason : Type :=
| CriticalDegradation (current_degradation : Q)
| TireAgeExceedsThreshold (tire_age : Z)
| HighConfidence (confidence_score : Q)
| TrafficConditions (traffic_level : string)
| DegradationUrgency (urgency : string)
| ModerateConfidence (confidence_score : Q)
| RecommendedLap (lap : Z)
| TrafficWindow (best_window_lap : option Z)
| LowConfidence (confidence_score : Q)
| TiresStillViable (tire_age : Z)
| BetterWindowLater
| UndercutOpportunity (gain : Q)
| TireCliffImminent (cliff_lap : option Z).

Module Decision.
Record t : Type := {
  decision : string;
  recommended_lap : option Z;
  reasoning : list reason
}.
End Decision.

Module Contribution.
Record t : Type := {
  score : Q;
  weight : Q;
  weighted_contribution : Q
}.
End Contribution.

Module FactorBreakdown.
Record t : Type := {
  degradation : Contribution.t;
  degradation_urgency : string;
  degradation_current : Q;
  traffic : Contribution.t;
  traffic_level : string;
  traffic_clear_window : bool;
  traffic_best_window_lap : option Z;
  race_twin : Contribution.t;
  race_twin_available : bool;
  race_twin_insights : Insights.t;
  opponent : Contribution.t;
  opponent_available : bool;
  weather : Contribution.t;
  weather_available : bool;
  overall_confidence : Q;
  confidence_level : string
}.
End FactorBreakdown.

Module PitDecision.
Record t : Type := {
  driver_id : string;
  current_lap : Z;
  decision : string;
  confidence : Q;
  confidence_level : string;
  factor_breakdown : FactorBreakdown.t;
  reasoning : list reason;
  recommended_lap : option Z;
  race_twin_integration : Insights.t
}.
End PitDecision.

Definition or_default {A : Type} (o : option A) (default : A) : A :=
  match o with Some a => a | None => default end.

Definition range_1_6 : list Z := [1; 2; 3; 4; 5]%Z.

(** *** The engine *)

Definition _find_critical_lap (predicted_degradation : list Prediction.t) (threshold : Q)
  : option Z :=
  option_map Prediction.lap
    (find (fun pred => Qle_bool threshold (Prediction.degradation pred))
          predicted_degradation).

Definition _confidence_level (score : Q) : string :=
  if Qle_bool 0.8 score then "high"
  else if Qle_bool 0.6 score then "medium-high"
  else if Qle_bool 0.4 score then "medium"
  else if Qle_bool 0.2 score then "low-medium"
  else "low".

(** The part of [_analyze_degradation_factor] that follows the calls to the
    degradation model: urgency, score and the factor record. *)
Definition degradation_factor_of
    (current_degradation : Q) (predicted_degradation : list Prediction.t)
    (tire_age : Z) (degradation_rate : Q) (driver_twin : option DriverTwin.t)
  : DegradationFactor.t :=
  let critical_threshold := 0.05 in
  let warning_threshold := 0.03 in
  let '(urgency, score) :=
    if Qle_bool critical_threshold current_degradation then ("critical"%string, 0.9)
    else if Qle_bool warning_threshold current_degradation then ("high"%string, 0.7)
    else if existsb (fun p => Qle_bool critical_threshold (Prediction.degradation p))
                    (firstn 3 predicted_degradation)
         then ("medium"%string, 0.5)
    else ("low"%string, 0.2) in
  let score :=
    match driver_twin with
    | Some twin =>
        match DriverTwin.degradation_profile twin with
        | Some profile =>
            if Qlt_bool degradation_rate (or_default (DriverTwin.rate profile) 0)
            then min2 1.0 (score + 0.1)
            else score
        | None => score
        end
    | None => score
    end in
  {| DegradationFactor.weight := 0.35;
     DegradationFactor.score := score;
     DegradationFactor.urgency := urgency;
     DegradationFactor.current_degradation := current_degradation;
     DegradationFactor.degradation_rate := degradation_rate;
     DegradationFactor.tire_age := tire_age;
     DegradationFactor.predicted_degradation := predicted_degradation;
     DegradationFactor.critical_lap :=
       _find_critical_lap predicted_degradation critical_threshold |}.

Section Engine.

(** The slot [calculate_degradation] of the class bound to the imported
    name [TireDegradationModel]. *)
Variable calculate_degradation_slot : option (Z -> string -> option Q -> Q).

Definition _analyze_degradation_factor
    (tire_age : Z) (tire_compound : string) (degradation_rate : Q)
    (current_lap total_laps : Z) (driver_twin : option DriverTwin.t)
  : result DegradationFactor.t :=
  let degradation_model := degradation.__init__ (Some tire_compound) None in
  method <- degradation.getattr "calculate_degradation" calculate_degradation_slot ;;
  let current_degradation := method tire_age tire_compound None in
  predicted_degradation <-
    mapM (fun lap_offset =>
            let future_age := (tire_age + lap_offset)%Z in
            method <- degradation.getattr "calculate_degradation"
                        calculate_degradation_slot ;;
            let future_degradation := method future_age tire_compound None in
            Ok {| Prediction.lap := (current_lap + lap_offset)%Z;
                  Prediction.degradation := future_degradation;
                  Prediction.pace_loss := future_degradation * 0.5 |})
         range_1_6 ;;
  Ok (degradation_factor_of current_degradation predicted_degradation
        tire_age degradation_rate driver_twin).

(** [min(traffic_window, key=...)]: the first window of least density. *)
Definition best_window (traffic_window : list Window.t) : option Window.t :=
  match traffic_window with
  | [] => None
  | w :: rest =>
      Some (fold_left
              (fun best w' =>
                 if Qlt_bool (Window.predicted_density w') (Window.predicted_density best)
                 then w' else best)
              rest w)
  end.

Definition _analyze_traffic_factor
    (current_position : Z) (traffic_density : Q) (current_lap total_laps : Z)
    (driver_id : string) : result TrafficFactor.t :=
  let cars_ahead := Z.max 0 (current_position - 1) in
  let '(traffic_level, clear_window, score) :=
    if Qle_bool 0.7 traffic_density then ("heavy"%string, false, 0.3)
    else if Qle_bool 0.4 traffic_density then ("moderate"%string, false, 0.5)
    else ("light"%string, true, 0.8) in
  traffic_window <-
    mapM (fun lap_offset =>
            progress <- truediv (inject_Z (current_lap + lap_offset)) (inject_Z total_laps) ;;
            let predicted_density := traffic_density * (1.0 - progress * 0.2) in
            Ok {| Window.lap := (current_lap + lap_offset)%Z;
                  Window.predicted_density := max2 0 (min2 1 predicted_density);
                  Window.clear := Qlt_bool predicted_density 0.4 |})
         range_1_6 ;;
  best <- match best_window traffic_window with
          | Some w => Ok w
          | None => Raise (ValueError "min() arg is an empty sequence")
          end ;;
  Ok {| TrafficFactor.weight := 0.25;
        TrafficFactor.score := score;
        TrafficFactor.traffic_level := traffic_level;
        TrafficFactor.traffic_density := traffic_density;
        TrafficFactor.cars_ahead := cars_ahead;
        TrafficFactor.clear_window_now := clear_window;
        TrafficFactor.traffic_window := traffic_window;
        TrafficFactor.best_window_lap :=
          if Window.clear best then Some (Window.lap best) else None |}.

(** The neutral factor returned when an optional input is missing. *)
Definition neutral (weight : Q) : Factor.t :=
  {| Factor.weight := weight; Factor.score := 0.5;
     Factor.available := false; Factor.insights := None |}.

Definition _analyze_race_twin_factor
    (race_twin : option RaceTwin.t) (driver_id : string) (current_lap total_laps : Z)
  : Factor.t :=
  match race_twin with
  | None => neutral 0.20
  | Some race_twin =>
      let insights := Insights.empty in
      let score := 0.5 in
      (* pit recommendations *)
      let '(score, insights) :=
        match RaceTwin.pit_recommendations race_twin with
        | Some pit_recommendations =>
            let optimal_window := RaceTwin.optimal_window pit_recommendations in
            let window_start :=
              match optimal_window with
              | Some w => or_default (RaceTwin.start w) current_lap
              | None => current_lap
              end in
            let window_end :=
              match optimal_window with
              | Some w => or_default (RaceTwin.end_ w) (current_lap + 10)%Z
              | None => (current_lap + 10)%Z
              end in
            if (window_start <=? current_lap)%Z && (current_lap <=? window_end)%Z then
              (0.8,
               {| Insights.optimal_window := Some true;
                  Insights.window := Some (window_start, window_end);
                  Insights.laps_to_window := None; Insights.past_window := None;
                  Insights.undercut_viable := None; Insights.undercut_gain := None;
                  Insights.tire_cliff_imminent := None; Insights.cliff_lap := None;
                  Insights.clear_window := None |})
            else if (current_lap <? window_start)%Z then
              (0.4,
               {| Insights.optimal_window := Some false;
                  Insights.window := None;
                  Insights.laps_to_window := Some (window_start - current_lap)%Z;
                  Insights.past_window := None;
                  Insights.undercut_viable := None; Insights.undercut_gain := None;
                  Insights.tire_cliff_imminent := None; Insights.cliff_lap := None;
                  Insights.clear_window := None |})
            else
              (0.3,
               {| Insights.optimal_window := Some false;
                  Insights.window := None;
                  Insights.laps_to_window := None;
                  Insights.past_window := Some true;
                  Insights.undercut_viable := None; Insights.undercut_gain := None;
                  Insights.tire_cliff_imminent := None; Insights.cliff_lap := None;
                  Insights.clear_window := None |})
        | None => (score, insights)
        end in
      (* undercut opportunities *)
      let '(score, insights) :=
        let undercut_outcomes := RaceTwin.undercut_outcomes race_twin in
        let viable :=
          match undercut_outcomes with
          | Some u => or_default (RaceTwin.viable u) false
          | None => false
          end in
        if viable then
          let time_gain :=
            match undercut_outcomes with
            | Some u => or_default (RaceTwin.time_gain u) 0
            | None => 0
            end in
          let with_undercut :=
            {| Insights.optimal_window := Insights.optimal_window insights;
               Insights.window := Insights.window insights;
               Insights.laps_to_window := Insights.laps_to_window insights;
               Insights.past_window := Insights.past_window insights;
               Insights.undercut_viable := Some true;
               Insights.undercut_gain := Some time_gain;
               Insights.tire_cliff_imminent := Insights.tire_cliff_imminent insights;
               Insights.cliff_lap := Insights.cliff_lap insights;
               Insights.clear_window := Insights.clear_window insights |} in
          if Qlt_bool 2.0 time_gain then (0.9, with_undercut)
          else if Qlt_bool 1.0 time_gain then (0.7, with_undercut)
          else (score, insights)
        else (score, insights) in
      (* tire cliff *)
      let '(score, insights) :=
        let tire_cliff := RaceTwin.tire_cliff_prediction race_twin in
        let critical :=
          match tire_cliff with
          | Some c => or_default (RaceTwin.critical c) false
          | None => false
          end in
        if critical then
          let cliff_lap :=
            match tire_cliff with
            | Some c => or_default (RaceTwin.lap c) (current_lap + 20)%Z
            | None => (current_lap + 20)%Z
            end in
          let laps_to_cliff := (cliff_lap - current_lap)%Z in
          if (laps_to_cliff <=? 3)%Z then
            (max2 score 0.9,
             {| Insights.optimal_window := Insights.optimal_window insights;
                Insights.window := Insights.window insights;
                Insights.laps_to_window := Insights.laps_to_window insights;
                Insights.past_window := Insights.past_window insights;
                Insights.undercut_viable := Insights.undercut_viable insights;
                Insights.undercut_gain := Insights.undercut_gain insights;
                Insights.tire_cliff_imminent := Some true;
                Insights.cliff_lap := Some cliff_lap;
                Insights.clear_window := Insights.clear_window insights |})
          else (score, insights)
        else (score, insights) in
      (* traffic simulation *)
      let '(score, insights) :=
        let clear_window :=
          match RaceTwin.traffic_simulation race_twin with
          | Some t => or_default (RaceTwin.clear_window t) false
          | None => false
          end in
        if clear_window then
          (min2 1.0 (score + 0.1),
           {| Insights.optimal_window := Insights.optimal_window insights;
              Insights.window := Insights.window insights;
              Insights.laps_to_window := Insights.laps_to_window insights;
              Insights.past_window := Insights.past_window insights;
              Insights.undercut_viable := Insights.undercut_viable insights;
              Insights.undercut_gain := Insights.undercut_gain insights;
              Insights.tire_cliff_imminent := Insights.tire_cliff_imminent insights;
              Insights.cliff_lap := Insights.cliff_lap insights;
              Insights.clear_window := Some true |})
        else (score, insights) in
      {| Factor.weight := 0.20; Factor.score := score;
         Factor.available := true; Factor.insights := Some insights |}
  end.

(** The loop that finds the opponent of least absolute gap; [None] is the
    initial [min_gap = inf]. *)
Definition closest_opponent (opponent_data : list Opponent.t) : option Opponent.t :=
  option_map snd
    (fold_left
       (fun best opponent =>
          let gap := Qabs (or_default (Opponent.gap opponent) 0) in
          match best with
          | None => Some (gap, opponent)
          | Some (min_gap, _) =>
              if Qlt_bool gap min_gap then Some (gap, opponent) else best
          end)
       opponent_data None).

Definition _analyze_opponent_factor
    (opponent_data : option (list Opponent.t)) (current_lap tire_age : Z)
    (driver_id : string) : Factor.t :=
  match opponent_data with
  | None | Some [] => neutral 0.10
  | Some opponent_data =>
      match closest_opponent opponent_data with
      | None => neutral 0.10
      | Some closest =>
          if Opponent.is_empty closest then neutral 0.10
          else
            let opponent_tire_age := or_default (Opponent.tire_age closest) tire_age in
            let tire_age_delta := (tire_age - opponent_tire_age)%Z in
            let score :=
              if (tire_age_delta <? -5)%Z then 0.3
              else if (5 <? tire_age_delta)%Z then 0.8
              else 0.5 in
            let score :=
              if or_default (Opponent.just_pitted closest) false then 0.7 else score in
            {| Factor.weight := 0.10; Factor.score := score;
               Factor.available := true; Factor.insights := None |}
      end
  end.

Definition _analyze_weather_factor
    (weather_data : option WeatherData.t) (tire_compound : string) : Factor.t :=
  match weather_data with
  | None => neutral 0.10
  | Some weather_data =>
      let score := 0.5 in
      let condition := lower (or_default (WeatherData.condition weather_data) "dry"%string) in
      let score :=
        if contains "rain" condition || contains "wet" condition then 0.4
        else if String.eqb condition "dry" then 0.5
        else score in
      let track_temp := or_default (WeatherData.track_temp weather_data) 25.0 in
      let score :=
        if Qlt_bool 35 track_temp then min2 1.0 (score + 0.2)
        else if Qlt_bool track_temp 15 then max2 0.0 (score - 0.1)
        else score in
      {| Factor.weight := 0.10; Factor.score := score;
         Factor.available := true; Factor.insights := None |}
  end.

Definition count_true (flags : list bool) : Z :=
  Z.of_nat (List.length (filter (fun b => b) flags)).

Definition _calculate_confidence_score
    (degradation_factor : DegradationFactor.t) (traffic_factor : TrafficFactor.t)
    (race_twin_factor opponent_factor weather_factor : Factor.t) : Q :=
  let total_score :=
    DegradationFactor.score degradation_factor * DegradationFactor.weight degradation_factor
    + TrafficFactor.score traffic_factor * TrafficFactor.weight traffic_factor
    + Factor.score race_twin_factor * Factor.weight race_twin_factor
    + Factor.score opponent_factor * Factor.weight opponent_factor
    + Factor.score weather_factor * Factor.weight weather_factor in
  let available_factors :=
    count_true [true; true;
                Factor.available race_twin_factor;
                Factor.available opponent_factor;
                Factor.available weather_factor] in
  let availability_multiplier := 0.7 + (inject_Z available_factors / 5.0) * 0.3 in
  let confidence := total_score * availability_multiplier in
  max2 0.0 (min2 1.0 confidence).

Definition _make_decision
    (degradation_factor : DegradationFactor.t) (traffic_factor : TrafficFactor.t)
    (race_twin_factor opponent_factor weather_factor : Factor.t)
    (confidence_score : Q) (current_lap total_laps tire_age : Z) : Decision.t :=
  let pit_now_threshold := 0.75 in
  let pit_later_threshold := 0.55 in
  let '(decision, recommended_lap, reasoning) :=
    if String.eqb (DegradationFactor.urgency degradation_factor) "critical" then
      ("PIT_NOW"%string, Some current_lap,
       [CriticalDegradation (DegradationFactor.current_degradation degradation_factor);
        TireAgeExceedsThreshold tire_age])
    else if Qle_bool pit_now_threshold confidence_score then
      ("PIT_NOW"%string, Some current_lap,
       [HighConfidence confidence_score;
        TrafficConditions (TrafficFactor.traffic_level traffic_factor);
        DegradationUrgency (DegradationFactor.urgency degradation_factor)])
    else if Qle_bool pit_later_threshold confidence_score then
      let best_traffic_lap := TrafficFactor.best_window_lap traffic_factor in
      let recommended_lap :=
        match best_traffic_lap with
        | Some l =>
            if negb (l =? 0)%Z && (l <=? current_lap + 5)%Z then l
            else (current_lap + 2)%Z
        | None => (current_lap + 2)%Z
        end in
      ("PIT_LATER"%string, Some recommended_lap,
       [ModerateConfidence confidence_score;
        RecommendedLap recommended_lap;
        TrafficWindow best_traffic_lap])
    else
      ("EXTEND_STINT"%string, None,
       [LowConfidence confidence_score; TiresStillViable tire_age; BetterWindowLater]) in
  let reasoning :=
    match Factor.insights race_twin_factor with
    | Some insights =>
        if Factor.available race_twin_factor && Insights.nonempty insights then
          reasoning
          ++ (if or_default (Insights.undercut_viable insights) false
              then [UndercutOpportunity (or_default (Insights.undercut_gain insights) 0)]
              else [])
          ++ (if or_default (Insights.tire_cliff_imminent insights) false
              then [TireCliffImminent (Insights.cliff_lap insights)]
              else [])
        else reasoning
    | None => reasoning
    end in
  {| Decision.decision := decision;
     Decision.recommended_lap := recommended_lap;
     Decision.reasoning := reasoning |}.

Definition contribution (score weight : Q) : Contribution.t :=
  {| Contribution.score := score; Contribution.weight := weight;
     Contribution.weighted_contribution := score * weight |}.

Definition _generate_factor_breakdown
    (degradation_factor : DegradationFactor.t) (traffic_factor : TrafficFactor.t)
    (race_twin_factor opponent_factor weather_factor : Factor.t)
    (confidence_score : Q) : FactorBreakdown.t :=
  {| FactorBreakdown.degradation :=
       contribution (DegradationFactor.score degradation_factor)
                    (DegradationFactor.weight degradation_factor);
     FactorBreakdown.degradation_urgency := DegradationFactor.urgency degradation_factor;
     FactorBreakdown.degradation_current :=
       DegradationFactor.current_degradation degradation_factor;
     FactorBreakdown.traffic :=
       contribution (TrafficFactor.score traffic_factor)
                    (TrafficFactor.weight traffic_factor);
     FactorBreakdown.traffic_level := TrafficFactor.traffic_level traffic_factor;
     FactorBreakdown.traffic_clear_window := TrafficFactor.clear_window_now traffic_factor;
     FactorBreakdown.traffic_best_window_lap := TrafficFactor.best_window_lap traffic_factor;
     FactorBreakdown.race_twin :=
       contribution (Factor.score race_twin_factor) (Factor.weight race_twin_factor);
     FactorBreakdown.race_twin_available := Factor.available race_twin_factor;
     FactorBreakdown.race_twin_insights :=
       or_default (Factor.insights race_twin_factor) Insights.empty;
     FactorBreakdown.opponent :=
       contribution (Factor.score opponent_factor) (Factor.weight opponent_factor);
     FactorBreakdown.opponent_available := Factor.available opponent_factor;
     FactorBreakdown.weather :=
       contribution (Factor.score weather_factor) (Factor.weight weather_factor);
     FactorBreakdown.weather_available := Factor.available weather_factor;
     FactorBreakdown.overall_confidence := confidence_score;
     FactorBreakdown.confidence_level := _confidence_level confidence_score |}.

Definition make_pit_decision_with
    (driver_id : string) (current_lap total_laps tire_age : Z) (tire_compound : string)
    (current_position : Z) (degradation_rate traffic_density : Q)
    (race_twin : option RaceTwin.t) (driver_twin : option DriverTwin.t)
    (opponent_data : option (list Opponent.t)) (weather_data : option WeatherData.t)
  : result PitDecision.t :=
  degradation_factor <-
    _analyze_degradation_factor tire_age tire_compound degradation_rate
      current_lap total_laps driver_twin ;;
  traffic_factor <-
    _analyze_traffic_factor current_position traffic_density current_lap total_laps
      driver_id ;;
  let race_twin_factor :=
    _analyze_race_twin_factor race_twin driver_id current_lap total_laps in
  let opponent_factor :=
    _analyze_opponent_factor opponent_data current_lap tire_age driver_id in
  let weather_factor := _analyze_weather_factor weather_data tire_compound in
  let confidence_score :=
    _calculate_confidence_score degradation_factor traffic_factor
      race_twin_factor opponent_factor weather_factor in
  let decision_result :=
    _make_decision degradation_factor traffic_factor race_twin_factor
      opponent_factor weather_factor confidence_score current_lap total_laps tire_age in
  let factor_breakdown :=
    _generate_factor_breakdown degradation_factor traffic_factor race_twin_factor
      opponent_factor weather_factor confidence_score in
  Ok {| PitDecision.driver_id := driver_id;
        PitDecision.current_lap := current_lap;
        PitDecision.decision := Decision.decision decision_result;
        PitDecision.confidence := confidence_score;
        PitDecision.confidence_level := _confidence_level confidence_score;
        PitDecision.factor_breakdown := factor_breakdown;
        PitDecision.reasoning := Decision.reasoning decision_result;
        PitDecision.recommended_lap := Decision.recommended_lap decision_result;
        PitDecision.race_twin_integration :=
          or_default (Factor.insights race_twin_factor) Insights.empty |}.

End Engine.

(** The engine as the module is written: [TireDegradationModel] is the
    class imported from [degradation]. *)
Definition make_pit_decision :=
  make_pit_decision_with degradation.calculate_degradation.

End pit_decision_engine.

(* ===================================================================== *)
(** * Part II. Verification                                               *)
(* ===================================================================== *)

(** ** Builtins *)

Lemma Qlt_bool_true (x y : Q) : Qlt_bool x y = true <-> x < y.
Proof.
  unfold Qlt_bool. rewrite negb_true_iff.
  destruct (Qle_bool y x) eqn:E.
  - apply Qle_bool_iff in E. split; [discriminate | intro; lra].
  - split; [intros _ | reflexivity].
    apply Qnot_le_lt. intro H. apply Qle_bool_iff in H. congruence.
Qed.

Lemma Qlt_bool_false (x y : Q) : Qlt_bool x y = false <-> y <= x.
Proof.
  unfold Qlt_bool. rewrite negb_false_iff. apply Qle_bool_iff.
Qed.

Lemma min2_Qmin (a b : Q) : min2 a b == Qmin a b.
Proof.
  unfold min2. destruct (Qlt_bool b a) eqn:E.
  - apply Qlt_bool_true in E. symmetry. apply Q.min_r. lra.
  - apply Qlt_bool_false in E. symmetry. apply Q.min_l. lra.
Qed.

Lemma max2_Qmax (a b : Q) : max2 a b == Qmax a b.
Proof.
  unfold max2. destruct (Qlt_bool a b) eqn:E.
  - apply Qlt_bool_true in E. symmetry. apply Q.max_r. lra.
  - apply Qlt_bool_false in E. symmetry. apply Q.max_l. lra.
Qed.

Lemma min2_cases (a b : Q) :
  (min2 a b = a /\ a <= b) \/ (min2 a b = b /\ b < a).
Proof.
  unfold min2. destruct (Qlt_bool b a) eqn:E.
  - right. split; [reflexivity | now apply Qlt_bool_true].
  - left. split; [reflexivity | now apply Qlt_bool_false].
Qed.

Lemma max2_cases (a b : Q) :
  (max2 a b = a /\ b <= a) \/ (max2 a b = b /\ a < b).
Proof.
  unfold max2. destruct (Qlt_bool a b) eqn:E.
  - right. split; [reflexivity | now apply Qlt_bool_true].
  - left. split; [reflexivity | now apply Qlt_bool_false].
Qed.

(** Clamping with [max(lo, min(hi, x))] lands between the bounds. *)
Lemma max_min_bounds (lo hi x : Q) : lo <= hi -> lo <= max2 lo (min2 hi x) <= hi.
Proof.
  intro Hb.
  destruct (max2_cases lo (min2 hi x)) as [[-> H] | [-> H]];
    destruct (min2_cases hi x) as [[E H'] | [E H']]; rewrite ?E in *; lra.
Qed.

Lemma clamp01_bounds (x : Q) : 0 <= max2 0 (min2 1 x) <= 1.
Proof. apply max_min_bounds. lra. Qed.

Lemma truediv_nonzero (x y : Q) : ~ y == 0 -> truediv x y = Ok (x / y).
Proof.
  intro H. unfold truediv. destruct (Qeq_bool y 0) eqn:E; [| reflexivity].
  apply Qeq_bool_iff in E. contradiction.
Qed.

Lemma clamp01_clip (x y : Q) :
  x == y -> max2 0 (min2 1 x) == overtake_spec.clip y 0 1.
Proof.
  intro E. unfold overtake_spec.clip.
  destruct (Q.max_spec y 0) as [[H1 E1] | [H1 E1]];
  destruct (Q.min_spec (Qmax y 0) 1) as [[H2 E2] | [H2 E2]];
  rewrite E2; rewrite E1 in *;
  destruct (max2_cases 0 (min2 1 x)) as [[-> H3] | [-> H3]];
  destruct (min2_cases 1 x) as [[E4 H4] | [E4 H4]]; rewrite ?E4 in *; lra.
Qed.

(** ** Float arithmetic *)

Lemma float_sized_small (n : Z) : (Z.abs n <= 1000000)%Z -> float_sized n.
Proof.
  intro H. unfold float_sized. eapply Z.le_trans; [exact H |].
  apply Z.leb_le. vm_compute. reflexivity.
Qed.

(** *** The rounding of binary64 *)

Lemma round_half_even_cases (x : Q) :
  (round_half_even x = Qfloor x /\ x - inject_Z (Qfloor x) <= 1 # 2)
  \/ (round_half_even x = (Qfloor x + 1)%Z /\ 1 # 2 <= x - inject_Z (Qfloor x)).
Proof.
  unfold round_half_even.
  destruct (Qcompare_spec (x - inject_Z (Qfloor x)) (1 # 2)) as [E | E | E].
  - destruct (Z.even (Qfloor x)); [left | right]; (split; [reflexivity | lra]).
  - left. split; [reflexivity | lra].
  - right. split; [reflexivity | lra].
Qed.

Lemma round_half_even_error (x : Q) :
  Qabs (inject_Z (round_half_even x) - x) <= 1 # 2.
Proof.
  pose proof (Qfloor_le x) as H1. pose proof (Qlt_floor x) as H2.
  rewrite inject_Z_plus in H2. change (inject_Z 1) with 1 in H2.
  apply Qabs_Qle_condition.
  destruct (round_half_even_cases x) as [[-> H] | [-> H]].
  - lra.
  - rewrite inject_Z_plus. change (inject_Z 1) with 1. lra.
Qed.

Lemma round_half_even_mono (x y : Q) :
  x <= y -> (round_half_even x <= round_half_even y)%Z.
Proof.
  intro Hxy. pose proof (Qfloor_resp_le _ _ Hxy) as Hf.
  pose proof (Qfloor_le x) as Hx1. pose proof (Qlt_floor x) as Hx2.
  pose proof (Qfloor_le y) as Hy1. pose proof (Qlt_floor y) as Hy2.
  rewrite inject_Z_plus in Hx2, Hy2. change (inject_Z 1) with 1 in Hx2, Hy2.
  destruct (Z.eq_dec (Qfloor x) (Qfloor y)) as [E | Hne].
  - unfold round_half_even. rewrite <- E in *.
    destruct (Qcompare_spec (x - inject_Z (Qfloor x)) (1 # 2)) as [Ex | Ex | Ex];
      destruct (Qcompare_spec (y - inject_Z (Qfloor x)) (1 # 2)) as [Ey | Ey | Ey];
      try (destruct (Z.even (Qfloor x))); try lia; exfalso; lra.
  - destruct (round_half_even_cases x) as [[-> _] | [-> _]];
      destruct (round_half_even_cases y) as [[-> _] | [-> _]]; lia.
Qed.

Lemma round_half_even_Z (n : Z) : round_half_even (inject_Z n) = n.
Proof.
  unfold round_half_even. rewrite Qfloor_Z.
  assert (inject_Z n - inject_Z n == 0) as E by ring.
  destruct (Qcompare_spec (inject_Z n - inject_Z n) (1 # 2)) as [C | C | C].
  - exfalso. lra.
  - reflexivity.
  - exfalso. lra.
Qed.

Lemma pow2_pos (e : Z) : 0 < 2 ^ e.
Proof. apply Qpower_0_lt. reflexivity. Qed.

Lemma pow2_plus (a b : Z) : 2 ^ (a + b) == 2 ^ a * 2 ^ b.
Proof. apply Qpower_plus. discriminate. Qed.

Lemma pow2_Z (n : Z) : (0 <= n)%Z -> inject_Z (2 ^ n) == 2 ^ n.
Proof. intro H. rewrite Zpower_Qpower by exact H. reflexivity. Qed.

Lemma ilog2_bounds (x : Q) :
  0 < x -> 2 ^ ilog2 x <= x /\ x < 2 ^ (ilog2 x + 1).
Proof.
  intro Hx. destruct x as [n d]. unfold ilog2. cbn [Qnum Qden].
  assert (0 < n)%Z as Hn by (unfold Qlt in Hx; cbn in Hx; lia).
  pose proof (Z.log2_spec n Hn) as [Hn1 Hn2].
  pose proof (Z.log2_spec (Zpos d) (Pos2Z.is_pos d)) as [Hd1 Hd2].
  pose proof (Z.log2_nonneg n) as Hln. pose proof (Z.log2_nonneg (Zpos d)) as Hld.
  set (ln := Z.log2 n) in *. set (ld := Z.log2 (Zpos d)) in *.
  assert (n # d == inject_Z n / inject_Z (Zpos d)) as Ex by (apply Qmake_Qdiv).
  assert (0 < inject_Z (Zpos d)) as HD by reflexivity.
  rewrite Zle_Qle in Hn1, Hd1. rewrite Zlt_Qlt in Hn2, Hd2.
  rewrite pow2_Z in Hn1, Hd1 by lia.
  unfold Z.succ in Hn2, Hd2. rewrite pow2_Z in Hn2, Hd2 by lia.
  assert (2 ^ (ln + 1) == 2 ^ (ln - ld + 1) * 2 ^ ld) as E1.
  { rewrite <- pow2_plus. replace (ln - ld + 1 + ld)%Z with (ln + 1)%Z by lia. reflexivity. }
  assert (2 ^ ln == 2 ^ (ln - ld - 1) * 2 ^ (ld + 1)) as E2.
  { rewrite <- pow2_plus. replace (ln - ld - 1 + (ld + 1))%Z with ln by lia. reflexivity. }
  assert (2 ^ (ln - ld) == 2 * 2 ^ (ln - ld - 1)) as E3.
  { replace (ln - ld)%Z with (1 + (ln - ld - 1))%Z at 1 by lia. rewrite pow2_plus. reflexivity. }
  assert (2 ^ (ln - ld + 1) == 2 * 2 ^ (ln - ld)) as E4.
  { replace (ln - ld + 1)%Z with (1 + (ln - ld))%Z at 1 by lia. rewrite pow2_plus. reflexivity. }
  pose proof (pow2_pos (ln - ld - 1)) as P1. pose proof (pow2_pos ld) as P2.
  pose proof (pow2_pos (ld + 1)) as P3.
  set (N := inject_Z n) in *. set (D := inject_Z (Zpos d)) in *.
  set (a := 2 ^ (ln - ld - 1)) in *. set (b := 2 ^ ld) in *.
  set (b' := 2 ^ (ld + 1)) in *.
  assert (N < 4 * a * D) as U.
  { rewrite E1, E4, E3 in Hn2. nra. }
  assert (a * D < N) as L.
  { rewrite E2 in Hn1. nra. }
  assert (a < n # d /\ n # d < 4 * a) as [L' U'].
  { rewrite Ex. split.
    - apply Qlt_shift_div_l; [exact HD | exact L].
    - apply Qlt_shift_div_r; [exact HD | exact U]. }
  destruct (Qle_bool (2 ^ (ln - ld)) (n # d)) eqn:C.
  - apply Qle_bool_iff in C. split; [exact C |]. rewrite E4, E3. lra.
  - assert (n # d < 2 ^ (ln - ld)) as C'.
    { apply Qnot_le_lt. intro H. apply Qle_bool_iff in H. congruence. }
    fold a. split; [lra |].
    replace (ln - ld - 1 + 1)%Z with (ln - ld)%Z by lia. exact C'.
Qed.

(** The scaled value lies in [2^52, 2^53), its rounding in [2^52, 2^53]. *)
Lemma binary64_pos_scaled (x : Q) :
  0 < x ->
  let e := (ilog2 x - 52)%Z in
  2 ^ 52 * 2 ^ e <= x /\ x < 2 ^ 53 * 2 ^ e
  /\ 2 ^ 52 <= inject_Z (round_half_even (x / 2 ^ e)) <= 2 ^ 53.
Proof.
  intros Hx e. destruct (ilog2_bounds x Hx) as [L U].
  pose proof (pow2_pos e) as He.
  assert (2 ^ ilog2 x == 2 ^ 52 * 2 ^ e) as E1.
  { rewrite <- pow2_plus. unfold e.
    replace (52 + (ilog2 x - 52))%Z with (ilog2 x) by lia. reflexivity. }
  assert (2 ^ (ilog2 x + 1) == 2 ^ 53 * 2 ^ e) as E2.
  { rewrite <- pow2_plus. unfold e.
    replace (53 + (ilog2 x - 52))%Z with (ilog2 x + 1)%Z by lia. reflexivity. }
  rewrite E1 in L. rewrite E2 in U.
  split; [exact L | split; [exact U |]].
  assert (2 ^ 52 <= x / 2 ^ e) as L' by (apply Qle_shift_div_l; [exact He | exact L]).
  assert (x / 2 ^ e <= 2 ^ 53) as U'
    by (apply Qle_shift_div_r; [exact He | apply Qlt_le_weak, U]).
  split.
  - change (2 ^ 52) with (inject_Z (2 ^ 52)). rewrite <- Zle_Qle.
    rewrite <- (round_half_even_Z (2 ^ 52)). apply round_half_even_mono. exact L'.
  - change (2 ^ 53) with (inject_Z (2 ^ 53)). rewrite <- Zle_Qle.
    rewrite <- (round_half_even_Z (2 ^ 53)). apply round_half_even_mono. exact U'.
Qed.

Lemma binary64_pos_error (x : Q) :
  0 < x -> Qabs (binary64_pos x - x) <= unit_roundoff * x.
Proof.
  intro Hx. destruct (binary64_pos_scaled x Hx) as (L & U & _).
  unfold binary64_pos. set (e := (ilog2 x - 52)%Z) in *.
  pose proof (pow2_pos e) as He.
  pose proof (round_half_even_error (x / 2 ^ e)) as Hr.
  set (r := inject_Z (round_half_even (x / 2 ^ e))) in *.
  assert (x == x / 2 ^ e * 2 ^ e) as Ex by (field; lra).
  set (s := x / 2 ^ e) in *. set (p := 2 ^ e) in *.
  apply Qabs_Qle_condition in Hr. apply Qabs_Qle_condition.
  assert (2 ^ 52 == 4503599627370496) as E52 by reflexivity.
  rewrite E52 in L. unfold unit_roundoff.
  assert (r * p - x == (r - s) * p) as -> by (rewrite Ex at 1; ring).
  nra.
Qed.

Lemma binary64_pos_mono (x y : Q) :
  0 < x -> x <= y -> binary64_pos x <= binary64_pos y.
Proof.
  intros Hx Hxy. assert (0 < y) as Hy by lra.
  destruct (binary64_pos_scaled x Hx) as (Lx & Ux & Rx1 & Rx2).
  destruct (binary64_pos_scaled y Hy) as (Ly & Uy & Ry1 & Ry2).
  unfold binary64_pos.
  set (ex := (ilog2 x - 52)%Z) in *. set (ey := (ilog2 y - 52)%Z) in *.
  pose proof (pow2_pos ex) as Hex. pose proof (pow2_pos ey) as Hey.
  destruct (Z.lt_trichotomy ex ey) as [Hlt | [Heq | Hgt]].
  - assert (2 * 2 ^ ex <= 2 ^ ey) as Hp.
    { change 2 with (2 ^ 1) at 1. rewrite <- pow2_plus.
      apply Qpower_le_compat_l; [lia | discriminate]. }
    set (rx := inject_Z (round_half_even (x / 2 ^ ex))) in *.
    set (ry := inject_Z (round_half_even (y / 2 ^ ey))) in *.
    assert (2 ^ 52 == 4503599627370496) as E52 by reflexivity.
    assert (2 ^ 53 == 9007199254740992) as E53 by reflexivity.
    rewrite E52, E53 in *.
    set (p := 2 ^ ex) in *. set (q := 2 ^ ey) in *. nra.
  - rewrite <- Heq in *.
    apply Qmult_le_compat_r; [| apply Qlt_le_weak, Hex].
    rewrite <- Zle_Qle. apply round_half_even_mono.
    apply Qmult_le_compat_r; [exact Hxy |].
    apply Qlt_le_weak, Qinv_lt_0_compat, Hex.
  - exfalso.
    assert (2 * 2 ^ ey <= 2 ^ ex) as Hp.
    { change 2 with (2 ^ 1) at 1. rewrite <- pow2_plus.
      apply Qpower_le_compat_l; [lia | discriminate]. }
    assert (2 ^ 52 == 4503599627370496) as E52 by reflexivity.
    assert (2 ^ 53 == 9007199254740992) as E53 by reflexivity.
    rewrite E52, E53 in *.
    set (p := 2 ^ ex) in *. set (q := 2 ^ ey) in *. nra.
Qed.

Lemma binary64_pos_positive (x : Q) : 0 < x -> 0 < binary64_pos x.
Proof.
  intro Hx. destruct (binary64_pos_scaled x Hx) as (_ & _ & R & _).
  unfold binary64_pos. set (e := (ilog2 x - 52)%Z) in *.
  pose proof (pow2_pos e).
  assert (2 ^ 52 == 4503599627370496) as E52 by reflexivity. rewrite E52 in R.
  set (r := inject_Z (round_half_even (x / 2 ^ e))) in *. set (p := 2 ^ e) in *. nra.
Qed.

Lemma binary64_cases (x : Q) :
  (x == 0 /\ binary64 x = 0)
  \/ (0 < x /\ binary64 x = binary64_pos x)
  \/ (x < 0 /\ binary64 x = - binary64_pos (- x)).
Proof.
  unfold binary64. destruct (Qcompare_spec x 0) as [E | E | E]; auto.
Qed.

Lemma binary64_rounds_to_nearest : rounds_to_nearest binary64.
Proof.
  intro x. destruct (binary64_cases x) as [[E ->] | [[H ->] | [H ->]]].
  - rewrite E. cbn. discriminate.
  - rewrite (Qabs_pos x) by lra. now apply binary64_pos_error.
  - rewrite (Qabs_neg x) by lra.
    assert (- binary64_pos (- x) - x == - (binary64_pos (- x) - - x)) as -> by ring.
    rewrite Qabs_opp. apply binary64_pos_error. lra.
Qed.

Lemma binary64_monotone : monotone_rounding binary64.
Proof.
  intros x y Hxy.
  destruct (binary64_cases x) as [[Ex ->] | [[Hx ->] | [Hx ->]]];
    destruct (binary64_cases y) as [[Ey ->] | [[Hy ->] | [Hy ->]]];
    try (exfalso; lra).
  - lra.
  - apply Qlt_le_weak, binary64_pos_positive, Hy.
  - now apply binary64_pos_mono.
  - assert (0 < binary64_pos (- x)) by (apply binary64_pos_positive; lra). lra.
  - assert (0 < binary64_pos (- x)) by (apply binary64_pos_positive; lra).
    assert (0 < binary64_pos y) by (apply binary64_pos_positive; lra). lra.
  - assert (binary64_pos (- y) <= binary64_pos (- x))
      by (apply binary64_pos_mono; lra). lra.
Qed.

Lemma exact_arithmetic_rounds : rounds_to_nearest (fun x => x).
Proof.
  intro x. assert (x - x == 0) as -> by ring.
  cbn. apply Qmult_le_0_compat; [discriminate | apply Qabs_nonneg].
Qed.

Lemma rounding_of_zero (rnd : Q -> Q) (x : Q) :
  rounds_to_nearest rnd -> x == 0 -> rnd x == 0.
Proof.
  intros H E. pose proof (H x) as Hx. rewrite E in Hx at 2 3.
  apply Qabs_Qle_condition in Hx. cbn in Hx. lra.
Qed.

Lemma rounding_nonneg (rnd : Q -> Q) (x : Q) :
  rounds_to_nearest rnd -> monotone_rounding rnd -> 0 <= x -> 0 <= rnd x.
Proof.
  intros H M Hx. rewrite <- (rounding_of_zero rnd 0 H) by reflexivity.
  now apply M.
Qed.

(** ** OvertakeProbabilityModel *)

Section Overtake.

Import overtake.

Lemma speed_advantage_guarded (a d : Q) :
  0 < d -> speed_advantage a d = Ok ((a - d) / d * 0.5).
Proof.
  intro H. unfold speed_advantage.
  rewrite (proj2 (Qlt_bool_true _ _) H).
  rewrite truediv_nonzero by lra. reflexivity.
Qed.

Lemma speed_advantage_unguarded (a d : Q) :
  d <= 0 -> speed_advantage a d = Ok 0.
Proof.
  intro H. unfold speed_advantage.
  now rewrite (proj2 (Qlt_bool_false _ _) H).
Qed.

Lemma inject_Z_abs_nonzero (z : Z) : z <> 0%Z -> ~ inject_Z (Z.abs z) == 0.
Proof.
  intros H E. unfold Qeq in E. simpl in E. lia.
Qed.

Lemma position_proximity_apart (a d : Z) :
  a <> d -> position_proximity a d = Ok (1 / inject_Z (Z.abs (a - d))).
Proof.
  intro H. unfold position_proximity.
  rewrite (proj2 (Z.eqb_neq _ _) H). simpl.
  apply truediv_nonzero, inject_Z_abs_nonzero. lia.
Qed.

Lemma position_proximity_level (a : Z) : position_proximity a a = Ok 0.
Proof.
  unfold position_proximity. now rewrite Z.eqb_refl.
Qed.

Lemma tire_advantage_value (a d : Z) :
  tire_advantage a d = Ok (min2 (inject_Z (d - a) / 20) 0.5).
Proof. reflexivity. Qed.

Lemma sector_factor_table (sector : string) (sf : Q) :
  overtake_spec.sector_factor sector = Some sf ->
  dict_get sector_factors sector 0.4 = sf.
Proof.
  unfold overtake_spec.sector_factor, sector_factors. cbn [dict_get].
  destruct (String.eqb sector "S1"); [congruence |].
  destruct (String.eqb sector "S2"); [congruence |].
  destruct (String.eqb sector "S3"); [congruence | discriminate].
Qed.






End Overtake.

(** ** RaceTwinSimulator: the simulation count *)

(** C8: the stored simulation count is the request clamped into
    [100, 500]: a request below 100 is stored as 100, a request above 500 as
    500, and a request in range is kept; so 50 becomes 100 and 1000 becomes
    500. *)
Theorem num_simulations_clamped (requested : Z) :
  (100 <= race_twin.__init__ requested <= 500)%Z
  /\ ((requested < 100)%Z -> race_twin.__init__ requested = 100%Z)
  /\ ((500 < requested)%Z -> race_twin.__init__ requested = 500%Z)
  /\ ((100 <= requested <= 500)%Z -> race_twin.__init__ requested = requested)
  /\ race_twin.__init__ 50 = 100%Z
  /\ race_twin.__init__ 1000 = 500%Z.
Proof.
  unfold race_twin.__init__. repeat split; try reflexivity; lia.
Qed.

Lemma num_simulations_clamped_witness :
  race_twin.__init__ (-7) = 100%Z
  /\ race_twin.__init__ 99 = 100%Z
  /\ race_twin.__init__ 501 = 500%Z
  /\ race_twin.__init__ 250 = 250%Z.
Proof.
  split; [| split; [| split]].
  - destruct (num_simulations_clamped (-7)) as (_ & H & _). apply H. lia.
  - destruct (num_simulations_clamped 99) as (_ & H & _). apply H. lia.
  - destruct (num_simulations_clamped 501) as (_ & _ & H & _). apply H. lia.
  - destruct (num_simulations_clamped 250) as (_ & _ & _ & H & _). apply H. lia.
Defined.

(** ** PitRejoinSimulator *)

Lemma sector_penalty_bounds (sector : string) :
  0.8 <= dict_get pit_rejoin.sector_penalties sector 1.0 <= 1.2.
Proof.
  unfold pit_rejoin.sector_penalties. cbn [dict_get].
  repeat match goal with
         | |- context [if ?b then _ else _] => destruct b
         end; split; discriminate.
Qed.

Section RoundedTimeLost.

Import pit_rejoin.

(** A rounding that is within a relative error of [2^-53] and keeps the
    order, as [binary64] is. *)
Variable rnd : Q -> Q.
Hypothesis rnd_model : rounds_to_nearest rnd.
Hypothesis rnd_monotone : monotone_rounding rnd.

Lemma rounded_within (x bound : Q) :
  Qabs x <= bound -> Qabs (rnd x - x) <= bound * (1 # 1000000000000000).
Proof.
  intro H. pose proof (rnd_model x) as Hr. unfold unit_roundoff in Hr.
  pose proof (Qabs_nonneg x). lra.
Qed.

Lemma rounded_interval (x lo hi : Q) :
  0 <= lo -> lo <= x <= hi ->
  lo * (1 - (1 # 1000000000000000)) <= rnd x <= hi * (1 + (1 # 1000000000000000)).
Proof.
  intros Hlo [H1 H2]. pose proof (rounded_within x hi) as Hr.
  rewrite Qabs_pos in Hr by lra. specialize (Hr H2).
  pose proof (rnd_model x) as Hm. unfold unit_roundoff in Hm.
  rewrite (Qabs_pos x) in Hm by lra.
  apply Qabs_Qle_condition in Hr, Hm. split; [nra | lra].
Qed.

Lemma product_interval (x y lx hx ly hy : Q) :
  0 <= lx -> 0 <= ly -> lx <= x <= hx -> ly <= y <= hy ->
  lx * ly <= x * y <= hx * hy.
Proof. intros. nra. Qed.

Lemma rejoin_time_loss_rounded_monotone (sector : string) (lap_time d1 d2 : Q) :
  d1 <= d2 ->
  _calculate_rejoin_time_loss_rounded rnd d1 sector lap_time
  <= _calculate_rejoin_time_loss_rounded rnd d2 sector lap_time.
Proof.
  intro H. unfold _calculate_rejoin_time_loss_rounded.
  destruct (sector_penalty_bounds sector) as [Hs _].
  set (m := dict_get sector_penalties sector 1.0) in *.
  assert (0 <= rnd m) as Hm by (apply rounding_nonneg; auto; lra).
  assert (0 <= rnd 1.5) as Hb by (apply rounding_nonneg; auto; discriminate).
  assert (0 <= rnd 0.5) as Hh by (apply rounding_nonneg; auto; discriminate).
  apply rnd_monotone. apply Qmult_le_compat_r; [| exact Hm].
  apply rnd_monotone. rewrite !(Qmult_comm (rnd 1.5)).
  apply Qmult_le_compat_r; [| exact Hb].
  apply rnd_monotone. apply Qplus_le_r.
  apply rnd_monotone. apply Qmult_le_compat_r; [exact H | exact Hh].
Qed.

(** Between the floats written 0.0 and 0.9 the rejoin loss grows by more
    than half a second. *)
Lemma rejoin_time_loss_rounded_gap (sector : string) (lap_time : Q) :
  0 <= _calculate_rejoin_time_loss_rounded rnd (rnd 0.0) sector lap_time
  /\ _calculate_rejoin_time_loss_rounded rnd (rnd 0.0) sector lap_time + 0.5
     <= _calculate_rejoin_time_loss_rounded rnd (rnd 0.9) sector lap_time
  /\ _calculate_rejoin_time_loss_rounded rnd (rnd 0.9) sector lap_time <= 3.
Proof.
  unfold _calculate_rejoin_time_loss_rounded.
  pose proof (sector_penalty_bounds sector) as Hs.
  set (m := dict_get sector_penalties sector 1.0) in *.
  pose proof (rounded_interval m 0.8 1.2 ltac:(discriminate) Hs) as Hm.
  pose proof (rounded_interval 1.5 1.5 1.5 ltac:(discriminate)
                ltac:(split; discriminate)) as Hb.
  pose proof (rounded_interval 1.0 1.0 1.0 ltac:(discriminate)
                ltac:(split; discriminate)) as Hone.
  pose proof (rounded_interval 0.5 0.5 0.5 ltac:(discriminate)
                ltac:(split; discriminate)) as Hh.
  pose proof (rounded_interval 0.9 0.9 0.9 ltac:(discriminate)
                ltac:(split; discriminate)) as H9.
  set (sm := rnd m) in *. set (b := rnd 1.5) in *. set (one := rnd 1.0) in *.
  set (h := rnd 0.5) in *. set (d9 := rnd 0.9) in *.
  (* density 0.0 *)
  assert (rnd 0.0 == 0) as E0 by (apply rounding_of_zero; [exact rnd_model | reflexivity]).
  assert (rnd (rnd 0.0 * h) == 0) as E0'.
  { apply rounding_of_zero; [exact rnd_model |]. rewrite E0. ring. }
  assert (0.9999998 <= rnd (one + rnd (rnd 0.0 * h)) <= 1.0000002) as Htm0.
  { pose proof (rounded_interval (one + rnd (rnd 0.0 * h)) 0.9999999 1.0000001
                  ltac:(discriminate) ltac:(lra)). lra. }
  set (tm0 := rnd (one + rnd (rnd 0.0 * h))) in *.
  assert (1.4999990 <= rnd (b * tm0) <= 1.5000010) as Hx0.
  { pose proof (product_interval b tm0 1.4999999 1.5000001 0.9999998 1.0000002
                  ltac:(discriminate) ltac:(discriminate) ltac:(lra) Htm0) as Hp.
    pose proof (rounded_interval (b * tm0) 1.4999995 1.5000005
                  ltac:(discriminate) ltac:(lra)). lra. }
  set (x0 := rnd (b * tm0)) in *.
  (* density 0.9 *)
  assert (0.4499990 <= rnd (d9 * h) <= 0.4500010) as Hr9.
  { pose proof (product_interval d9 h 0.8999999 0.9000001 0.4999999 0.5000001
                  ltac:(discriminate) ltac:(discriminate) ltac:(lra) ltac:(lra)) as Hp.
    pose proof (rounded_interval (d9 * h) 0.4499995 0.4500005
                  ltac:(discriminate) ltac:(lra)). lra. }
  set (r9 := rnd (d9 * h)) in *.
  assert (1.4499980 <= rnd (one + r9) <= 1.4500020) as Htm9.
  { pose proof (rounded_interval (one + r9) 1.4499985 1.4500015
                  ltac:(discriminate) ltac:(lra)). lra. }
  set (tm9 := rnd (one + r9)) in *.
  assert (2.1749900 <= rnd (b * tm9) <= 2.1750100) as Hx9.
  { pose proof (product_interval b tm9 1.4999999 1.5000001 1.4499980 1.4500020
                  ltac:(discriminate) ltac:(discriminate) ltac:(lra) Htm9) as Hp.
    pose proof (rounded_interval (b * tm9) 2.1749950 2.1750050
                  ltac:(discriminate) ltac:(lra)). lra. }
  set (x9 := rnd (b * tm9)) in *.
  assert (0.79 <= sm <= 1.21) as Hsm by lra.
  assert (1.4999990 * sm <= x0 * sm <= 1.5000010 * sm) as Hp0 by nra.
  assert (2.1749900 * sm <= x9 * sm <= 2.1750100 * sm) as Hp9 by nra.
  pose proof (rounded_interval (x0 * sm) (1.4999990 * sm) (1.5000010 * sm)
                ltac:(lra) Hp0) as Hl0.
  pose proof (rounded_interval (x9 * sm) (2.1749900 * sm) (2.1750100 * sm)
                ltac:(lra) Hp9) as Hl9.
  lra.
Qed.


End RoundedTimeLost.

(** With the identity for the rounding, the rounded [time_lost] is the one
    of the exact model. *)
Lemma time_lost_rounded_exact
    (driver_id : string) (current_position pit_lap : Z)
    (pit_time average_lap_time traffic_density : Q) (total_cars : Z)
    (sector_at_pit : string) :
  pit_rejoin.time_lost_rounded (fun x => x) pit_time average_lap_time
    traffic_density sector_at_pit
  = pit_rejoin.time_lost
      (pit_rejoin.simulate_pit_rejoin driver_id current_position pit_lap pit_time
         average_lap_time traffic_density total_cars sector_at_pit).
Proof. reflexivity. Qed.



(** ** RaceTwinSimulator: one Monte Carlo iteration *)

Section SingleRace.

Import race_twin Random.

Variable fpow : Q -> Q -> Q.

Lemma bind_raise {A B : Type} (m : M A) (k : A -> M B) (g : Rng) (e : exn) :
  m g = Raise e -> Random.bind m k g = Raise e.
Proof. unfold Random.bind. now intros ->. Qed.

Lemma bind_ok {A B : Type} (m : M A) (k : A -> M B) (g g' : Rng) (a : A) :
  m g = Ok (a, g') -> Random.bind m k g = k a g'.
Proof. unfold Random.bind. now intros ->. Qed.

(** Every computation either raises or returns. *)
Lemma run_cases {A : Type} (m : M A) (g : Rng) :
  (exists e, m g = Raise e) \/ (exists a g', m g = Ok (a, g')).
Proof.
  destruct (m g) as [[a g'] | e]; [right; now exists a, g' | left; now exists e].
Qed.

(** With the class of [degradation] bound to [TireDegradationModel], the
    body of the inner loop cannot complete for a driver that is in the
    race: either the lap time fails, or the lookup of
    [calculate_degradation] does. *)
Lemma simulate_driver_lap_raises
    (lap total_laps : Z) (weather_data : option Weather.t)
    (options : option (list Strategy.t)) (total_cars : Z)
    (race_state : Dict.t State.t) (driver_id : string) (state : State.t) (g : Rng) :
  Dict.get race_state driver_id = Some state ->
  exists e,
    simulate_driver_lap fpow degradation.calculate_degradation
      lap total_laps weather_data options total_cars race_state driver_id g = Raise e.
Proof.
  intro Hget. unfold simulate_driver_lap. rewrite Hget.
  destruct (run_cases (_calculate_lap_time fpow driver_id state lap weather_data race_state) g)
    as [[e He] | [t [g' Ht]]].
  - exists e. now apply bind_raise.
  - eexists. rewrite (bind_ok _ _ _ _ _ Ht). reflexivity.
Qed.

End SingleRace.

(** C2 (defect): an iteration over two drivers from lap 10 of 50 produces no
    [SimulationResult]: after the first lap time the simulator calls
    [calculate_degradation] on the model imported from [degradation], which
    has no such method, and the [AttributeError] ends the iteration. *)
Theorem simulate_single_race_raises (fpow : Q -> Q -> Q) (g : Random.Rng) :
  let default_twin :=
    {| race_twin.Twin.pace_vector := Some 0.0;
       race_twin.Twin.consistency_index := Some 0.7;
       race_twin.Twin.degradation_profile :=
         Some {| race_twin.Twin.base_pace := None;
                 race_twin.Twin.rate := Some 0.002 |} |} in
  race_twin._simulate_single_race fpow
    [ {| race_twin.Driver.id := "driver_1"; race_twin.Driver.position := Some 1%Z;
         race_twin.Driver.tire_age := Some 10%Z;
         race_twin.Driver.tire_compound := Some "MEDIUM"%string |};
      {| race_twin.Driver.id := "driver_2"; race_twin.Driver.position := Some 2%Z;
         race_twin.Driver.tire_age := Some 8%Z;
         race_twin.Driver.tire_compound := Some "SOFT"%string |} ]
    [ ("driver_1"%string, default_twin); ("driver_2"%string, default_twin) ]
    50 10 None None g
  = Raise (AttributeError "TireDegradationModel" "calculate_degradation").
Proof.
  reflexivity.
Qed.

(** ** Dictionaries and sorting *)

Section DictFacts.

Context {V : Type}.

Lemma get_set_same (d : Dict.t V) (k : string) (v : V) :
  Dict.get (Dict.set d k v) k = Some v.
Proof.
  induction d as [| [k' v'] d IH]; cbn.
  - now rewrite String.eqb_refl.
  - destruct (String.eqb k k') eqn:E; cbn; rewrite E; [reflexivity | exact IH].
Qed.

Lemma get_set_other (d : Dict.t V) (k k' : string) (v : V) :
  k' <> k -> Dict.get (Dict.set d k v) k' = Dict.get d k'.
Proof.
  intro Hne. induction d as [| [k0 v0] d IH]; cbn.
  - apply String.eqb_neq in Hne. now rewrite Hne.
  - destruct (String.eqb k k0) eqn:E; cbn.
    + apply String.eqb_eq in E. subst k0.
      apply String.eqb_neq in Hne. now rewrite Hne.
    + destruct (String.eqb k' k0); [reflexivity | exact IH].
Qed.

Lemma get_Some_In_keys (d : Dict.t V) (k : string) (v : V) :
  Dict.get d k = Some v -> In k (Dict.keys d).
Proof.
  induction d as [| [k' v'] d IH]; cbn; [discriminate |].
  destruct (String.eqb k k') eqn:E.
  - apply String.eqb_eq in E. now left.
  - intro H. right. now apply IH.
Qed.

Lemma In_keys_get (d : Dict.t V) (k : string) :
  In k (Dict.keys d) -> exists v, Dict.get d k = Some v.
Proof.
  induction d as [| [k' v'] d IH]; cbn; [contradiction |].
  intros [-> | H].
  - rewrite String.eqb_refl. now exists v'.
  - destruct (String.eqb k k'); [now exists v' | now apply IH].
Qed.

(** Assigning to a key that is present leaves the key order untouched. *)
Lemma keys_set_present (d : Dict.t V) (k : string) (v : V) :
  In k (Dict.keys d) -> Dict.keys (Dict.set d k v) = Dict.keys d.
Proof.
  induction d as [| [k' v'] d IH]; cbn; [contradiction |].
  intro H. destruct (String.eqb k k') eqn:E; cbn; [reflexivity |].
  f_equal. apply IH. destruct H as [-> | H]; [| exact H].
  now rewrite String.eqb_refl in E.
Qed.

(** Assigning to a new key appends it. *)
Lemma keys_set_absent (d : Dict.t V) (k : string) (v : V) :
  ~ In k (Dict.keys d) -> Dict.keys (Dict.set d k v) = Dict.keys d ++ [k].
Proof.
  induction d as [| [k' v'] d IH]; cbn; [reflexivity |].
  intro H. destruct (String.eqb k k') eqn:E; cbn.
  - apply String.eqb_eq in E. subst. tauto.
  - f_equal. apply IH. tauto.
Qed.

Lemma In_keys_set (d : Dict.t V) (k k' : string) (v : V) :
  In k' (Dict.keys (Dict.set d k v)) <-> k' = k \/ In k' (Dict.keys d).
Proof.
  destruct (in_dec string_dec k (Dict.keys d)) as [H | H].
  - rewrite keys_set_present by exact H. split; [tauto | intros [-> | ?]; assumption].
  - rewrite keys_set_absent by exact H. rewrite in_app_iff. cbn. intuition congruence.
Qed.

Lemma NoDup_keys_set (d : Dict.t V) (k : string) (v : V) :
  NoDup (Dict.keys d) -> NoDup (Dict.keys (Dict.set d k v)).
Proof.
  intro Hnd. destruct (in_dec string_dec k (Dict.keys d)) as [H | H].
  - now rewrite keys_set_present.
  - rewrite keys_set_absent by exact H.
    apply NoDup_app; [exact Hnd | repeat constructor; intros [] | ].
    intros x Hx [<- | []]. contradiction.
Qed.

End DictFacts.

Section ComprehensionFacts.

Context {X V : Type} (key : X -> string) (value : X -> V).

Let step (d : Dict.t V) (x : X) : Dict.t V := Dict.set d (key x) (value x).

Lemma fold_set_keys (xs : list X) (d : Dict.t V) :
  NoDup (Dict.keys d) ->
  NoDup (Dict.keys (fold_left step xs d))
  /\ forall k, In k (Dict.keys (fold_left step xs d))
               <-> In k (Dict.keys d) \/ In k (map key xs).
Proof.
  revert d. induction xs as [| x xs IH]; intros d Hnd; cbn.
  - split; [exact Hnd | intro k; tauto].
  - destruct (IH (step d x) (NoDup_keys_set d (key x) (value x) Hnd)) as [H1 H2].
    split; [exact H1 |].
    intro k. rewrite H2. unfold step at 1. rewrite In_keys_set. intuition.
Qed.

(** The keys of a comprehension are the distinct keys of its source. *)
Lemma comprehension_keys (xs : list X) :
  NoDup (Dict.keys (Dict.comprehension key value xs))
  /\ forall k, In k (Dict.keys (Dict.comprehension key value xs)) <-> In k (map key xs).
Proof.
  destruct (fold_set_keys xs [] (NoDup_nil _)) as [H1 H2].
  split; [exact H1 |].
  intro k. unfold Dict.comprehension. fold step. rewrite H2. cbn. tauto.
Qed.

Lemma fold_set_head (xs : list X) (k : string) (v : V) (d : Dict.t V) :
  exists v' d', fold_left step xs ((k, v) :: d) = (k, v') :: d'.
Proof.
  revert v d. induction xs as [| x xs IH]; intros v d; cbn.
  - now exists v, d.
  - replace (step ((k, v) :: d) x)
      with (if String.eqb (key x) k then (k, value x) :: d
            else (k, v) :: Dict.set d (key x) (value x)) by reflexivity.
    destruct (String.eqb (key x) k); apply IH.
Qed.

(** A non-empty source gives a non-empty dictionary, led by the key of the
    first element. *)
Lemma comprehension_head (x : X) (xs : list X) :
  exists v d, Dict.comprehension key value (x :: xs) = (key x, v) :: d.
Proof.
  unfold Dict.comprehension. cbn. apply fold_set_head.
Qed.

End ComprehensionFacts.

Section SortedFacts.

Context {A : Type} (key : A -> Q).

Lemma insert_perm (x : A) (l : list A) : Permutation (Sorted.insert key x l) (x :: l).
Proof.
  induction l as [| y l IH]; cbn; [reflexivity |].
  destruct (Qle_bool (key x) (key y)); [reflexivity |].
  rewrite IH. apply perm_swap.
Qed.

(** [sorted] only reorders. *)
Lemma sorted_perm (l : list A) : Permutation (Sorted.sorted key l) l.
Proof.
  induction l as [| x l IH]; cbn; [reflexivity |].
  rewrite insert_perm. now constructor.
Qed.

End SortedFacts.

(** ** RaceTwinSimulator: what an iteration does to the race state *)

Section SingleRaceInvariants.

Import race_twin Random.

Variable fpow : Q -> Q -> Q.
Variable slot : option (Z -> string -> option Q -> Q).

Lemma bind_inv {A B : Type} (m : M A) (k : A -> M B) (g g'' : Rng) (b : B) :
  Random.bind m k g = Ok (b, g'') ->
  exists a g', m g = Ok (a, g') /\ k a g' = Ok (b, g'').
Proof.
  unfold Random.bind. destruct (m g) as [[a g'] | e]; [| discriminate].
  intro H. now exists a, g'.
Qed.

Lemma ret_inv {A : Type} (a b : A) (g g' : Rng) :
  ret a g = Ok (b, g') -> a = b /\ g = g'.
Proof. unfold ret. intro H. now injection H. Qed.

Ltac bind_inversion H :=
  let a := fresh "a" in
  let g := fresh "g" in
  let Ha := fresh "Hrun" in
  apply bind_inv in H; destruct H as (a & g & Ha & H).

Lemma for_each_invariant {A S : Type} (P : S -> Prop) (step : S -> A -> M S) :
  (forall acc x g acc' g', P acc -> step acc x g = Ok (acc', g') -> P acc') ->
  forall xs acc g acc' g',
    P acc -> for_each step xs acc g = Ok (acc', g') -> P acc'.
Proof.
  intros Hstep xs. induction xs as [| x xs IH]; intros acc g acc' g' HP H; cbn in H.
  - apply ret_inv in H as [-> _]. exact HP.
  - bind_inversion H. eapply IH; [| exact H]. eapply Hstep; eassumption.
Qed.

Lemma find_position_In_keys (all_states : Dict.t State.t) (p : Z)
    (k : string) (s : State.t) :
  find_position all_states p = Some (k, s) -> In k (Dict.keys all_states).
Proof.
  unfold find_position. intro H. apply find_some in H as [H _].
  unfold Dict.keys. change k with (fst (k, s)). now apply in_map.
Qed.

(** An overtake swaps two positions; no driver enters or leaves. *)
Lemma _simulate_overtakes_keys
    (driver_id : string) (state : State.t) (all_states rs' : Dict.t State.t)
    (lap : Z) (g g' : Rng) :
  In driver_id (Dict.keys all_states) ->
  _simulate_overtakes driver_id state all_states lap g = Ok (rs', g') ->
  Dict.keys rs' = Dict.keys all_states.
Proof.
  intros Hin H. unfold _simulate_overtakes in H.
  destruct (State.position state =? 1)%Z.
  { apply ret_inv in H as [<- _]. reflexivity. }
  destruct (find_position all_states (State.position state - 1))
    as [[ahead_id ahead_state] |] eqn:Hfind.
  2: { apply ret_inv in H as [<- _]. reflexivity. }
  apply find_position_In_keys in Hfind.
  do 4 bind_inversion H.
  destruct (Qlt_bool _ _).
  - apply ret_inv in H as [<- _].
    rewrite keys_set_present; rewrite keys_set_present; auto.
  - apply ret_inv in H as [<- _]. reflexivity.
Qed.

Lemma simulate_driver_lap_keys
    (lap total_laps : Z) (weather_data : option Weather.t)
    (options : option (list Strategy.t)) (total_cars : Z)
    (race_state rs' : Dict.t State.t) (driver_id : string) (g g' : Rng) :
  simulate_driver_lap fpow slot lap total_laps weather_data options total_cars
    race_state driver_id g = Ok (rs', g') ->
  Dict.keys rs' = Dict.keys race_state.
Proof.
  unfold simulate_driver_lap.
  destruct (Dict.get race_state driver_id) as [state |] eqn:Hget.
  2: { intro H. apply ret_inv in H as [<- _]. reflexivity. }
  apply get_Some_In_keys in Hget.
  intro H. do 4 bind_inversion H. destruct a2 as [state' rs1].
  apply _simulate_overtakes_keys in H.
  - rewrite H. destruct a1.
    + bind_inversion Hrun2. apply ret_inv in Hrun2 as [E _].
      injection E as _ <-. rewrite !keys_set_present; auto.
      rewrite keys_set_present; auto.
    + apply ret_inv in Hrun2 as [E _]. injection E as _ <-.
      now rewrite keys_set_present.
  - destruct a1.
    + bind_inversion Hrun2. apply ret_inv in Hrun2 as [E _].
      injection E as _ <-. rewrite !keys_set_present; auto.
      rewrite keys_set_present; auto.
    + apply ret_inv in Hrun2 as [E _]. injection E as _ <-.
      now rewrite keys_set_present.
Qed.

Lemma rerank_fold_keys (l : list (string * State.t)) (rs : Dict.t State.t) (n : Z) :
  Dict.keys
    (snd (fold_left
            (fun '(new_pos, rs) '(driver_id, _) =>
               ((new_pos + 1)%Z,
                match Dict.get rs driver_id with
                | Some s => Dict.set rs driver_id (State.set_position s new_pos)
                | None => rs
                end))
            l (n, rs)))
  = Dict.keys rs.
Proof.
  revert rs n. induction l as [| [k s] l IH]; intros rs n; cbn; [reflexivity |].
  rewrite IH. destruct (Dict.get rs k) as [s' |] eqn:E; [| reflexivity].
  apply keys_set_present. eapply get_Some_In_keys, E.
Qed.

Lemma rerank_keys (race_state : Dict.t State.t) :
  Dict.keys (rerank race_state) = Dict.keys race_state.
Proof. apply rerank_fold_keys. Qed.

Lemma simulate_lap_keys
    (total_laps : Z) (weather_data : option Weather.t)
    (options : option (list Strategy.t)) (total_cars : Z)
    (race_state rs' : Dict.t State.t) (lap : Z) (g g' : Rng) :
  simulate_lap fpow slot total_laps weather_data options total_cars race_state lap g
    = Ok (rs', g') ->
  Dict.keys rs' = Dict.keys race_state.
Proof.
  unfold simulate_lap. intro H. bind_inversion H.
  apply ret_inv in H as [<- _]. rewrite rerank_keys.
  eapply (for_each_invariant (fun rs => Dict.keys rs = Dict.keys race_state));
    [| reflexivity | exact Hrun].
  intros acc x ? acc' ? HP Hstep.
  apply simulate_driver_lap_keys in Hstep. congruence.
Qed.

(** Whatever class provides [calculate_degradation], an iteration that
    returns lists every input driver id exactly once. *)
Lemma finishing_order_of_returned_result
    (drivers : list Driver.t) (driver_twins : Dict.t Twin.t)
    (total_laps current_lap : Z) (weather_data : option Weather.t)
    (options : option (list Strategy.t)) (g g' : Rng) (r : SimulationResult.t) :
  _simulate_single_race_with fpow slot drivers driver_twins total_laps current_lap
    weather_data options g = Ok (r, g') ->
  NoDup (SimulationResult.finishing_order r)
  /\ forall k, In k (SimulationResult.finishing_order r) <-> In k (map Driver.id drivers).
Proof.
  unfold _simulate_single_race_with. intro H. bind_inversion H.
  apply ret_inv in H as [<- _]. cbn [SimulationResult.finishing_order].
  set (rs0 := Dict.comprehension Driver.id (initial_state driver_twins) drivers) in *.
  assert (Dict.keys a = Dict.keys rs0) as Hkeys.
  { eapply (for_each_invariant (fun rs => Dict.keys rs = Dict.keys rs0));
      [| reflexivity | exact Hrun].
    intros acc x ? acc' ? HP Hstep.
    apply simulate_lap_keys in Hstep. congruence. }
  assert (Permutation
            (map fst (Sorted.sorted snd
               (map (fun '(driver_id, state) => (driver_id, State.total_time state)) a)))
            (Dict.keys rs0)) as Hperm.
  { rewrite sorted_perm, <- Hkeys. unfold Dict.keys. rewrite map_map.
    erewrite map_ext; [reflexivity |]. now intros [k s]. }
  destruct (comprehension_keys Driver.id (initial_state driver_twins) drivers)
    as [Hnd Hin].
  fold rs0 in Hnd, Hin. split.
  - eapply Permutation_NoDup; [symmetry; exact Hperm | exact Hnd].
  - intro k. rewrite <- Hin. split; intro Hk.
    + eapply Permutation_in; [exact Hperm | exact Hk].
    + eapply Permutation_in; [symmetry; exact Hperm | exact Hk].
Qed.

End SingleRaceInvariants.

Section SingleRaceOutcome.

Import race_twin Random.

Variable fpow : Q -> Q -> Q.

Lemma range_cons (start stop : Z) :
  (start < stop)%Z -> exists rest, range start stop = start :: rest.
Proof.
  intro H. unfold range.
  destruct (Z.to_nat (stop - start)) as [| n] eqn:E; [lia |].
  cbn. rewrite Z.add_0_r. eexists. reflexivity.
Qed.

Lemma range_nil (start stop : Z) : (stop <= start)%Z -> range start stop = [].
Proof.
  intro H. unfold range. replace (Z.to_nat (stop - start)) with 0%nat by lia.
  reflexivity.
Qed.

(** As the package is written, an iteration with a driver and a lap to run
    always ends in an exception. *)
Lemma simulate_single_race_never_completes
    (drivers : list Driver.t) (driver_twins : Dict.t Twin.t)
    (total_laps current_lap : Z) (weather_data : option Weather.t)
    (options : option (list Strategy.t)) (g : Rng) :
  drivers <> [] ->
  (current_lap <= total_laps)%Z ->
  exists e,
    _simulate_single_race fpow drivers driver_twins total_laps current_lap
      weather_data options g = Raise e.
Proof.
  intros Hne Hlaps.
  destruct drivers as [| d ds]; [congruence |].
  unfold _simulate_single_race, _simulate_single_race_with.
  destruct (comprehension_head Driver.id (initial_state driver_twins) d ds)
    as (v & rest & ->).
  destruct (range_cons current_lap (total_laps + 1)) as [laps ->]; [lia |].
  destruct (simulate_driver_lap_raises fpow current_lap total_laps weather_data options
              (Z.of_nat (List.length (d :: ds))) ((Driver.id d, v) :: rest)
              (Driver.id d) v g) as [e He].
  { cbn. now rewrite String.eqb_refl. }
  exists e. apply bind_raise. cbn [for_each]. apply bind_raise.
  unfold simulate_lap. apply bind_raise. cbn [Dict.keys map fst for_each].
  apply bind_raise. exact He.
Qed.

(** Only an iteration with no lap left to run returns: the finishing order
    is then the order of first appearance in the input. *)
Lemma simulate_single_race_without_laps
    (drivers : list Driver.t) (driver_twins : Dict.t Twin.t)
    (total_laps current_lap : Z) (weather_data : option Weather.t)
    (options : option (list Strategy.t)) (g : Rng) :
  (total_laps < current_lap)%Z ->
  exists r,
    _simulate_single_race fpow drivers driver_twins total_laps current_lap
      weather_data options g = Ok (r, g).
Proof.
  intro H. unfold _simulate_single_race, _simulate_single_race_with.
  rewrite range_nil by lia. cbn [for_each]. eexists. reflexivity.
Qed.

End SingleRaceOutcome.

(** ** RaceTwinSimulator: aggregation of finishing positions *)

Section MapM.

Context {A B : Type} (f : A -> result B).

Lemma mapM_total (xs : list A) :
  (forall x, In x xs -> exists y, f x = Ok y) -> exists ys, mapM f xs = Ok ys.
Proof.
  induction xs as [| x xs IH]; intro H; cbn.
  - now exists [].
  - destruct (H x (or_introl eq_refl)) as [y ->].
    destruct IH as [ys ->]; [intros; apply H; now right |].
    cbn. now exists (y :: ys).
Qed.

Lemma mapM_In (xs : list A) (ys : list B) (y : B) :
  mapM f xs = Ok ys -> In y ys -> exists x, In x xs /\ f x = Ok y.
Proof.
  revert ys. induction xs as [| x xs IH]; intros ys H Hin; cbn in H.
  - injection H as <-. contradiction.
  - destruct (f x) as [y0 |] eqn:E; [| discriminate]. cbn in H.
    destruct (mapM f xs) as [ys0 |]; [| discriminate]. cbn in H.
    injection H as <-. destruct Hin as [<- | Hin].
    + exists x. split; [now left | exact E].
    + destruct (IH ys0 eq_refl Hin) as (x' & Hx' & E'). exists x'. split; [now right | exact E'].
Qed.

End MapM.

Section Aggregation.

Import race_twin.

Lemma record_position_len (dp : Dict.t (list Z)) (pos : Z) (k id : string) :
  lenof (Dict.get (record_position dp (pos, k)) id)
  = (lenof (Dict.get dp id) + (if string_dec k id then 1 else 0))%nat.
Proof.
  cbn. destruct (string_dec k id) as [-> | Hne].
  - rewrite get_set_same. cbn. rewrite length_app. cbn.
    destruct (Dict.get dp id); reflexivity.
  - rewrite get_set_other by congruence. lia.
Qed.

Lemma record_positions_len (ps : list (Z * string)) (dp : Dict.t (list Z)) (id : string) :
  lenof (Dict.get (fold_left record_position ps dp) id)
  = (lenof (Dict.get dp id) + count_occ string_dec (map snd ps) id)%nat.
Proof.
  revert dp. induction ps as [| [pos k] ps IH]; intro dp; cbn [fold_left map snd count_occ].
  - lia.
  - rewrite IH, record_position_len. destruct (string_dec k id); lia.
Qed.

Lemma record_positions_keys (ps : list (Z * string)) (dp : Dict.t (list Z)) :
  NoDup (Dict.keys dp) ->
  NoDup (Dict.keys (fold_left record_position ps dp))
  /\ forall k, In k (Dict.keys (fold_left record_position ps dp))
               -> In k (Dict.keys dp) \/ In k (map snd ps).
Proof.
  revert dp. induction ps as [| [pos k0] ps IH]; intros dp Hnd; cbn [fold_left map snd].
  - split; [exact Hnd | tauto].
  - destruct (IH (record_position dp (pos, k0))) as [H1 H2].
    { cbn. now apply NoDup_keys_set. }
    split; [exact H1 |]. intros k Hk. apply H2 in Hk as [Hk | Hk].
    + cbn in Hk. apply In_keys_set in Hk as [-> | Hk]; [right; now left | now left].
    + right. now right.
Qed.

Lemma enumerate1_snd {X : Type} (xs : list X) : map snd (enumerate1 xs) = xs.
Proof.
  unfold enumerate1. generalize 1%nat as n.
  induction xs as [| x xs IH]; intro n; cbn; [reflexivity |].
  f_equal. apply IH.
Qed.

(** After the first loop every driver holds one position per result that
    lists the driver. *)
Lemma record_results_len (results : list SimulationResult.t)
    (dp : Dict.t (list Z)) (id : string) :
  lenof (Dict.get (fold_left record_result results dp) id)
  = (lenof (Dict.get dp id)
     + list_sum (map (fun r => count_occ string_dec (SimulationResult.finishing_order r) id)
                     results))%nat.
Proof.
  revert dp. induction results as [| r results IH]; intro dp;
    cbn [fold_left map list_sum fold_right].
  - lia.
  - rewrite IH. unfold record_result.
    rewrite record_positions_len, enumerate1_snd.
    fold (list_sum (map (fun r0 => count_occ string_dec
                                     (SimulationResult.finishing_order r0) id) results)).
    lia.
Qed.

Lemma collect_positions_len (results : list SimulationResult.t) (id : string) :
  lenof (Dict.get (collect_positions results) id)
  = list_sum (map (fun r => count_occ string_dec (SimulationResult.finishing_order r) id)
                  results).
Proof. unfold collect_positions. now rewrite record_results_len. Qed.

Lemma record_results_keys (results : list SimulationResult.t) (dp : Dict.t (list Z)) :
  NoDup (Dict.keys dp) ->
  NoDup (Dict.keys (fold_left record_result results dp))
  /\ forall k, In k (Dict.keys (fold_left record_result results dp)) ->
               In k (Dict.keys dp)
               \/ exists r, In r results /\ In k (SimulationResult.finishing_order r).
Proof.
  revert dp. induction results as [| r results IH]; intros dp Hnd; cbn [fold_left].
  - split; [exact Hnd | tauto].
  - destruct (record_positions_keys
                (enumerate1 (SimulationResult.finishing_order r)) dp Hnd) as [H1 H2].
    destruct (IH _ H1) as [H3 H4]. split; [exact H3 |].
    intros k Hk. apply H4 in Hk as [Hk | (r' & Hr' & Hk)].
    + apply H2 in Hk as [Hk | Hk]; [now left |].
      rewrite enumerate1_snd in Hk. right. exists r. split; [now left | exact Hk].
    + right. exists r'. split; [now right | exact Hk].
Qed.

Lemma collect_positions_keys (results : list SimulationResult.t) :
  NoDup (Dict.keys (collect_positions results))
  /\ forall k, In k (Dict.keys (collect_positions results)) ->
               exists r, In r results /\ In k (SimulationResult.finishing_order r).
Proof.
  destruct (record_results_keys results [] (NoDup_nil _)) as [H1 H2].
  split; [exact H1 |].
  intros k Hk. apply H2 in Hk as [[] | Hk]. exact Hk.
Qed.

Lemma In_get {V : Type} (d : Dict.t V) (k : string) (v : V) :
  NoDup (Dict.keys d) -> In (k, v) d -> Dict.get d k = Some v.
Proof.
  induction d as [| [k' v'] d IH]; cbn; [contradiction |].
  intros Hnd [E | Hin].
  - injection E as -> ->. now rewrite String.eqb_refl.
  - inversion Hnd as [| ? ? Hk' Hnd']; subst.
    destruct (String.eqb k k') eqn:E.
    + apply String.eqb_eq in E. subst. exfalso. apply Hk'.
      change k' with (fst (k', v)). now apply in_map.
    + now apply IH.
Qed.

(** ** Counter *)

Lemma counter_add_total (c : Counter.t) (k : Z) :
  counter_total (Counter.add c k) = (counter_total c + 1)%Z.
Proof.
  unfold counter_total. induction c as [| [k' n] c IH]; cbn; [reflexivity |].
  destruct (k =? k')%Z; cbn; lia.
Qed.

(** The counts of a [Counter] add up to the number of items counted. *)
Lemma counter_of_list_total (l : list Z) :
  counter_total (Counter.of_list l) = Z.of_nat (List.length l).
Proof.
  unfold Counter.of_list.
  assert (forall c, counter_total (fold_left Counter.add l c)
                    = (counter_total c + Z.of_nat (List.length l))%Z) as H.
  { induction l as [| x l IH]; intro c; cbn [fold_left List.length].
    - lia.
    - rewrite IH, counter_add_total. lia. }
  rewrite H. reflexivity.
Qed.

Lemma counter_add_nonempty (c : Counter.t) (k : Z) : Counter.add c k <> [].
Proof. destruct c as [| [k' n] c]; cbn; [| destruct (k =? k')%Z]; discriminate. Qed.

Lemma counter_fold_nonempty (l : list Z) (c : Counter.t) :
  c <> [] -> fold_left Counter.add l c <> [].
Proof.
  revert c. induction l as [| x l IH]; intros c Hc; cbn; [exact Hc |].
  apply IH, counter_add_nonempty.
Qed.

Lemma counter_of_list_nonempty (l : list Z) : l <> [] -> Counter.of_list l <> [].
Proof.
  unfold Counter.of_list. destruct l as [| x l]; [congruence |]. intros _. cbn.
  apply counter_fold_nonempty. discriminate.
Qed.

End Aggregation.

Section MapMFacts.

Context {A B C : Type} (f : A -> result B) (g : B -> C) (h : A -> C).

Lemma mapM_map (xs : list A) (ys : list B) :
  (forall x y, f x = Ok y -> g y = h x) ->
  mapM f xs = Ok ys -> map g ys = map h xs.
Proof.
  intro Hf. revert ys. induction xs as [| x xs IH]; intros ys H; cbn in H.
  - injection H as <-. reflexivity.
  - destruct (f x) as [y |] eqn:E; [| discriminate]. cbn in H.
    destruct (mapM f xs) as [ys0 |]; [| discriminate]. cbn in H.
    injection H as <-. cbn [map]. rewrite (Hf _ _ E), (IH ys0 eq_refl). reflexivity.
Qed.

End MapMFacts.

Section PositionCounts.

Import race_twin.

Lemma record_position_count
    (dp : Dict.t (list Z)) (p : Z * string) (id : string) (pos : Z) :
  count_occ Z.eq_dec (or_default (Dict.get (record_position dp p) id) []) pos
  = (count_occ Z.eq_dec (or_default (Dict.get dp id) []) pos
     + (if listed_at pos id p then 1 else 0))%nat.
Proof.
  destruct p as [p0 k]. unfold listed_at. cbn [record_position fst snd].
  destruct (String.eqb k id) eqn:E.
  - apply String.eqb_eq in E. subst k. rewrite get_set_same. cbn [or_default].
    rewrite count_occ_app. cbn [count_occ].
    destruct (Z.eq_dec p0 pos) as [-> | Hne].
    + rewrite Z.eqb_refl. reflexivity.
    + apply Z.eqb_neq in Hne. rewrite Hne. reflexivity.
  - apply String.eqb_neq in E. rewrite get_set_other by congruence.
    rewrite andb_false_r. lia.
Qed.

Lemma record_positions_count
    (ps : list (Z * string)) (dp : Dict.t (list Z)) (id : string) (pos : Z) :
  count_occ Z.eq_dec (or_default (Dict.get (fold_left record_position ps dp) id) []) pos
  = (count_occ Z.eq_dec (or_default (Dict.get dp id) []) pos
     + List.length (filter (listed_at pos id) ps))%nat.
Proof.
  revert dp. induction ps as [| p ps IH]; intro dp; cbn [fold_left filter].
  - cbn. lia.
  - rewrite IH, record_position_count.
    destruct (listed_at pos id p); cbn [List.length]; lia.
Qed.

Lemma record_results_count
    (results : list SimulationResult.t) (dp : Dict.t (list Z)) (id : string) (pos : Z) :
  count_occ Z.eq_dec (or_default (Dict.get (fold_left record_result results dp) id) []) pos
  = (count_occ Z.eq_dec (or_default (Dict.get dp id) []) pos
     + finishes_at results id pos)%nat.
Proof.
  unfold finishes_at.
  revert dp. induction results as [| r results IH]; intro dp;
    cbn [fold_left map list_sum fold_right].
  - lia.
  - rewrite IH. unfold record_result. rewrite record_positions_count.
    fold (list_sum (map (fun r0 =>
                           List.length (filter (listed_at pos id)
                                          (enumerate1 (SimulationResult.finishing_order r0))))
                        results)).
    lia.
Qed.

(** The positions collected for a driver hold [pos] as often as the
    results list the driver there. *)
Lemma collect_positions_count
    (results : list SimulationResult.t) (id : string) (pos : Z) :
  count_occ Z.eq_dec (or_default (Dict.get (collect_positions results) id) []) pos
  = finishes_at results id pos.
Proof. unfold collect_positions. rewrite record_results_count. reflexivity. Qed.

(** *** The entries of a [Counter] *)

Let count_of (c : Counter.t) (k : Z) : Z :=
  match find (fun e => (fst e =? k)%Z) c with
  | Some e => snd e
  | None => 0%Z
  end.

Lemma count_of_add (c : Counter.t) (k k' : Z) :
  count_of (Counter.add c k) k'
  = (count_of c k' + (if (k' =? k)%Z then 1 else 0))%Z.
Proof.
  unfold count_of. induction c as [| [k0 n0] c IH]; cbn [Counter.add find fst snd].
  - rewrite (Z.eqb_sym k k'). destruct (k' =? k)%Z; reflexivity.
  - destruct (k =? k0)%Z eqn:E; cbn [find fst snd].
    + apply Z.eqb_eq in E. subst k0.
      rewrite (Z.eqb_sym k k'). destruct (k' =? k)%Z; cbn [snd];
        [lia | rewrite Z.add_0_r; reflexivity].
    + destruct (k0 =? k')%Z eqn:E'.
      * apply Z.eqb_eq in E'. subst k0.
        rewrite (Z.eqb_sym k' k), E. cbn [snd]. lia.
      * exact IH.
Qed.

Lemma count_of_fold (l : list Z) (c : Counter.t) (k : Z) :
  count_of (fold_left Counter.add l c) k
  = (count_of c k + Z.of_nat (count_occ Z.eq_dec l k))%Z.
Proof.
  revert c. induction l as [| x l IH]; intro c; cbn [fold_left count_occ].
  - lia.
  - rewrite IH, count_of_add. destruct (Z.eq_dec x k) as [-> | Hne].
    + rewrite Z.eqb_refl. lia.
    + assert ((k =? x)%Z = false) as -> by (apply Z.eqb_neq; congruence). lia.
Qed.

Lemma counter_add_key (c : Counter.t) (k k' : Z) :
  In k' (map fst (Counter.add c k)) -> k' = k \/ In k' (map fst c).
Proof.
  induction c as [| [k0 n0] c IH]; cbn [Counter.add map fst In].
  - intros [<- | []]. now left.
  - destruct (k =? k0)%Z; cbn [map fst In].
    + intros [<- | H]; auto.
    + intros [<- | H]; auto. destruct (IH H); auto.
Qed.

Lemma counter_add_NoDup (c : Counter.t) (k : Z) :
  NoDup (map fst c) -> NoDup (map fst (Counter.add c k)).
Proof.
  induction c as [| [k0 n0] c IH]; cbn [Counter.add map fst]; intro H.
  - repeat constructor. intros [].
  - inversion H as [| ? ? Hk0 Hc]; subst.
    destruct (k =? k0)%Z eqn:E; cbn [map fst].
    + constructor; assumption.
    + constructor; [| now apply IH].
      intro Hin. apply counter_add_key in Hin as [-> | Hin]; [| contradiction].
      rewrite Z.eqb_refl in E. discriminate.
Qed.

Lemma counter_of_list_NoDup (l : list Z) : NoDup (map fst (Counter.of_list l)).
Proof.
  unfold Counter.of_list.
  assert (forall c, NoDup (map fst c) -> NoDup (map fst (fold_left Counter.add l c))) as H.
  { induction l as [| x l IH]; intros c Hc; cbn [fold_left]; [exact Hc |].
    apply IH, counter_add_NoDup, Hc. }
  apply H. constructor.
Qed.

Lemma count_of_In (c : Counter.t) (k n : Z) :
  NoDup (map fst c) -> In (k, n) c -> count_of c k = n.
Proof.
  unfold count_of. induction c as [| [k0 n0] c IH]; cbn [map fst In find snd];
    intros Hnd Hin; [contradiction |].
  inversion Hnd as [| ? ? Hk0 Hc]; subst.
  destruct Hin as [E | Hin].
  - injection E as -> ->. rewrite Z.eqb_refl. reflexivity.
  - destruct (k0 =? k)%Z eqn:E.
    + apply Z.eqb_eq in E. subst k0. exfalso. apply Hk0.
      change k with (fst (k, n)). now apply in_map.
    + now apply IH.
Qed.

Lemma count_of_positive (c : Counter.t) (k : Z) :
  (0 < count_of c k)%Z -> In k (map fst c).
Proof.
  unfold count_of. destruct (find (fun e => (fst e =? k)%Z) c) as [e |] eqn:E; [| lia].
  intros _. apply find_some in E as [Hin He]. apply Z.eqb_eq in He. subst k.
  now apply in_map.
Qed.

(** A [Counter] holds every item once, with the number of its occurrences. *)
Lemma counter_of_list_entries (l : list Z) :
  NoDup (map fst (Counter.of_list l))
  /\ (forall k n, In (k, n) (Counter.of_list l) ->
        n = Z.of_nat (count_occ Z.eq_dec l k))
  /\ (forall k, In k l -> In k (map fst (Counter.of_list l))).
Proof.
  pose proof (counter_of_list_NoDup l) as Hnd.
  assert (forall k, count_of (Counter.of_list l) k = Z.of_nat (count_occ Z.eq_dec l k))
    as Hcount.
  { intro k. unfold Counter.of_list. rewrite count_of_fold. reflexivity. }
  split; [exact Hnd | split].
  - intros k n Hin. rewrite <- Hcount. symmetry. now apply count_of_In.
  - intros k Hin. apply count_of_positive. rewrite Hcount.
    apply (count_occ_In Z.eq_dec) in Hin. lia.
Qed.

End PositionCounts.

Section Distribution.

Import race_twin.

(** A float rounding within a relative error of [2^-53]. *)
Variable rnd : Q -> Q.
Hypothesis rnd_model : rounds_to_nearest rnd.

Lemma truediv_rounded_nonzero (x y : Q) :
  ~ y == 0 -> truediv_rounded rnd x y = Ok (rnd (x / y)).
Proof.
  intro H. unfold truediv_rounded. destruct (Qeq_bool y 0) eqn:E; [| reflexivity].
  apply Qeq_bool_iff in E. contradiction.
Qed.

Lemma position_shares (total_sims : Z) (c : Counter.t) :
  total_sims <> 0%Z ->
  mapM (position_share rnd total_sims) c
  = Ok (map (fun e => (fst e, rnd (inject_Z (snd e) / inject_Z total_sims))) c).
Proof.
  intro Hn. induction c as [| [pos n] c IH]; cbn; [reflexivity |].
  rewrite truediv_rounded_nonzero.
  - cbn. rewrite IH. reflexivity.
  - unfold Qeq. cbn. lia.
Qed.

(** *** Counts are positive, so a counter has no more entries than items *)

Lemma counter_add_positive (c : Counter.t) (k : Z) :
  Forall (fun e => (1 <= snd e)%Z) c ->
  Forall (fun e => (1 <= snd e)%Z) (Counter.add c k).
Proof.
  induction 1 as [| [k' n] c Hn Hc IH]; cbn.
  - repeat constructor. cbn. lia.
  - destruct (k =? k')%Z; constructor; cbn in *; auto; lia.
Qed.

Lemma counter_of_list_positive (l : list Z) :
  Forall (fun e => (1 <= snd e)%Z) (Counter.of_list l).
Proof.
  unfold Counter.of_list.
  assert (forall c, Forall (fun e => (1 <= snd e)%Z) c ->
                    Forall (fun e => (1 <= snd e)%Z) (fold_left Counter.add l c)) as H.
  { induction l as [| x l IH]; intros c Hc; cbn; [exact Hc |].
    apply IH, counter_add_positive, Hc. }
  apply H. constructor.
Qed.

(** *** The error of a rounded sum of rounded shares

    The shares [c/n] are exact values in [0, 1] that add up to at most 1;
    each is rounded once by the division and the running sum once per
    addition.  After [j] terms the float sum is within [3 j u] of the exact
    one, as long as [3 j u <= 1]. *)

Let u : Q := unit_roundoff.

Lemma rnd_error (x bound : Q) :
  Qabs x <= bound -> - (u * bound) <= rnd x - x <= u * bound.
Proof.
  intro H. pose proof (rnd_model x) as Hr. apply Qabs_Qle_condition in Hr.
  unfold u, unit_roundoff in *. lra.
Qed.

Lemma fsum_step_error (acc exact x : Q) (j : Q) :
  0 <= j -> 3 * j * u <= 1 # 2 ->
  0 <= exact -> 0 <= x -> exact + x <= 1 ->
  Qabs (acc - exact) <= 3 * j * u ->
  Qabs (rnd (acc + rnd x) - (exact + x)) <= 3 * (j + 1) * u.
Proof.
  intros Hj Hsmall He Hx Hsum Hacc.
  apply Qabs_Qle_condition in Hacc. apply Qabs_Qle_condition.
  pose proof (rnd_error x x) as Hrx.
  assert (Qabs x <= x) as Hax by (rewrite Qabs_pos by exact Hx; lra).
  specialize (Hrx Hax).
  pose proof (rnd_error (acc + rnd x) (exact + x + 3 * j * u + u * x)) as Hrs.
  assert (Qabs (acc + rnd x) <= exact + x + 3 * j * u + u * x) as Has.
  { apply Qabs_Qle_condition. unfold u, unit_roundoff in *. lra. }
  specialize (Hrs Has).
  unfold u, unit_roundoff in *. lra.
Qed.

Lemma qsum_nonneg (xs : list Q) : Forall (fun x => 0 <= x) xs -> 0 <= qsum xs.
Proof.
  induction 1 as [| y l Hy _ IHl]; cbn; [lra |]. fold (qsum l). lra.
Qed.

Lemma fsum_error (shares : list Q) (acc exact : Q) (j : nat) :
  Forall (fun x => 0 <= x) shares ->
  0 <= exact -> exact + qsum shares <= 1 ->
  3 * inject_Z (Z.of_nat (j + List.length shares)) * u <= 1 # 2 ->
  Qabs (acc - exact) <= 3 * inject_Z (Z.of_nat j) * u ->
  Qabs (fold_left (fun acc x => rnd (acc + x)) (map rnd shares) acc
        - (exact + qsum shares))
  <= 3 * inject_Z (Z.of_nat (j + List.length shares)) * u.
Proof.
  revert acc exact j.
  induction shares as [| x shares IH]; intros acc exact j Hpos He Hsum Hsmall Hacc.
  - cbn [map fold_left qsum fold_right List.length]. rewrite Nat.add_0_r.
    assert (acc - (exact + 0) == acc - exact) as -> by ring. exact Hacc.
  - inversion Hpos as [| ? ? Hx Hpos']; subst.
    pose proof (qsum_nonneg shares Hpos') as Hq.
    cbn [map fold_left List.length] in Hsmall |- *.
    replace (j + S (List.length shares))%nat with (S j + List.length shares)%nat in *
      by lia.
    assert (qsum (x :: shares) == x + qsum shares) as Hcons by reflexivity.
    rewrite Hcons in *.
    assert (exact + (x + qsum shares) == (exact + x) + qsum shares) as -> by ring.
    assert (inject_Z (Z.of_nat (S j)) == inject_Z (Z.of_nat j) + 1) as HSj.
    { rewrite Nat2Z.inj_succ. unfold Z.succ. rewrite inject_Z_plus. reflexivity. }
    assert (0 <= inject_Z (Z.of_nat j)) as Hj0.
    { change 0 with (inject_Z 0). rewrite <- Zle_Qle. lia. }
    assert (inject_Z (Z.of_nat (S j)) <= inject_Z (Z.of_nat (S j + List.length shares)))
      as Hmono.
    { rewrite <- Zle_Qle. lia. }
    assert (3 * inject_Z (Z.of_nat j) * u <= 1 # 2) as Hsmall_j.
    { rewrite HSj in Hmono. unfold u, unit_roundoff in *. lra. }
    apply IH.
    + exact Hpos'.
    + lra.
    + lra.
    + exact Hsmall.
    + setoid_replace (3 * inject_Z (Z.of_nat (S j)) * u)
        with (3 * (inject_Z (Z.of_nat j) + 1) * u) by (rewrite HSj; reflexivity).
      apply fsum_step_error; try assumption; lra.
Qed.

Lemma qsum_exact_shares (t : Q) (c : Counter.t) :
  ~ t == 0 ->
  qsum (map (fun e => inject_Z (snd e) / t) c) == inject_Z (counter_total c) / t.
Proof.
  intro Ht. unfold counter_total.
  induction c as [| [pos n] c IH]; cbn [map snd qsum fold_right].
  - field. exact Ht.
  - fold (qsum (map (fun e : Z * Z => inject_Z (snd e) / t) c)).
    rewrite IH, inject_Z_plus. field. exact Ht.
Qed.

Lemma counter_length_le_total (c : Counter.t) :
  Forall (fun e => (1 <= snd e)%Z) c ->
  (Z.of_nat (List.length c) <= counter_total c)%Z.
Proof.
  unfold counter_total. induction 1 as [| [k n] c Hn Hc IH]; cbn [List.length map fold_right snd].
  - lia.
  - cbn in Hn. lia.
Qed.

(** The float sum of the distribution of a driver with one position per
    simulation. *)
Lemma finishing_prob_of_full_history (id : string) (positions : list Z) (n : nat) :
  n <> 0%nat -> (Z.of_nat n <= 1000000)%Z ->
  List.length positions = n ->
  exists e,
    finishing_prob rnd (Z.of_nat n) (id, positions) = Ok e
    /\ Qabs (fsum rnd (map snd (FinishingProb.position_distribution e)) - 1)
       <= 1 # 1000000.
Proof.
  intros Hn Hbig Hlen. unfold finishing_prob.
  destruct (Counter.most_common1 (Counter.of_list positions)) as [| mc rest] eqn:Emc.
  { exfalso. unfold Counter.most_common1 in Emc.
    destruct (Counter.of_list positions) eqn:Ec; [| discriminate].
    apply (counter_of_list_nonempty positions); [| exact Ec].
    intros ->. cbn in Hlen. congruence. }
  cbn [bind]. rewrite truediv_rounded_nonzero by (unfold Qeq; cbn; lia).
  cbn [bind]. rewrite position_shares by lia. cbn [bind].
  eexists. split; [reflexivity |]. cbn [FinishingProb.position_distribution].
  set (c := Counter.of_list positions).
  set (t := inject_Z (Z.of_nat n)).
  assert (~ t == 0) as Ht by (unfold t, Qeq; cbn; lia).
  assert (0 < t) as Htpos.
  { unfold t. change 0 with (inject_Z 0). rewrite <- Zlt_Qlt. lia. }
  pose proof (counter_of_list_positive positions) as Hpos. fold c in Hpos.
  pose proof (counter_length_le_total c Hpos) as Hlen_c.
  pose proof (counter_of_list_total positions) as Htot. fold c in Htot.
  rewrite Hlen in Htot.
  assert (qsum (map (fun e => inject_Z (snd e) / t) c) == 1) as Hexact.
  { rewrite qsum_exact_shares by exact Ht. rewrite Htot. fold t. field. exact Ht. }
  replace (map snd (map (fun e : Z * Z => (fst e, rnd (inject_Z (snd e) / t))) c))
    with (map rnd (map (fun e : Z * Z => inject_Z (snd e) / t) c))
    by (rewrite !map_map; reflexivity).
  pose proof (fsum_error (map (fun e : Z * Z => inject_Z (snd e) / t) c) 0 0 0) as Herr.
  rewrite length_map in Herr. cbn [Nat.add] in Herr.
  assert (inject_Z (Z.of_nat (List.length c)) <= 1000000) as Hk.
  { change 1000000 with (inject_Z 1000000). rewrite <- Zle_Qle. lia. }
  assert (0 < u /\ u <= 1 # 3000000000000) as [Hu Hu']
    by (unfold u, unit_roundoff; split; [reflexivity | discriminate]).
  assert (0 <= inject_Z (Z.of_nat (List.length c))) as Hk0.
  { change 0 with (inject_Z 0). rewrite <- Zle_Qle. lia. }
  unfold fsum.
  assert (Qabs
            (fold_left (fun acc x => rnd (acc + x))
               (map rnd (map (fun e : Z * Z => inject_Z (snd e) / t) c)) 0
             - (0 + qsum (map (fun e : Z * Z => inject_Z (snd e) / t) c)))
          <= 3 * inject_Z (Z.of_nat (List.length c)) * u) as Hfinal.
  { apply Herr.
    - apply Forall_map. eapply Forall_impl; [| exact Hpos].
      intros [k m] Hm. cbn in *. apply Qle_shift_div_l; [exact Htpos |].
      rewrite Qmult_0_l. change 0 with (inject_Z 0). rewrite <- Zle_Qle. lia.
    - lra.
    - rewrite Hexact. lra.
    - unfold u, unit_roundoff in *. lra.
    - cbn. rewrite Qmult_0_r, Qmult_0_l. discriminate. }
  rewrite Hexact in Hfinal.
  apply Qabs_Qle_condition in Hfinal. apply Qabs_Qle_condition.
  unfold u, unit_roundoff in *. lra.
Qed.

Lemma list_sum_ones {X : Type} (f : X -> nat) (xs : list X) :
  (forall x, In x xs -> f x = 1%nat) -> list_sum (map f xs) = List.length xs.
Proof.
  induction xs as [| x xs IH]; intro H; [reflexivity |].
  cbn [map list_sum fold_right List.length]. fold (list_sum (map f xs)).
  rewrite IH by (intros; apply H; now right).
  rewrite (H x) by now left. reflexivity.
Qed.

(** The entry of a driver: its id, and one share per position counted. *)
Lemma finishing_prob_entry
    (total_sims : Z) (id : string) (positions : list Z) (e : FinishingProb.t) :
  total_sims <> 0%Z ->
  finishing_prob rnd total_sims (id, positions) = Ok e ->
  FinishingProb.driver_id e = id
  /\ FinishingProb.position_distribution e
     = map (fun c => (fst c, rnd (inject_Z (snd c) / inject_Z total_sims)))
           (Counter.of_list positions).
Proof.
  intros Hn. unfold finishing_prob.
  destruct (Counter.most_common1 (Counter.of_list positions)) as [| mc rest];
    [discriminate |].
  cbn [bind]. rewrite truediv_rounded_nonzero by (unfold Qeq; cbn; lia).
  cbn [bind]. rewrite position_shares by exact Hn. cbn [bind].
  intro H. injection H as <-. split; reflexivity.
Qed.

(** C4: when every simulation result lists the same drivers, each exactly
    once, the aggregation returns one entry per driver, and the position
    distribution of a driver holds, for every position the driver finished
    in, the float quotient of the number of results with the driver in that
    position by the number of results.  Summed in float arithmetic, the
    distribution is within 1e-6 of 1.  Up to a million results are covered;
    one simulate-race call makes at most 500. *)
Theorem position_distribution_sums_to_one
    (results : list SimulationResult.t) (ids : list string) :
  (Z.of_nat (List.length results) <= 1000000)%Z ->
  (forall r, In r results ->
     NoDup (SimulationResult.finishing_order r)
     /\ forall k, In k (SimulationResult.finishing_order r) <-> In k ids) ->
  exists probs,
    _analyze_finishing_positions rnd results = Ok probs
    /\ NoDup (map FinishingProb.driver_id probs)
    /\ (results <> [] ->
        forall k, In k ids -> In k (map FinishingProb.driver_id probs))
    /\ forall e, In e probs ->
         let distribution := FinishingProb.position_distribution e in
         let finishes := finishes_at results (FinishingProb.driver_id e) in
         In (FinishingProb.driver_id e) ids
         /\ NoDup (map fst distribution)
         /\ (forall pos, In pos (map fst distribution) <-> (1 <= finishes pos)%nat)
         /\ (forall pos share,
               In (pos, share) distribution ->
               share = rnd (inject_Z (Z.of_nat (finishes pos))
                            / inject_Z (Z.of_nat (List.length results))))
         /\ Qabs (fsum rnd (map snd distribution) - 1) <= 1 # 1000000.
Proof.
  intros Hbig Hres. unfold _analyze_finishing_positions.
  destruct (collect_positions_keys results) as [Hnd Hkeys].
  assert (forall id positions,
            In (id, positions) (collect_positions results) ->
            results <> []
            /\ In id ids
            /\ List.length positions = List.length results
            /\ forall pos, count_occ Z.eq_dec positions pos = finishes_at results id pos)
    as Hpositions.
  { intros id positions Hin.
    pose proof (In_get _ _ _ Hnd Hin) as Hget.
    destruct (Hkeys id) as (r0 & Hr0 & Hid).
    { eapply get_Some_In_keys, Hget. }
    split; [intros ->; contradiction |].
    split; [apply (Hres r0 Hr0), Hid |].
    split.
    - pose proof (collect_positions_len results id) as Hl.
      rewrite Hget in Hl. cbn [lenof] in Hl. rewrite Hl.
      apply list_sum_ones. intros r Hr.
      destruct (Hres r Hr) as [Hnd_r Hin_r].
      apply NoDup_count_occ'; [exact Hnd_r |].
      apply Hin_r. apply (Hres r0 Hr0). exact Hid.
    - intro pos. rewrite <- collect_positions_count, Hget. reflexivity. }
  assert (forall entry, In entry (collect_positions results) ->
            exists e, finishing_prob rnd (Z.of_nat (List.length results)) entry = Ok e
                      /\ Qabs (fsum rnd (map snd (FinishingProb.position_distribution e)) - 1)
                         <= 1 # 1000000)
    as Hentry.
  { intros [id positions] Hin.
    destruct (Hpositions id positions Hin) as (Hne & _ & Hlen & _).
    apply finishing_prob_of_full_history; [| exact Hbig | exact Hlen].
    destruct results; [congruence | discriminate]. }
  destruct (mapM_total (finishing_prob rnd (Z.of_nat (List.length results)))
              (collect_positions results)) as [probs Hprobs].
  { intros entry Hin. destruct (Hentry entry Hin) as (e & He & _). now exists e. }
  assert (map FinishingProb.driver_id probs = Dict.keys (collect_positions results))
    as Hids.
  { apply (mapM_map _ _ fst _ _) with (2 := Hprobs).
    intros [id positions] y Hy.
    destruct results as [| r0 rs] eqn:Er.
    - unfold finishing_prob in Hy. cbn in Hy.
      destruct (Counter.most_common1 (Counter.of_list positions)); [discriminate |].
      cbn in Hy. discriminate.
    - apply (finishing_prob_entry _ id positions y) in Hy; [apply Hy |].
      cbn [List.length]. lia. }
  rewrite Hprobs. cbn [bind]. eexists. split; [reflexivity |].
  pose proof (sorted_perm (fun x => inject_Z (FinishingProb.position x)) probs) as Hperm.
  split; [| split].
  - eapply Permutation_NoDup; [apply Permutation_map, Permutation_sym, Hperm |].
    rewrite Hids. exact Hnd.
  - intros Hne k Hk.
    eapply Permutation_in; [apply Permutation_map, Permutation_sym, Hperm |].
    rewrite Hids.
    destruct results as [| r0 rs] eqn:Er; [congruence |]. rewrite <- Er in *.
    assert (In r0 results) as Hr0 by (rewrite Er; now left).
    pose proof (collect_positions_len results k) as Hl.
    assert (list_sum (map (fun r => count_occ string_dec
                                      (SimulationResult.finishing_order r) k) results)
            = List.length results) as Hsum.
    { apply list_sum_ones. intros r Hr. destruct (Hres r Hr) as [Hnd_r Hin_r].
      apply NoDup_count_occ'; [exact Hnd_r |]. now apply Hin_r. }
    rewrite Hsum in Hl.
    destruct (Dict.get (collect_positions results) k) as [l |] eqn:Hget.
    + eapply get_Some_In_keys, Hget.
    + cbn [lenof] in Hl. rewrite Er in Hl. discriminate.
  - intros e He. eapply Permutation_in in He; [| exact Hperm].
    destruct (mapM_In _ _ _ _ Hprobs He) as ([id positions] & Hin & Hf).
    destruct (Hentry _ Hin) as (e' & He' & Hsum).
    assert (e' = e) as -> by congruence.
    destruct (Hpositions id positions Hin) as (Hne & Hid & Hlen & Hcount).
    destruct (finishing_prob_entry (Z.of_nat (List.length results)) id positions e)
      as [Ed Edist]; [| exact Hf |].
    { destruct results; [congruence | cbn [List.length]; lia]. }
    destruct (counter_of_list_entries positions) as (Hcnd & Hcn & Hck).
    cbv zeta. rewrite Ed.
    assert (map fst (FinishingProb.position_distribution e)
            = map fst (Counter.of_list positions)) as Efst.
    { rewrite Edist, map_map. reflexivity. }
    split; [exact Hid |]. split; [rewrite Efst; exact Hcnd |]. split; [| split].
    + intro pos. rewrite Efst, <- Hcount. split.
      * intro Hp. apply in_map_iff in Hp as ([k n] & <- & Hkn). cbn [fst].
        pose proof (counter_of_list_positive positions) as Hpos.
        rewrite Forall_forall in Hpos. specialize (Hpos _ Hkn). cbn [snd] in Hpos.
        rewrite (Hcn _ _ Hkn) in Hpos. lia.
      * intro Hp. apply Hck. apply (count_occ_In Z.eq_dec). lia.
    + intros pos share Hp. rewrite Edist in Hp.
      apply in_map_iff in Hp as ([k n] & E & Hkn). cbn [fst snd] in E.
      injection E as -> <-. rewrite (Hcn _ _ Hkn), Hcount. reflexivity.
    + exact Hsum.
Qed.

End Distribution.

(** The results of the iterations of one simulate-race call list the same
    drivers, each exactly once: the premise of the property above. *)
Lemma results_of_one_call_share_drivers
    (fpow : Q -> Q -> Q) (slot : option (Z -> string -> option Q -> Q))
    (drivers : list race_twin.Driver.t) (driver_twins : Dict.t race_twin.Twin.t)
    (total_laps current_lap : Z) (weather_data : option race_twin.Weather.t)
    (options : option (list race_twin.Strategy.t))
    (results : list race_twin.SimulationResult.t) :
  (forall r, In r results ->
     exists g g',
       race_twin._simulate_single_race_with fpow slot drivers driver_twins
         total_laps current_lap weather_data options g = Ok (r, g')) ->
  forall r, In r results ->
    NoDup (race_twin.SimulationResult.finishing_order r)
    /\ forall k, In k (race_twin.SimulationResult.finishing_order r)
                 <-> In k (map race_twin.Driver.id drivers).
Proof.
  intros H r Hr. destruct (H r Hr) as (g & g' & Hrun).
  eapply finishing_order_of_returned_result, Hrun.
Qed.

Lemma position_distribution_sums_to_one_witness :
  exists probs,
    race_twin._analyze_finishing_positions binary64
      [ {| race_twin.SimulationResult.finishing_order := ["A"; "B"; "C"]%string;
           race_twin.SimulationResult.pit_stops := [];
           race_twin.SimulationResult.total_times := [] |};
        {| race_twin.SimulationResult.finishing_order := ["B"; "A"; "C"]%string;
           race_twin.SimulationResult.pit_stops := [];
           race_twin.SimulationResult.total_times := [] |};
        {| race_twin.SimulationResult.finishing_order := ["A"; "C"; "B"]%string;
           race_twin.SimulationResult.pit_stops := [];
           race_twin.SimulationResult.total_times := [] |} ]
      = Ok probs
    /\ map race_twin.FinishingProb.driver_id probs = ["A"; "B"; "C"]%string
    /\ forall e, In e probs ->
         Qabs (fsum binary64
                 (map snd (race_twin.FinishingProb.position_distribution e)) - 1)
         <= 1 # 1000000.
Proof.
  destruct (position_distribution_sums_to_one binary64 binary64_rounds_to_nearest
              [ {| race_twin.SimulationResult.finishing_order := ["A"; "B"; "C"]%string;
                   race_twin.SimulationResult.pit_stops := [];
                   race_twin.SimulationResult.total_times := [] |};
                {| race_twin.SimulationResult.finishing_order := ["B"; "A"; "C"]%string;
                   race_twin.SimulationResult.pit_stops := [];
                   race_twin.SimulationResult.total_times := [] |};
                {| race_twin.SimulationResult.finishing_order := ["A"; "C"; "B"]%string;
                   race_twin.SimulationResult.pit_stops := [];
                   race_twin.SimulationResult.total_times := [] |} ]
              ["A"; "B"; "C"]%string) as (probs & E & _ & _ & H).
  - cbn. lia.
  - intros r [<- | [<- | [<- | []]]]; cbn [race_twin.SimulationResult.finishing_order];
      (split; [repeat constructor; cbn; intuition discriminate
              | intro k; cbn; intuition]).
  - exists probs. split; [exact E |]. split.
    + vm_compute in E. injection E as <-. reflexivity.
    + intros e He. apply (H e He).
Defined.

(** ** NumPy scalars *)

Lemma clip_bounds (x lo hi : Q) : lo <= hi -> lo <= min2 (max2 x lo) hi <= hi.
Proof.
  intro H.
  destruct (min2_cases (max2 x lo) hi) as [[-> H1] | [-> H1]];
    destruct (max2_cases x lo) as [[E H2] | [E H2]]; rewrite ?E in *; lra.
Qed.

Lemma np_clip_between (x : Np.npfloat) (lo hi : Q) :
  lo <= hi -> x <> Np.NaN -> Np.between (Np.clip x lo hi) lo hi.
Proof.
  intros H Hx. destruct x as [q | [|] |]; cbn.
  - now apply clip_bounds.
  - lra.
  - lra.
  - congruence.
Qed.

Lemma np_div_nan (x y : Q) : Np.div x y = Np.NaN <-> x == 0 /\ y == 0.
Proof.
  unfold Np.div.
  destruct (Qeq_bool y 0) eqn:Ey; [apply Qeq_bool_iff in Ey | apply Qeq_bool_neq in Ey].
  - destruct (Qeq_bool x 0) eqn:Ex; [apply Qeq_bool_iff in Ex | apply Qeq_bool_neq in Ex].
    + tauto.
    + split; [discriminate | tauto].
  - split; [discriminate | tauto].
Qed.

(** ** DriverTwinGenerator: the degradation profile *)

Section DegradationProfile.

Import driver_twin.

(** Whatever the fit left behind, the normalisation yields a finite rate
    in [0, 0.01]. *)
Lemma cap_rate_finite (x : Np.npfloat) :
  exists capped, cap_rate x = Np.Finite capped /\ 0 <= capped <= 0.01.
Proof.
  unfold cap_rate. destruct x as [q | [|] |].
  - unfold Np.max2. cbn [Np.lt]. destruct (Qlt_bool 0 q) eqn:E1.
    + unfold Np.min2. cbn [Np.lt]. destruct (Qlt_bool 0.01 q) eqn:E2.
      * exists 0.01. split; [reflexivity | lra].
      * exists q. apply Qlt_bool_true in E1. apply Qlt_bool_false in E2.
        split; [reflexivity | lra].
    + exists 0. split; [reflexivity | lra].
  - exists 0.01. split; [reflexivity | lra].
  - exists 0. split; [reflexivity | lra].
  - exists 0. split; [reflexivity | lra].
Qed.

Variable fpow : Q -> Q -> Q.
Variable SCIPY_AVAILABLE : bool.
Variable curve_fit_exponential : Q -> list Q -> option (Q * Q).
Variable curve_fit_linear : Q -> list Q -> option Q.

Let profile :=
  _calculate_degradation_profile fpow SCIPY_AVAILABLE
    curve_fit_exponential curve_fit_linear.

Let fitted_rate (lap_times : list Q) : Np.npfloat :=
  let base_pace := mean (firstn (Nat.min 3 (List.length lap_times)) lap_times) in
  fst (fst (fst (fit fpow SCIPY_AVAILABLE curve_fit_exponential curve_fit_linear
                     base_pace lap_times))).

Lemma profile_rate (lap_times : list Q) (tire_compound : string) :
  (3 <= List.length lap_times)%nat ->
  rate (profile lap_times tire_compound)
  = Np.scale (cap_rate (fitted_rate lap_times))
             (dict_get compound_multipliers tire_compound 1.0).
Proof.
  intro H. unfold profile, _calculate_degradation_profile, fitted_rate.
  replace (List.length lap_times <? 3)%nat with false
    by (symmetry; apply Nat.ltb_ge; exact H).
  destruct (fit _ _ _ _ _ _) as [[[r e] t] c]. reflexivity.
Qed.

Lemma profile_rate_bounded (lap_times : list Q) (tire_compound : string) (m : Q) :
  dict_get compound_multipliers tire_compound 1.0 = m ->
  0.2 <= m ->
  exists q, rate (profile lap_times tire_compound) = Np.Finite q /\ q <= 0.01 * m.
Proof.
  intros Hm Hpos. destruct (le_lt_dec 3 (List.length lap_times)) as [H | H].
  - rewrite (profile_rate _ _ H), Hm.
    destruct (cap_rate_finite (fitted_rate lap_times)) as (capped & -> & Hc).
    cbn. eexists. split; [reflexivity |]. nra.
  - unfold profile, _calculate_degradation_profile.
    replace (List.length lap_times <? 3)%nat with true
      by (symmetry; apply Nat.ltb_lt; exact H).
    cbn. eexists. split; [reflexivity |]. nra.
Qed.

(** The normalisation is a clamp: a rate within [0, 0.01] is kept, a
    smaller one (or [nan]) becomes 0 and a larger one 0.01. *)
Lemma cap_rate_clamps (x : Np.npfloat) :
  exists capped,
    cap_rate x = Np.Finite capped
    /\ 0 <= capped <= 0.01
    /\ match x with
       | Np.Finite q =>
           (0 <= q <= 0.01 -> capped == q)
           /\ (q < 0 -> capped == 0)
           /\ (0.01 < q -> capped == 0.01)
       | Np.Inf true => capped == 0.01
       | Np.Inf false => capped == 0
       | Np.NaN => capped == 0
       end.
Proof.
  unfold cap_rate. destruct x as [q | [|] |].
  - unfold Np.max2. cbn [Np.lt]. destruct (Qlt_bool 0 q) eqn:E1.
    + unfold Np.min2. cbn [Np.lt]. apply Qlt_bool_true in E1.
      destruct (Qlt_bool 0.01 q) eqn:E2.
      * apply Qlt_bool_true in E2. exists 0.01.
        split; [reflexivity | split; [lra |]]. repeat split; intros; lra.
      * apply Qlt_bool_false in E2. exists q.
        split; [reflexivity | split; [lra |]]. repeat split; intros; lra.
    + apply Qlt_bool_false in E1. exists 0.
      split; [reflexivity | split; [lra |]]. repeat split; intros; lra.
  - exists 0.01. split; [reflexivity | split; [lra | reflexivity]].
  - exists 0. split; [reflexivity | split; [lra | reflexivity]].
  - exists 0. split; [reflexivity | split; [lra | reflexivity]].
Qed.

(** C5: the fitted rate is clamped to [0, 0.01] first and multiplied by the
    compound factor afterwards (SOFT 1.5, MEDIUM 1.0, HARD 0.7, any other
    compound 1.0).  The returned rate is the clamped fitted rate times the
    factor, where the clamp keeps a fitted rate within [0, 0.01] and replaces
    a smaller one by 0 and a larger one by 0.01.  The MEDIUM and HARD rates
    therefore stay within 0.01, while the SOFT rate is only bounded by
    0.015: it exceeds 0.01 whenever the fit leaves a rate of 0.007 or more,
    and it does so for some lap history when the fit falls back to the
    finite difference (with or without scipy). *)
Theorem degradation_rate_capped_before_compound_factor :
  (forall lap_times tire_compound,
     (3 <= List.length lap_times)%nat ->
     exists capped,
       rate (profile lap_times tire_compound)
       = Np.Finite (capped * dict_get compound_multipliers tire_compound 1.0)
       /\ 0 <= capped <= 0.01
       /\ match fitted_rate lap_times with
          | Np.Finite q =>
              (0 <= q <= 0.01 -> capped == q)
              /\ (q < 0 -> capped == 0)
              /\ (0.01 < q -> capped == 0.01)
          | Np.Inf true => capped == 0.01
          | Np.Inf false => capped == 0
          | Np.NaN => capped == 0
          end)
  /\ (forall tire_compound,
        dict_get compound_multipliers tire_compound 1.0
        = if String.eqb tire_compound "SOFT" then 1.5
          else if String.eqb tire_compound "MEDIUM" then 1.0
          else if String.eqb tire_compound "HARD" then 0.7
          else 1.0)
  /\ (forall lap_times,
        exists q, rate (profile lap_times "MEDIUM") = Np.Finite q /\ q <= 0.01)
  /\ (forall lap_times,
        exists q, rate (profile lap_times "HARD") = Np.Finite q /\ q <= 0.01)
  /\ (forall lap_times,
        exists q, rate (profile lap_times "SOFT") = Np.Finite q /\ q <= 0.015)
  /\ (forall lap_times q,
        (3 <= List.length lap_times)%nat ->
        fitted_rate lap_times = Np.Finite q ->
        0.007 <= q ->
        Np.lt (Np.Finite 0.01) (rate (profile lap_times "SOFT")) = true)
  /\ (exists lap_times,
        Np.lt (Np.Finite 0.01)
              (rate (_calculate_degradation_profile fpow false
                       curve_fit_exponential curve_fit_linear lap_times "SOFT"))
        = true
        /\ Np.lt (Np.Finite 0.01)
                 (rate (_calculate_degradation_profile fpow true
                          (fun _ _ => None) (fun _ _ => None) lap_times "SOFT"))
           = true).
Proof.
  split; [| split; [| split; [| split; [| split; [| split]]]]].
  - intros lap_times tire_compound H. rewrite (profile_rate _ _ H).
    destruct (cap_rate_clamps (fitted_rate lap_times)) as (capped & -> & Hc & Hm).
    exists capped. split; [reflexivity | split; [exact Hc | exact Hm]].
  - intro c. reflexivity.
  - intro l. destruct (profile_rate_bounded l "MEDIUM" 1.0 eq_refl) as (q & Hq & Hb);
      [lra |]. exists q. split; [exact Hq | lra].
  - intro l. destruct (profile_rate_bounded l "HARD" 0.7 eq_refl) as (q & Hq & Hb);
      [lra |]. exists q. split; [exact Hq | lra].
  - intro l. destruct (profile_rate_bounded l "SOFT" 1.5 eq_refl) as (q & Hq & Hb);
      [lra |]. exists q. split; [exact Hq | lra].
  - intros lap_times q H Hfit Hq. rewrite (profile_rate _ _ H).
    destruct (cap_rate_clamps (fitted_rate lap_times)) as (capped & -> & Hc & Hm).
    rewrite Hfit in Hm. destruct Hm as (H1 & _ & H3).
    cbn [Np.scale Np.lt dict_get compound_multipliers String.eqb Ascii.eqb Bool.eqb].
    apply Qlt_bool_true.
    destruct (Qlt_le_dec 0.01 q) as [Hbig | Hsmall].
    + rewrite (H3 Hbig). reflexivity.
    + assert (0 <= q <= 0.01) as Hin by lra. rewrite (H1 Hin). lra.
  - exists [90; 90; 90; 100; 100; 100; 100; 100]. split; vm_compute; reflexivity.
Qed.

End DegradationProfile.

Lemma degradation_rate_capped_before_compound_factor_witness :
  let profile :=
    driver_twin._calculate_degradation_profile (fun _ _ => 1) true
      (fun _ _ => Some (0.008, 1.2)) (fun _ _ => None)
      [95; 95.2; 95.5; 95.9; 96.4] in
  (exists capped,
     driver_twin.rate (profile "SOFT"%string) = Np.Finite (capped * 1.5)
     /\ capped == 0.008)
  /\ (exists capped,
        driver_twin.rate (profile "HARD"%string) = Np.Finite (capped * 0.7)
        /\ capped == 0.008)
  /\ Np.lt (Np.Finite 0.01) (driver_twin.rate (profile "SOFT"%string)) = true.
Proof.
  cbv zeta.
  pose proof (degradation_rate_capped_before_compound_factor (fun _ _ => 1) true
                (fun _ _ => Some (0.008, 1.2)) (fun _ _ => None))
    as (Hrate & _ & _ & _ & _ & Hsoft & _).
  split; [| split].
  - destruct (Hrate [95; 95.2; 95.5; 95.9; 96.4] "SOFT"%string ltac:(cbn; lia))
      as (capped & E & _ & Hm).
    exists capped. split; [exact E |]. cbn in Hm. apply Hm. split; discriminate.
  - destruct (Hrate [95; 95.2; 95.5; 95.9; 96.4] "HARD"%string ltac:(cbn; lia))
      as (capped & E & _ & Hm).
    exists capped. split; [exact E |]. cbn in Hm. apply Hm. split; discriminate.
  - apply (Hsoft [95; 95.2; 95.5; 95.9; 96.4] 0.008);
      [cbn; lia | reflexivity | discriminate].
Defined.

(** ** DriverTwinGenerator: ranges of the twin *)

Section TwinRanges.

Import driver_twin.

Variable fsqrt : Q -> Q.
Variable fpow : Q -> Q -> Q.
Variable flog : Q -> Q.
Variable SCIPY_AVAILABLE : bool.
Variable curve_fit_exponential : Q -> list Q -> option (Q * Q).
Variable curve_fit_linear : Q -> list Q -> option Q.
Variable curve_fit_fatigue : list Q -> option (Q * Q).

(** The pace vector is within its range unless the best lap and the mean
    lap are both zero, in which case it is [nan]. *)
Lemma pace_vector_cases (lap_times : list Q) :
  Np.between (_calculate_pace_vector lap_times) (-0.1) 0.1
  \/ (_calculate_pace_vector lap_times = Np.NaN
      /\ min_list lap_times == 0 /\ mean lap_times == 0).
Proof.
  unfold _calculate_pace_vector.
  destruct (List.length lap_times <? 2)%nat.
  - left. cbn. lra.
  - destruct (Np.div (mean lap_times - min_list lap_times) (min_list lap_times))
      as [q | p |] eqn:E.
    + left. apply np_clip_between; [lra | discriminate].
    + left. apply np_clip_between; [lra | discriminate].
    + right. apply np_div_nan in E as [E1 E2]. repeat split; [exact E2 | lra].
Qed.

Lemma consistency_index_bounds (lap_times : list Q) :
  0 <= _calculate_consistency_index fsqrt lap_times <= 1.
Proof.
  unfold _calculate_consistency_index.
  destruct (List.length lap_times <? 2)%nat; [lra |].
  destruct (Qeq_bool (mean lap_times) 0); [lra |].
  destruct (remove_outliers lap_times (mean lap_times)) as [a m].
  apply clip_bounds. lra.
Qed.

Lemma confidence_bounds (lap_count : Z) : 0 <= _calculate_confidence lap_count <= 1.
Proof.
  unfold _calculate_confidence.
  destruct (lap_count <? 5)%Z; [lra |].
  destruct (lap_count <? 10)%Z; [lra |].
  destruct (lap_count <? 20)%Z; lra.
Qed.

(** The ranges of the twin hold for every lap history except the one whose
    best and mean lap are both zero. *)
Lemma generate_driver_twin_ranges
    (driver_id : string) (lap_times : list Q) (sector_times : list SectorTimes.t)
    (telemetry_data : option (list Telemetry.t))
    (tire_compound : string) (current_lap : Z) :
  let twin :=
    generate_driver_twin fsqrt fpow flog SCIPY_AVAILABLE curve_fit_exponential
      curve_fit_linear curve_fit_fatigue
      driver_id lap_times sector_times telemetry_data tire_compound current_lap in
  ~ (min_list lap_times == 0 /\ mean lap_times == 0) ->
  Np.between (DriverTwin.pace_vector twin) (-0.1) 0.1
  /\ 0 <= DriverTwin.consistency_index twin <= 1
  /\ 0 <= DriverTwin.confidence twin <= 1.
Proof.
  cbv zeta. intro H. unfold generate_driver_twin.
  destruct (List.length lap_times <? min_laps_for_twin)%nat.
  - cbn. lra.
  - cbn [DriverTwin.pace_vector DriverTwin.consistency_index DriverTwin.confidence].
    split; [| split].
    + destruct (pace_vector_cases lap_times) as [Hb | (_ & H1 & H2)]; [exact Hb | tauto].
    + apply consistency_index_bounds.
    + apply confidence_bounds.
Qed.

End TwinRanges.

(** C7 (defect): five lap times of 0.0 make the pace vector [0.0 / 0.0],
    which NumPy evaluates to [nan]; the clip lets it through, and the twin
    is returned with a pace vector outside [-0.1, 0.1]. *)
Theorem pace_vector_of_zero_laps_is_nan
    (fsqrt : Q -> Q) (fpow : Q -> Q -> Q) (flog : Q -> Q) (SCIPY_AVAILABLE : bool)
    (curve_fit_exponential : Q -> list Q -> option (Q * Q))
    (curve_fit_linear : Q -> list Q -> option Q)
    (curve_fit_fatigue : list Q -> option (Q * Q)) :
  let twin :=
    driver_twin.generate_driver_twin fsqrt fpow flog SCIPY_AVAILABLE
      curve_fit_exponential curve_fit_linear curve_fit_fatigue
      "driver_1" [0; 0; 0; 0; 0] [] None "MEDIUM" 0 in
  driver_twin.DriverTwin.pace_vector twin = Np.NaN
  /\ ~ Np.between (driver_twin.DriverTwin.pace_vector twin) (-0.1) 0.1.
Proof.
  cbv zeta. split.
  - reflexivity.
  - intro H. exact H.
Qed.

(** ** AdvancedPitDecisionEngine *)

Section PitDecision.

Import pit_decision_engine.

(** With the class of [degradation] bound to [TireDegradationModel], the
    first step of every decision fails on the lookup of
    [calculate_degradation]. *)
Lemma make_pit_decision_always_raises
    (driver_id : string) (current_lap total_laps tire_age : Z) (tire_compound : string)
    (current_position : Z) (degradation_rate traffic_density : Q)
    (race_twin : option RaceTwin.t) (driver_twin : option DriverTwin.t)
    (opponent_data : option (list Opponent.t)) (weather_data : option WeatherData.t) :
  make_pit_decision driver_id current_lap total_laps tire_age tire_compound
    current_position degradation_rate traffic_density
    race_twin driver_twin opponent_data weather_data
  = Raise (AttributeError "TireDegradationModel" "calculate_degradation").
Proof. reflexivity. Qed.

(** A missing optional input leaves its factor neutral and unavailable. *)
Lemma missing_inputs_are_neutral
    (driver_id tire_compound : string) (current_lap total_laps tire_age : Z) :
  let race_twin_factor := _analyze_race_twin_factor None driver_id current_lap total_laps in
  let opponent_factor := _analyze_opponent_factor None current_lap tire_age driver_id in
  let no_opponent_factor := _analyze_opponent_factor (Some []) current_lap tire_age driver_id in
  let weather_factor := _analyze_weather_factor None tire_compound in
  Forall (fun f => Factor.score f = 0.5 /\ Factor.available f = false)
         [race_twin_factor; opponent_factor; no_opponent_factor; weather_factor].
Proof. repeat constructor. Qed.

Lemma confidence_score_bounds
    (degradation_factor : DegradationFactor.t) (traffic_factor : TrafficFactor.t)
    (race_twin_factor opponent_factor weather_factor : Factor.t) :
  0 <= _calculate_confidence_score degradation_factor traffic_factor
         race_twin_factor opponent_factor weather_factor <= 1.
Proof.
  unfold _calculate_confidence_score.
  match goal with
  | |- _ <= max2 _ (min2 _ ?x) <= _ =>
      pose proof (max_min_bounds 0.0 1.0 x) as H
  end.
  lra.
Qed.

Lemma decision_values
    (degradation_factor : DegradationFactor.t) (traffic_factor : TrafficFactor.t)
    (race_twin_factor opponent_factor weather_factor : Factor.t)
    (confidence_score : Q) (current_lap total_laps tire_age : Z) :
  In (Decision.decision
        (_make_decision degradation_factor traffic_factor race_twin_factor
           opponent_factor weather_factor confidence_score current_lap total_laps
           tire_age))
     ["PIT_NOW"; "PIT_LATER"; "EXTEND_STINT"]%string.
Proof.
  unfold _make_decision.
  destruct (String.eqb _ _); [cbn; tauto |].
  destruct (Qle_bool 0.75 confidence_score); [cbn; tauto |].
  destruct (Qle_bool 0.55 confidence_score); cbn; tauto.
Qed.

Lemma critical_urgency
    (current_degradation : Q) (predicted : list Prediction.t) (tire_age : Z)
    (degradation_rate : Q) (driver_twin : option DriverTwin.t) :
  0.05 <= current_degradation <->
  DegradationFactor.urgency
    (degradation_factor_of current_degradation predicted tire_age degradation_rate
       driver_twin) = "critical"%string.
Proof.
  unfold degradation_factor_of.
  destruct (Qle_bool 0.05 current_degradation) eqn:E.
  - apply Qle_bool_iff in E. cbn. tauto.
  - assert (~ 0.05 <= current_degradation) as Hn.
    { intro H. apply Qle_bool_iff in H. congruence. }
    destruct (Qle_bool 0.03 current_degradation);
      [| destruct (existsb _ _)]; cbn; split; (tauto || discriminate).
Qed.

Lemma critical_decision
    (degradation_factor : DegradationFactor.t) (traffic_factor : TrafficFactor.t)
    (race_twin_factor opponent_factor weather_factor : Factor.t)
    (confidence_score : Q) (current_lap total_laps tire_age : Z) :
  DegradationFactor.urgency degradation_factor = "critical"%string ->
  Decision.decision
    (_make_decision degradation_factor traffic_factor race_twin_factor
       opponent_factor weather_factor confidence_score current_lap total_laps tire_age)
  = "PIT_NOW"%string.
Proof.
  intro H. unfold _make_decision. rewrite H. reflexivity.
Qed.

Lemma degradation_factor_current
    (current_degradation : Q) (predicted : list Prediction.t) (tire_age : Z)
    (degradation_rate : Q) (driver_twin : option DriverTwin.t) :
  DegradationFactor.current_degradation
    (degradation_factor_of current_degradation predicted tire_age degradation_rate
       driver_twin) = current_degradation.
Proof.
  unfold degradation_factor_of.
  destruct (Qle_bool 0.05 current_degradation); [reflexivity |].
  destruct (Qle_bool 0.03 current_degradation); [reflexivity |].
  destruct (existsb _ _); reflexivity.
Qed.

Variable slot : option (Z -> string -> option Q -> Q).

(** What a returned decision was computed from. *)
Lemma make_pit_decision_inv
    (driver_id : string) (current_lap total_laps tire_age : Z) (tire_compound : string)
    (current_position : Z) (degradation_rate traffic_density : Q)
    (race_twin : option RaceTwin.t) (driver_twin : option DriverTwin.t)
    (opponent_data : option (list Opponent.t)) (weather_data : option WeatherData.t)
    (r : PitDecision.t) :
  make_pit_decision_with slot driver_id current_lap total_laps tire_age tire_compound
    current_position degradation_rate traffic_density
    race_twin driver_twin opponent_data weather_data = Ok r ->
  exists current_degradation predicted traffic_factor,
    let degradation_factor :=
      degradation_factor_of current_degradation predicted tire_age degradation_rate
        driver_twin in
    let race_twin_factor :=
      _analyze_race_twin_factor race_twin driver_id current_lap total_laps in
    let opponent_factor :=
      _analyze_opponent_factor opponent_data current_lap tire_age driver_id in
    let weather_factor := _analyze_weather_factor weather_data tire_compound in
    let confidence_score :=
      _calculate_confidence_score degradation_factor traffic_factor
        race_twin_factor opponent_factor weather_factor in
    PitDecision.decision r
    = Decision.decision
        (_make_decision degradation_factor traffic_factor race_twin_factor
           opponent_factor weather_factor confidence_score current_lap total_laps
           tire_age)
    /\ PitDecision.confidence r = confidence_score
    /\ FactorBreakdown.degradation_current (PitDecision.factor_breakdown r)
       = current_degradation
    /\ FactorBreakdown.degradation_urgency (PitDecision.factor_breakdown r)
       = DegradationFactor.urgency degradation_factor.
Proof.
  unfold make_pit_decision_with, _analyze_degradation_factor.
  destruct slot as [method |]; [| discriminate]. cbn [degradation.getattr bind].
  destruct (mapM _ range_1_6) as [predicted |]; [| discriminate]. cbn [bind].
  destruct (_analyze_traffic_factor _ _ _ _ _) as [traffic_factor |]; [| discriminate].
  cbn [bind]. intro H. injection H as <-.
  exists (method tire_age tire_compound None), predicted, traffic_factor.
  cbv zeta. repeat split; try reflexivity.
  cbn [PitDecision.factor_breakdown _generate_factor_breakdown
       FactorBreakdown.degradation_current].
  apply degradation_factor_current.
Qed.

End PitDecision.

Section PitDecisionOutcome.

Import pit_decision_engine.

Lemma traffic_factor_returns
    (current_position : Z) (traffic_density : Q) (current_lap total_laps : Z)
    (driver_id : string) :
  total_laps <> 0%Z ->
  exists traffic_factor,
    _analyze_traffic_factor current_position traffic_density current_lap total_laps
      driver_id = Ok traffic_factor.
Proof.
  intro H. unfold _analyze_traffic_factor.
  destruct (if Qle_bool 0.7 traffic_density then _ else _) as [[level clear] score].
  cbn [mapM range_1_6].
  rewrite !truediv_nonzero by (unfold Qeq; cbn; lia).
  cbn [bind best_window]. eexists. reflexivity.
Qed.

Lemma traffic_factor_without_laps
    (current_position : Z) (traffic_density : Q) (current_lap : Z) (driver_id : string) :
  _analyze_traffic_factor current_position traffic_density current_lap 0 driver_id
  = Raise ZeroDivisionError.
Proof.
  unfold _analyze_traffic_factor.
  destruct (if Qle_bool 0.7 traffic_density then _ else _) as [[level clear] score].
  reflexivity.
Qed.

(** Had the class a [calculate_degradation], every call with a positive
    race length would return one of the three decisions with a confidence
    in [0, 1], whichever optional inputs are given. *)
Lemma make_pit_decision_with_method_returns
    (method : Z -> string -> option Q -> Q)
    (driver_id : string) (current_lap total_laps tire_age : Z) (tire_compound : string)
    (current_position : Z) (degradation_rate traffic_density : Q)
    (race_twin : option RaceTwin.t) (driver_twin : option DriverTwin.t)
    (opponent_data : option (list Opponent.t)) (weather_data : option WeatherData.t) :
  total_laps <> 0%Z ->
  exists r,
    make_pit_decision_with (Some method) driver_id current_lap total_laps tire_age
      tire_compound current_position degradation_rate traffic_density
      race_twin driver_twin opponent_data weather_data = Ok r
    /\ In (PitDecision.decision r) ["PIT_NOW"; "PIT_LATER"; "EXTEND_STINT"]%string
    /\ 0 <= PitDecision.confidence r <= 1.
Proof.
  intro H. unfold make_pit_decision_with, _analyze_degradation_factor.
  cbn [degradation.getattr bind mapM range_1_6].
  destruct (traffic_factor_returns current_position traffic_density current_lap
              total_laps driver_id H) as [traffic_factor ->].
  cbn [bind]. eexists. split; [reflexivity |].
  cbn [PitDecision.decision PitDecision.confidence]. split.
  - apply decision_values.
  - apply confidence_score_bounds.
Qed.

End PitDecisionOutcome.

(** C1 (defect): a call with every optional input omitted returns no
    decision; it raises [AttributeError], because the degradation model the
    engine imports has no [calculate_degradation]. *)
Theorem make_pit_decision_raises_attribute_error :
  pit_decision_engine.make_pit_decision
    "driver_1" 20 50 12 "MEDIUM" 5 0.002 0.5 None None None None
  = Raise (AttributeError "TireDegradationModel" "calculate_degradation").
Proof. reflexivity. Qed.

(** C3: a degradation factor computed from a current degradation of at
    least 0.05 forces [PIT_NOW], whatever the other factors and the
    confidence score are; and a decision returned by the engine that reports
    such a current degradation reports critical urgency and [PIT_NOW]. *)
Theorem critical_degradation_forces_pit_now :
  (forall (current_degradation : Q) predicted tire_age degradation_rate driver_twin
          traffic_factor race_twin_factor opponent_factor weather_factor
          confidence_score current_lap total_laps,
     0.05 <= current_degradation ->
     pit_decision_engine.Decision.decision
       (pit_decision_engine._make_decision
          (pit_decision_engine.degradation_factor_of current_degradation predicted
             tire_age degradation_rate driver_twin)
          traffic_factor race_twin_factor opponent_factor weather_factor
          confidence_score current_lap total_laps tire_age)
     = "PIT_NOW"%string)
  /\ (forall slot driver_id current_lap total_laps tire_age tire_compound
             current_position degradation_rate traffic_density
             race_twin driver_twin opponent_data weather_data r,
        pit_decision_engine.make_pit_decision_with slot driver_id current_lap
          total_laps tire_age tire_compound current_position degradation_rate
          traffic_density race_twin driver_twin opponent_data weather_data = Ok r ->
        0.05 <= pit_decision_engine.FactorBreakdown.degradation_current
                  (pit_decision_engine.PitDecision.factor_breakdown r) ->
        pit_decision_engine.FactorBreakdown.degradation_urgency
          (pit_decision_engine.PitDecision.factor_breakdown r) = "critical"%string
        /\ pit_decision_engine.PitDecision.decision r = "PIT_NOW"%string).
Proof.
  split.
  - intros. apply critical_decision. now apply critical_urgency.
  - intros slot driver_id current_lap total_laps tire_age tire_compound
      current_position degradation_rate traffic_density race_twin driver_twin
      opponent_data weather_data r Hr Hcd.
    destruct (make_pit_decision_inv slot _ _ _ _ _ _ _ _ _ _ _ _ r Hr)
      as (cd & predicted & traffic_factor & Hd & _ & Hc & Hu).
    rewrite Hc in Hcd. rewrite Hu, Hd.
    apply (critical_urgency cd predicted tire_age degradation_rate driver_twin) in Hcd.
    split; [exact Hcd | now apply critical_decision].
Qed.

Lemma critical_degradation_forces_pit_now_witness :
  0.05 <= 0.06
  /\ exists r,
       pit_decision_engine.make_pit_decision_with
         (Some models_tire_degradation.calculate_degradation)
         "driver_1" 20 50 30 "MEDIUM" 5 0.002 0.5 None None None None = Ok r
       /\ pit_decision_engine.PitDecision.decision r = "PIT_NOW"%string.
Proof.
  split; [discriminate |].
  eexists. split; [reflexivity |].
  destruct critical_degradation_forces_pit_now as [_ H].
  refine (proj2 (H (Some models_tire_degradation.calculate_degradation)
                   "driver_1"%string 20%Z 50%Z 30%Z "MEDIUM"%string 5%Z 0.002 0.5
                   None None None None _ eq_refl _)).
  vm_compute. discriminate.
Defined.


(* ===================================================================== *)
(** * Part III. Further properties of the modelled code                   *)
(* ===================================================================== *)

(** ** Monotonicity of the builtins *)

Lemma min2_mono (a x y : Q) : x <= y -> min2 a x <= min2 a y.
Proof.
  intro H.
  destruct (min2_cases a x) as [[-> ?] | [-> ?]];
    destruct (min2_cases a y) as [[-> ?] | [-> ?]]; lra.
Qed.

Lemma min2_mono_l (b x y : Q) : x <= y -> min2 x b <= min2 y b.
Proof.
  intro H.
  destruct (min2_cases x b) as [[-> ?] | [-> ?]];
    destruct (min2_cases y b) as [[-> ?] | [-> ?]]; lra.
Qed.

Lemma max2_mono (a x y : Q) : x <= y -> max2 a x <= max2 a y.
Proof.
  intro H.
  destruct (max2_cases a x) as [[-> ?] | [-> ?]];
    destruct (max2_cases a y) as [[-> ?] | [-> ?]]; lra.
Qed.

Lemma Qdiv_le_pos (x y d : Q) : 0 < d -> x <= y -> x / d <= y / d.
Proof.
  intros Hd H. unfold Qdiv. apply Qmult_le_compat_r; [exact H |].
  apply Qlt_le_weak, Qinv_lt_0_compat, Hd.
Qed.

(** ** grracing/overtake.py *)

Section OvertakeMonotone.

Import overtake.

(** The clamped weighted sum grows with the speed and tire terms. *)
Lemma weighted_sum_mono (s s' pp t t' sf : Q) :
  s <= s' -> t <= t' ->
  max2 0 (min2 1 (0.1 + s * 0.4 + pp * 0.2 + t * 0.2 + sf * 0.1))
  <= max2 0 (min2 1 (0.1 + s' * 0.4 + pp * 0.2 + t' * 0.2 + sf * 0.1)).
Proof. intros Hs Ht. apply max2_mono, min2_mono. lra. Qed.

(** X1: [calculate_overtake_probability] is monotone in what favours the
    attacker.  With the defender's speed, the positions and the sector
    fixed, a faster attacker, fresher attacker tires and older defender
    tires never lower the probability; for integer arguments of float size
    both calls return. *)
Theorem overtake_probability_monotone
    (a_speed a_speed' d_speed : Q) (a_pos d_pos : Z)
    (a_age a_age' d_age d_age' : Z) (sector : string) :
  float_sized (a_pos - d_pos) ->
  float_sized (d_age - a_age) ->
  float_sized (d_age' - a_age') ->
  a_speed <= a_speed' ->
  (a_age' <= a_age)%Z ->
  (d_age <= d_age')%Z ->
  exists p p',
    calculate_overtake_probability a_speed d_speed a_pos d_pos a_age d_age sector = Ok p
    /\ calculate_overtake_probability a_speed' d_speed a_pos d_pos a_age' d_age' sector
       = Ok p'
    /\ p <= p'.
Proof.
  intros _ _ _ Hspeed Ha Hd. unfold calculate_overtake_probability.
  assert (Htire : min2 (inject_Z (d_age - a_age) / 20) 0.5
                  <= min2 (inject_Z (d_age' - a_age') / 20) 0.5).
  { apply min2_mono_l. apply Qdiv_le_pos; [reflexivity |].
    rewrite <- Zle_Qle. lia. }
  rewrite !tire_advantage_value.
  destruct (Qlt_le_dec 0 d_speed) as [Hs | Hs].
  - rewrite !(speed_advantage_guarded _ _ Hs).
    assert (Hadv : (a_speed - d_speed) / d_speed * 0.5
                   <= (a_speed' - d_speed) / d_speed * 0.5).
    { apply Qmult_le_compat_r; [| discriminate].
      apply Qdiv_le_pos; [exact Hs | lra]. }
    destruct (Z.eq_dec a_pos d_pos) as [-> | Hp];
      [rewrite !position_proximity_level | rewrite !(position_proximity_apart _ _ Hp)];
      cbn [bind]; do 2 eexists; (split; [reflexivity | split; [reflexivity |]]);
      now apply weighted_sum_mono.
  - rewrite !(speed_advantage_unguarded _ _ Hs).
    destruct (Z.eq_dec a_pos d_pos) as [-> | Hp];
      [rewrite !position_proximity_level | rewrite !(position_proximity_apart _ _ Hp)];
      cbn [bind]; do 2 eexists; (split; [reflexivity | split; [reflexivity |]]);
      (apply weighted_sum_mono; [lra | exact Htire]).
Qed.

End OvertakeMonotone.

Lemma overtake_probability_monotone_witness :
  exists p p',
    overtake.calculate_overtake_probability 150 150 2 1 12 10 "S2" = Ok p
    /\ overtake.calculate_overtake_probability 155 150 2 1 8 14 "S2" = Ok p'
    /\ p <= p'.
Proof.
  apply overtake_probability_monotone;
    try (apply float_sized_small; cbn; lia); [discriminate | lia | lia].
Defined.

(** ** grracing/traffic.py *)

Section TrafficDensity.

Import traffic.

Lemma fold_min_le (l : list Z) (x : Z) : (fold_left Z.min l x <= x)%Z.
Proof.
  revert x. induction l as [| y l IH]; intro x; cbn [fold_left]; [lia |].
  specialize (IH (Z.min x y)). lia.
Qed.

Lemma fold_max_ge (l : list Z) (x : Z) : (x <= fold_left Z.max l x)%Z.
Proof.
  revert x. induction l as [| y l IH]; intro x; cbn [fold_left]; [lia |].
  specialize (IH (Z.max x y)). lia.
Qed.

Lemma position_spread_nonneg (l : list Z) : (0 <= max_list l - min_list l)%Z.
Proof.
  destruct l as [| x l]; cbn [max_list min_list]; [lia |].
  pose proof (fold_min_le l x). pose proof (fold_max_ge l x). lia.
Qed.

Lemma length_filter_le {A : Type} (f : A -> bool) (l : list A) :
  (List.length (filter f l) <= List.length l)%nat.
Proof.
  induction l as [| x l IH]; cbn [filter List.length]; [lia |].
  destruct (f x); cbn [List.length]; lia.
Qed.

(** The share of the drivers that are in the sector. *)
Lemma sector_share_bounds (n m : nat) :
  (n <= m)%nat ->
  0 <= inject_Z (Z.of_nat n) / inject_Z (Z.max (Z.of_nat m) 1) <= 1.
Proof.
  intro H.
  assert (Hm : 0 < inject_Z (Z.max (Z.of_nat m) 1))
    by (replace 0 with (inject_Z 0) by reflexivity; rewrite <- Zlt_Qlt; lia).
  assert (Hn : 0 <= inject_Z (Z.of_nat n))
    by (replace 0 with (inject_Z 0) by reflexivity; rewrite <- Zle_Qle; lia).
  assert (Hnm : inject_Z (Z.of_nat n) <= inject_Z (Z.max (Z.of_nat m) 1))
    by (rewrite <- Zle_Qle; lia).
  split.
  - apply Qle_shift_div_l; [exact Hm | lra].
  - apply Qle_shift_div_r; [exact Hm | lra].
Qed.

Lemma proximity_factor_pos (spread : Z) :
  (0 <= spread)%Z -> 0 < 1 / (1 + inject_Z spread / 5).
Proof.
  intro H.
  assert (Hs : 0 <= inject_Z spread)
    by (replace 0 with (inject_Z 0) by reflexivity; rewrite <- Zle_Qle; lia).
  assert (Ht : 0 <= inject_Z spread / 5)
    by (apply Qle_shift_div_l; [reflexivity | lra]).
  apply Qlt_shift_div_l; lra.
Qed.

Lemma traffic_density_range (drivers : list Driver) (sector : string) :
  0 <= calculate_traffic_density drivers sector <= 1.
Proof.
  unfold calculate_traffic_density.
  pose proof (sector_share_bounds _ _ (length_filter_le (in_sector sector) drivers))
    as Hshare.
  set (share := inject_Z (Z.of_nat (List.length (filter (in_sector sector) drivers)))
                / inject_Z (Z.max (Z.of_nat (List.length drivers)) 1)) in *.
  pose proof (proximity_factor_pos _
                (position_spread_nonneg
                   (map position_or_0 (filter (in_sector sector) drivers)))) as Hprox.
  set (prox := 1 / (1 + inject_Z _ / 5)) in *.
  destruct (1 <? List.length (filter (in_sector sector) drivers))%nat.
  - destruct (min2_cases 1 (share * (1 + prox))) as [[-> ?] | [-> ?]]; nra.
  - destruct (min2_cases 1 share) as [[-> ?] | [-> ?]]; lra.
Qed.


End TrafficDensity.


(** *** The simulator's view of the traffic model *)

Section SimulatorTraffic.

Import traffic.

Lemma filter_all {A : Type} (f : A -> bool) (l : list A) :
  (forall x, In x l -> f x = true) -> filter f l = l.
Proof.
  induction l as [| x l IH]; intro H; cbn [filter]; [reflexivity |].
  rewrite (H x (or_introl eq_refl)). f_equal. apply IH.
  intros y Hy. apply H. now right.
Qed.

(** A non-empty list of drivers that are all in the sector saturates the
    density. *)
Lemma density_of_one_sector (drivers : list Driver) (sector : string) :
  drivers <> [] ->
  (forall d, In d drivers -> in_sector sector d = true) ->
  calculate_traffic_density drivers sector = 1.
Proof.
  intros Hne Hall. unfold calculate_traffic_density.
  rewrite (filter_all _ _ Hall).
  pose proof (proximity_factor_pos _
                (position_spread_nonneg (map position_or_0 drivers))) as Hprox.
  set (prox := 1 / (1 + inject_Z _ / 5)) in *.
  assert (Hlen : (1 <= Z.of_nat (List.length drivers))%Z)
    by (destruct drivers; [congruence | cbn [List.length]; lia]).
  replace (Z.max (Z.of_nat (List.length drivers)) 1)
    with (Z.of_nat (List.length drivers)) by lia.
  assert (Hpos : 0 < inject_Z (Z.of_nat (List.length drivers)))
    by (replace 0 with (inject_Z 0) by reflexivity; rewrite <- Zlt_Qlt; lia).
  assert (Hshare : inject_Z (Z.of_nat (List.length drivers))
                   / inject_Z (Z.of_nat (List.length drivers)) == 1)
    by (field; lra).
  set (share := inject_Z (Z.of_nat (List.length drivers))
                / inject_Z (Z.of_nat (List.length drivers))) in *.
  destruct (1 <? List.length drivers)%nat.
  - destruct (min2_cases 1 (share * (1 + prox))) as [[-> _] | [_ H]];
      [reflexivity | exfalso; nra].
  - destruct (min2_cases 1 share) as [[-> _] | [_ H]];
      [reflexivity | exfalso; lra].
Qed.


End SimulatorTraffic.


(** ** grracing/weather.py *)

Section Weather.

Import weather.

Lemma base_pace_modifier_ge_1 (c : condition) : 1 <= base_pace_modifiers c.
Proof. destruct c; discriminate. Qed.

Lemma pace_modifier_ge_1 (track_temp ambient_temp humidity rainfall : Q) :
  1 <= calculate_pace_modifier track_temp ambient_temp humidity rainfall.
Proof.
  unfold calculate_pace_modifier, temp_effect_per_deg.
  pose proof (base_pace_modifier_ge_1
                (determine_condition track_temp ambient_temp humidity rainfall)) as Hb.
  pose proof (Qabs_nonneg (track_temp - 27.5)) as Ha.
  set (b := base_pace_modifiers _) in *.
  set (a := Qabs _) in *. nra.
Qed.

Lemma pace_modifier_profile (track_temp ambient_temp humidity rainfall : Q) :
  let condition := determine_condition track_temp ambient_temp humidity rainfall in
  let modifier := calculate_pace_modifier track_temp ambient_temp humidity rainfall in
  1 <= modifier
  /\ (condition <> dry -> 1.08 <= modifier)
  /\ (condition = dry -> track_temp == 27.5 -> modifier == 1)
  /\ (forall base_lap_time,
        0 <= base_lap_time ->
        base_lap_time
        <= adjust_lap_time base_lap_time track_temp ambient_temp humidity rainfall).
Proof.
  cbv zeta. split; [apply pace_modifier_ge_1 | split; [| split]].
  - unfold calculate_pace_modifier, temp_effect_per_deg.
    pose proof (Qabs_nonneg (track_temp - 27.5)) as Ha.
    destruct (determine_condition track_temp ambient_temp humidity rainfall);
      cbn [base_pace_modifiers]; intro H; try congruence;
      set (a := Qabs _) in *; lra.
  - unfold calculate_pace_modifier, temp_effect_per_deg.
    intros -> E. cbn [base_pace_modifiers].
    assert (track_temp - 27.5 == 0) as -> by lra.
    reflexivity.
  - intros base Hbase. unfold adjust_lap_time.
    pose proof (pace_modifier_ge_1 track_temp ambient_temp humidity rainfall) as Hm.
    set (m := calculate_pace_modifier _ _ _ _) in *. nra.
Qed.

Lemma degradation_modifier_range (track_temp ambient_temp humidity rainfall : Q) :
  0.35 <= calculate_degradation_modifier track_temp ambient_temp humidity rainfall <= 2
  /\ (forall base_rate,
        0 <= base_rate ->
        0.35 * base_rate
        <= adjust_degradation_rate base_rate track_temp ambient_temp humidity rainfall
        <= 2 * base_rate).
Proof.
  assert (Hm : 0.35 <= calculate_degradation_modifier track_temp ambient_temp
                         humidity rainfall <= 2).
  { unfold calculate_degradation_modifier.
    pose proof (max_min_bounds 0.5 2.0 (1.0 + (track_temp - 25) * 0.01)) as Ht.
    assert (Hlo : 0.5 <= 2.0) by discriminate. specialize (Ht Hlo).
    set (t := max2 0.5 _) in *.
    destruct (determine_condition track_temp ambient_temp humidity rainfall);
      cbn [degradation_modifiers]; lra. }
  split; [exact Hm |].
  intros base Hbase. unfold adjust_degradation_rate.
  set (m := calculate_degradation_modifier _ _ _ _) in *. nra.
Qed.

(** X4: the weather never speeds a lap up, and it changes the tire wear
    by a bounded factor.  The pace modifier is at least 1 for every input,
    at least 1.08 in any condition but dry, and 1 in dry conditions at 27.5
    degrees of track temperature; so an adjusted lap time is never below a
    non-negative base lap time.  The degradation modifier is the condition
    factor (0.7 to 1) times a temperature factor clamped to [[0.5, 2]]: it
    stays within [[0.35, 2]], and so does the ratio of an adjusted to a
    non-negative base degradation rate. *)
Theorem weather_modifier_bounds (track_temp ambient_temp humidity rainfall : Q) :
  let condition := determine_condition track_temp ambient_temp humidity rainfall in
  let modifier := calculate_pace_modifier track_temp ambient_temp humidity rainfall in
  1 <= modifier
  /\ (condition <> dry -> 1.08 <= modifier)
  /\ (condition = dry -> track_temp == 27.5 -> modifier == 1)
  /\ (forall base_lap_time,
        0 <= base_lap_time ->
        base_lap_time
        <= adjust_lap_time base_lap_time track_temp ambient_temp humidity rainfall)
  /\ 0.35 <= calculate_degradation_modifier track_temp ambient_temp humidity rainfall
     <= 2
  /\ (forall base_rate,
        0 <= base_rate ->
        0.35 * base_rate
        <= adjust_degradation_rate base_rate track_temp ambient_temp humidity rainfall
        <= 2 * base_rate).
Proof.
  cbv zeta.
  destruct (pace_modifier_profile track_temp ambient_temp humidity rainfall)
    as (H1 & H2 & H3 & H4).
  destruct (degradation_modifier_range track_temp ambient_temp humidity rainfall)
    as (H5 & H6).
  split; [exact H1 | split; [exact H2 | split; [exact H3 | split; [exact H4 |]]]].
  split; [exact H5 | exact H6].
Qed.

End Weather.

Lemma weather_modifier_bounds_witness :
  95 <= weather.adjust_lap_time 95 40 30 60 0
  /\ 1.08 <= weather.calculate_pace_modifier 30 25 90 0
  /\ weather.calculate_pace_modifier 27.5 25 50 0 == 1
  /\ 0.35 * 0.002 <= weather.adjust_degradation_rate 0.002 10 12 90 0.3 <= 2 * 0.002.
Proof.
  split; [| split; [| split]].
  - destruct (weather_modifier_bounds 40 30 60 0) as (_ & _ & _ & H & _).
    apply H. discriminate.
  - destruct (weather_modifier_bounds 30 25 90 0) as (_ & H & _).
    apply H. discriminate.
  - destruct (weather_modifier_bounds 27.5 25 50 0) as (_ & _ & H & _).
    apply H; reflexivity.
  - destruct (weather_modifier_bounds 10 12 90 0.3) as (_ & _ & _ & _ & _ & H).
    apply H. discriminate.
Defined.

(** ** [int(x)] *)

Lemma int_le_upper (x : Q) (n : Z) : x <= inject_Z n -> (int x <= n)%Z.
Proof.
  destruct x as [a d]. unfold Qle, int. cbn [Qnum Qden inject_Z].
  rewrite Z.mul_1_r. intro H.
  rewrite <- (Z.quot_mul n (Zpos d)) by discriminate.
  apply Z.quot_le_mono; lia.
Qed.

Lemma int_ge_lower (x : Q) (n : Z) : inject_Z n <= x -> (n <= int x)%Z.
Proof.
  destruct x as [a d]. unfold Qle, int. cbn [Qnum Qden inject_Z].
  rewrite Z.mul_1_r. intro H.
  rewrite <- (Z.quot_mul n (Zpos d)) by discriminate.
  apply Z.quot_le_mono; lia.
Qed.

Lemma int_nonneg (x : Q) : 0 <= x -> (0 <= int x)%Z.
Proof. intro H. apply int_ge_lower. exact H. Qed.

Lemma int_small (x : Q) : 0 <= x -> x < 1 -> int x = 0%Z.
Proof.
  destruct x as [a d]. unfold Qle, Qlt, int. cbn [Qnum Qden].
  intros H0 H1. apply Z.quot_small. lia.
Qed.

(** ** grracing/pit_rejoin.py *)

Section PitRejoin.

Import pit_rejoin.

Lemma time_to_positions_nonneg (time_lost average_lap_time : Q) :
  0 <= _time_to_positions time_lost average_lap_time.
Proof.
  unfold _time_to_positions.
  destruct (max2_cases 0 (time_lost / 1.0)) as [[-> ?] | [-> ?]]; lra.
Qed.



(** *** The pit window forecast *)

Let pick (best w : Forecast.t) : Forecast.t :=
  if Qlt_bool (Forecast.traffic_density w) (Forecast.traffic_density best)
  then w else best.

Lemma fold_pick_In (rest : list Forecast.t) (w : Forecast.t) :
  In (fold_left pick rest w) (w :: rest).
Proof.
  revert w. induction rest as [| x rest IH]; intro w; cbn [fold_left].
  - now left.
  - destruct (IH (pick w x)) as [E | Hin].
    + rewrite <- E. unfold pick. destruct (Qlt_bool _ _); cbn [In]; auto.
    + cbn [In]. auto.
Qed.

Lemma In_range (a b x : Z) : In x (range a b) <-> (a <= x < b)%Z.
Proof.
  unfold range. rewrite in_map_iff. split.
  - intros (i & <- & Hi). apply in_seq in Hi. lia.
  - intro H. exists (Z.to_nat (x - a)). split; [lia |]. apply in_seq. lia.
Qed.

Lemma range_empty (a b : Z) : (b <= a)%Z -> range a b = [].
Proof.
  intro H. unfold range. replace (Z.to_nat (b - a)) with 0%nat by lia. reflexivity.
Qed.

(** The forecast entry of a lap. *)
Let entry (traffic_density : Q) (current_lap lap : Z) : Forecast.t :=
  let predicted_density :=
    traffic_density * (1.0 - inject_Z (lap - current_lap) * 0.05) in
  {| Forecast.lap := lap;
     Forecast.traffic_density := max2 0.0 predicted_density;
     Forecast.suitable := Qlt_bool predicted_density 0.4 |}.

(** X7: the pit-window forecast of a finished race is rejected, and every
    other call returns a window around a lap of the forecast.  With the
    current lap at or past the last lap the forecast is empty and [min]
    raises [ValueError]; otherwise the optimal lap lies in the forecast
    horizon (from the current lap, for at most ten laps, short of the last
    lap), and the window contains it. *)
Theorem pit_window_forecast_outcome
    (current_position : Z) (traffic_density : Q) (tire_age : Z)
    (degradation_rate : Q) (total_laps current_lap : Z) :
  ((total_laps <= current_lap)%Z ->
   predict_optimal_pit_window current_position traffic_density tire_age
     degradation_rate total_laps current_lap
   = Raise (ValueError "min() arg is an empty sequence"))
  /\ ((current_lap < total_laps)%Z ->
      exists w,
        predict_optimal_pit_window current_position traffic_density tire_age
          degradation_rate total_laps current_lap = Ok w
        /\ (current_lap <= PitWindow.optimal_lap w
            < Z.min (current_lap + 10) total_laps)%Z
        /\ (current_lap <= PitWindow.window_start w <= PitWindow.optimal_lap w)%Z
        /\ (PitWindow.optimal_lap w <= PitWindow.window_end w <= total_laps)%Z
        /\ List.length (PitWindow.traffic_forecast w)
           = Z.to_nat (Z.min 10 (total_laps - current_lap))).
Proof.
  unfold predict_optimal_pit_window. fold (entry traffic_density current_lap). split.
  - intro H. rewrite range_empty by lia. reflexivity.
  - intro H.
    destruct (range current_lap (Z.min (current_lap + 10) total_laps))
      as [| first rest] eqn:E.
    { exfalso. assert (Hin : In current_lap (range current_lap
                                              (Z.min (current_lap + 10) total_laps)))
        by (apply In_range; lia).
      rewrite E in Hin. exact Hin. }
    cbn [map least_traffic bind]. fold pick.
    eexists. split; [reflexivity |].
    cbn [PitWindow.optimal_lap PitWindow.window_start PitWindow.window_end
         PitWindow.traffic_forecast].
    pose proof (fold_pick_In (map (entry traffic_density current_lap) rest)
                  (entry traffic_density current_lap first)) as Hin.
    change (entry traffic_density current_lap first
            :: map (entry traffic_density current_lap) rest)
      with (map (entry traffic_density current_lap) (first :: rest)) in Hin.
    rewrite <- E in Hin. apply in_map_iff in Hin. destruct Hin as (lap & Hlap & Hin).
    rewrite <- Hlap. cbn [entry Forecast.lap]. apply In_range in Hin.
    assert (Hlen : List.length (first :: rest)
                   = Z.to_nat (Z.min (current_lap + 10) total_laps - current_lap)).
    { rewrite <- E. unfold range. now rewrite length_map, length_seq. }
    cbn [List.length] in Hlen |- *. rewrite length_map.
    repeat split; lia.
Qed.

(** With traffic about, every later lap of the horizon is forecast emptier
    than the one before, and [min] takes the last. *)
Lemma fold_pick_decreasing (traffic_density : Q) (current_lap : Z) :
  0 < traffic_density ->
  forall (n s : nat) (w : Forecast.t),
    (s + n <= 10)%nat ->
    (n <> 0%nat ->
     Forecast.traffic_density
       (entry traffic_density current_lap (current_lap + Z.of_nat s))
     < Forecast.traffic_density w) ->
    Forecast.lap
      (fold_left pick
         (map (entry traffic_density current_lap)
              (map (fun i => (current_lap + Z.of_nat i)%Z) (seq s n))) w)
    = if (n =? 0)%nat then Forecast.lap w
      else (current_lap + Z.of_nat (s + n - 1))%Z.
Proof.
  intro Hd. induction n as [| n IH]; intros s w Hs Hw; [reflexivity |].
  cbn [seq map fold_left].
  replace (pick w (entry traffic_density current_lap (current_lap + Z.of_nat s)))
    with (entry traffic_density current_lap (current_lap + Z.of_nat s)).
  2:{ unfold pick. apply Qlt_bool_true in Hw; [| discriminate].
      now rewrite Hw. }
  rewrite IH.
  - destruct n; cbn [Nat.eqb entry Forecast.lap]; f_equal; lia.
  - lia.
  - intros _. cbn [entry Forecast.traffic_density].
    replace (current_lap + Z.of_nat (S s) - current_lap)%Z with (Z.of_nat (S s)) by lia.
    replace (current_lap + Z.of_nat s - current_lap)%Z with (Z.of_nat s) by lia.
    assert (Hs1 : inject_Z (Z.of_nat (S s)) == inject_Z (Z.of_nat s) + 1).
    { rewrite Nat2Z.inj_succ. unfold Z.succ. rewrite inject_Z_plus. reflexivity. }
    assert (Hs0 : 0 <= inject_Z (Z.of_nat s))
      by (replace 0 with (inject_Z 0) by reflexivity; rewrite <- Zle_Qle; lia).
    assert (Hs9 : inject_Z (Z.of_nat s) <= 9)
      by (replace 9 with (inject_Z 9) by reflexivity; rewrite <- Zle_Qle; lia).
    set (k := inject_Z (Z.of_nat s)) in *.
    set (k' := inject_Z (Z.of_nat (S s))) in *.
    destruct (max2_cases 0.0 (traffic_density * (1.0 - k' * 0.05))) as [[-> ?] | [-> ?]];
      destruct (max2_cases 0.0 (traffic_density * (1.0 - k * 0.05))) as [[-> ?] | [-> ?]];
      nra.
Qed.

(** Without traffic every lap is forecast at density 0, and [min] keeps
    the first. *)
Lemma fold_pick_flat (traffic_density : Q) (current_lap : Z) :
  traffic_density <= 0 ->
  forall (n s : nat) (w : Forecast.t),
    (s + n <= 10)%nat ->
    Forecast.traffic_density w = 0.0 ->
    fold_left pick
      (map (entry traffic_density current_lap)
           (map (fun i => (current_lap + Z.of_nat i)%Z) (seq s n))) w
    = w.
Proof.
  intro Hd. induction n as [| n IH]; intros s w Hs Hw; [reflexivity |].
  cbn [seq map fold_left].
  replace (pick w (entry traffic_density current_lap (current_lap + Z.of_nat s)))
    with w.
  - apply IH; [lia | exact Hw].
  - unfold pick. rewrite Hw.
    destruct (Qlt_bool _ 0.0) eqn:E; [| reflexivity].
    apply Qlt_bool_true in E. cbn [entry Forecast.traffic_density] in E.
    destruct (max2_cases 0.0 (traffic_density
                              * (1.0 - inject_Z (current_lap + Z.of_nat s - current_lap)
                                       * 0.05))) as [[Em ?] | [Em ?]];
      rewrite Em in E; lra.
Qed.

(** X8: the "lowest traffic" lap is decided by the sign of the density
    alone.  With a positive traffic density the forecast falls lap after
    lap, so the optimal lap is the last lap of the horizon; with a density
    of zero (or a negative one) every lap ties at 0 and the optimal lap is
    the current lap. *)
Theorem pit_window_optimal_lap
    (current_position : Z) (traffic_density : Q) (tire_age : Z)
    (degradation_rate : Q) (total_laps current_lap : Z) :
  (current_lap < total_laps)%Z ->
  exists w,
    predict_optimal_pit_window current_position traffic_density tire_age
      degradation_rate total_laps current_lap = Ok w
    /\ PitWindow.optimal_lap w
       = if Qlt_bool 0 traffic_density
         then (Z.min (current_lap + 10) total_laps - 1)%Z
         else current_lap.
Proof.
  intro H. unfold predict_optimal_pit_window.
  fold (entry traffic_density current_lap). unfold range.
  assert (Hn : exists n, Z.to_nat (Z.min (current_lap + 10) total_laps - current_lap)
                         = S n /\ (n <= 9)%nat).
  { exists (Nat.pred (Z.to_nat (Z.min (current_lap + 10) total_laps - current_lap))).
    split; lia. }
  destruct Hn as (n & En & Hn).
  assert (Hstop : (Z.min (current_lap + 10) total_laps - 1
                   = current_lap + Z.of_nat n)%Z) by lia.
  rewrite En.
  cbn [seq map least_traffic bind]. fold pick.
  eexists. split; [reflexivity |]. cbn [PitWindow.optimal_lap].
  destruct (Qlt_bool 0 traffic_density) eqn:Ed.
  - apply Qlt_bool_true in Ed.
    rewrite (fold_pick_decreasing traffic_density current_lap Ed n 1).
    + destruct n; cbn [Nat.eqb entry Forecast.lap]; lia.
    + lia.
    + intros _. cbn [entry Forecast.traffic_density].
      replace (current_lap + Z.of_nat 1 - current_lap)%Z with 1%Z by lia.
      replace (current_lap + Z.of_nat 0 - current_lap)%Z with 0%Z by lia.
      change (inject_Z 1) with 1. change (inject_Z 0) with 0.
      destruct (max2_cases 0.0 (traffic_density * (1.0 - 1 * 0.05))) as [[-> ?] | [-> ?]];
        destruct (max2_cases 0.0 (traffic_density * (1.0 - 0 * 0.05))) as [[-> ?] | [-> ?]];
        nra.
  - apply Qlt_bool_false in Ed.
    rewrite (fold_pick_flat traffic_density current_lap Ed n 1).
    + cbn [entry Forecast.lap]. lia.
    + lia.
    + cbn [entry Forecast.traffic_density].
      destruct (max2_cases 0.0 (traffic_density
                                * (1.0 - inject_Z (current_lap + Z.of_nat 0 - current_lap)
                                         * 0.05))) as [[Em ?] | [Em ?]];
        [exact Em | exfalso].
      replace (current_lap + Z.of_nat 0 - current_lap)%Z with 0%Z in * by lia.
      change (inject_Z 0) with 0 in *. nra.
Qed.

End PitRejoin.


Lemma pit_window_forecast_outcome_witness :
  pit_rejoin.predict_optimal_pit_window 5 0.6 18 0.0025 50 50
  = Raise (ValueError "min() arg is an empty sequence")
  /\ exists w,
       pit_rejoin.predict_optimal_pit_window 5 0.6 18 0.0025 50 15 = Ok w
       /\ (15 <= pit_rejoin.PitWindow.optimal_lap w < Z.min (15 + 10) 50)%Z
       /\ (15 <= pit_rejoin.PitWindow.window_start w
            <= pit_rejoin.PitWindow.optimal_lap w)%Z
       /\ (pit_rejoin.PitWindow.optimal_lap w
            <= pit_rejoin.PitWindow.window_end w <= 50)%Z
       /\ List.length (pit_rejoin.PitWindow.traffic_forecast w)
          = Z.to_nat (Z.min 10 (50 - 15)).
Proof.
  split.
  - destruct (pit_window_forecast_outcome 5 0.6 18 0.0025 50 50) as [H _].
    apply H. lia.
  - destruct (pit_window_forecast_outcome 5 0.6 18 0.0025 50 15) as [_ H].
    apply H. lia.
Defined.

Lemma pit_window_optimal_lap_witness :
  exists w,
    pit_rejoin.predict_optimal_pit_window 5 0.6 18 0.0025 50 15 = Ok w
    /\ pit_rejoin.PitWindow.optimal_lap w = 24%Z.
Proof.
  apply (pit_window_optimal_lap 5 0.6 18 0.0025 50 15). lia.
Defined.

(** ** grracing/degradation.py *)

Section Degradation.

Import degradation.

Lemma compound_coefficient_positive (compound : string) :
  0 < dict_get compound_coefficients compound 0.05.
Proof.
  unfold compound_coefficients. cbn [dict_get].
  repeat match goal with
         | |- context [if ?b then _ else _] => destruct b
         end; reflexivity.
Qed.

(** The search of a list of consecutive integers for the first one that
    passes a test. *)
Lemma find_first_in_run (f : Z -> bool) (a : Z) (n s : nat) :
  match find f (map (fun i => (a + Z.of_nat i)%Z) (seq s n)) with
  | Some l =>
      (a + Z.of_nat s <= l < a + Z.of_nat s + Z.of_nat n)%Z
      /\ f l = true
      /\ forall l', (a + Z.of_nat s <= l' < l)%Z -> f l' = false
  | None =>
      forall l', (a + Z.of_nat s <= l' < a + Z.of_nat s + Z.of_nat n)%Z -> f l' = false
  end.
Proof.
  revert s. induction n as [| n IH]; intro s; cbn [seq map find].
  - intros l' Hl'. lia.
  - destruct (f (a + Z.of_nat s)%Z) eqn:E.
    + split; [lia | split; [exact E | intros l' Hl'; lia]].
    + specialize (IH (S s)).
      destruct (find f (map (fun i => (a + Z.of_nat i)%Z) (seq (S s) n))) as [l |].
      * destruct IH as (Hr & Hf & Hmin). split; [lia | split; [exact Hf |]].
        intros l' Hl'.
        destruct (Z.eq_dec l' (a + Z.of_nat s)) as [-> | Hne]; [exact E |].
        apply Hmin. lia.
      * intros l' Hl'.
        destruct (Z.eq_dec l' (a + Z.of_nat s)) as [-> | Hne]; [exact E |].
        apply IH. lia.
Qed.


Lemma temperature_adjusted_above_linear
    (self : TireDegradationModel) (lap_number : Z) (base_time : Q)
    (current_temp : option Q) :
  (0 <= lap_number)%Z ->
  0 <= base_time ->
  let linear := linear_degradation self lap_number base_time None in
  let adjusted :=
    temperature_adjusted_degradation self lap_number base_time current_temp in
  let optimal_range := dict_get optimal_temp_range (compound self) (30, 40)%Z in
  let optimal_temp := inject_Z (fst optimal_range + snd optimal_range) / 2 in
  let temp := match current_temp with Some t => t | None => track_temp self end in
  0 <= linear
  /\ linear <= adjusted
  /\ (5 < Qabs (temp - optimal_temp) -> 1.2 * linear <= adjusted)
  /\ (temp == optimal_temp -> adjusted == linear).
Proof.
  intros Hlap Hbase linear adjusted optimal_range optimal_temp temp.
  subst adjusted. unfold temperature_adjusted_degradation.
  fold optimal_range. fold optimal_temp. fold temp. fold linear.
  assert (Hlin : 0 <= linear).
  { subst linear. unfold linear_degradation.
    pose proof (compound_coefficient_positive (compound self)) as Hc.
    set (c := dict_get compound_coefficients (compound self) 0.05) in *.
    assert (Hk : 0 <= inject_Z lap_number)
      by (replace 0 with (inject_Z 0) by reflexivity; rewrite <- Zle_Qle; lia).
    set (k := inject_Z lap_number) in *.
    assert (Hcb : 0 <= c * base_time) by (apply Qmult_le_0_compat; lra).
    pose proof (Qmult_le_0_compat _ _ Hcb Hk). lra. }
  split; [exact Hlin |].
  pose proof (Qabs_nonneg (temp - optimal_temp)) as Ha.
  unfold temp_coefficient.
  destruct (Qlt_bool 5 (temp - optimal_temp)) eqn:Ehot;
    destruct (Qlt_bool (temp - optimal_temp) (-5)) eqn:Ecold; cbn [orb];
    try apply Qlt_bool_true in Ehot; try apply Qlt_bool_true in Ecold;
    try apply Qlt_bool_false in Ehot; try apply Qlt_bool_false in Ecold.
  - exfalso. lra.
  - set (a := Qabs (temp - optimal_temp)) in *.
    split; [nra | split; [intros; nra | intro; exfalso; lra]].
  - set (a := Qabs (temp - optimal_temp)) in *.
    split; [nra | split; [intros; nra | intro; exfalso; lra]].
  - assert (Hsmall : Qabs (temp - optimal_temp) <= 5)
      by (apply Qabs_Qle_condition; lra).
    split; [| split].
    + set (a := Qabs (temp - optimal_temp)) in *. nra.
    + intro. exfalso. lra.
    + intro Heq. assert (Hz : temp - optimal_temp == 0) by lra.
      rewrite Hz. change (Qabs 0) with 0. ring.
Qed.

(** X10: the temperature adjustment never lowers a predicted lap time.
    For a lap number and a base time that are not negative (and a lap number
    of float size), with the coefficients of the compound table,
    [temperature_adjusted_degradation] is at least the value of
    [linear_degradation], at least 1.2 times it more than five degrees off
    the middle of the compound's optimal range, and equal to it at that
    middle. *)
Theorem temperature_adjustment_never_lowers
    (self : TireDegradationModel) (lap_number : Z) (base_time : Q)
    (current_temp : option Q) :
  float_sized lap_number ->
  (0 <= lap_number)%Z ->
  0 <= base_time ->
  let linear := linear_degradation self lap_number base_time None in
  let adjusted :=
    temperature_adjusted_degradation self lap_number base_time current_temp in
  let optimal_range := dict_get optimal_temp_range (compound self) (30, 40)%Z in
  let optimal_temp := inject_Z (fst optimal_range + snd optimal_range) / 2 in
  let temp := match current_temp with Some t => t | None => track_temp self end in
  0 <= linear <= adjusted
  /\ (5 < Qabs (temp - optimal_temp) -> 1.2 * linear <= adjusted)
  /\ (temp == optimal_temp -> adjusted == linear).
Proof.
  intros _ Hlap Hbase. cbv zeta.
  destruct (temperature_adjusted_above_linear self lap_number base_time current_temp
              Hlap Hbase) as (H0 & H1 & H2 & H3).
  split; [split; [exact H0 | exact H1] | split; [exact H2 | exact H3]].
Qed.

End Degradation.

Lemma temperature_adjustment_never_lowers_witness :
  let model := degradation.__init__ (Some "SOFT"%string) (Some 50) in
  0 <= degradation.linear_degradation model 10 95 None
  /\ 1.2 * degradation.linear_degradation model 10 95 None
     <= degradation.temperature_adjusted_degradation model 10 95 None.
Proof.
  intro model.
  destruct (temperature_adjustment_never_lowers model 10 95 None
              ltac:(apply float_sized_small; cbn; lia) ltac:(lia) ltac:(discriminate))
    as ((H0 & _) & H & _).
  split; [exact H0 |]. apply H. vm_compute. reflexivity.
Defined.


(** ** grracing/models/tire_degradation.py *)

Section ProductionModel.

Import models_tire_degradation.


End ProductionModel.


(** ** grracing/race_twin.py: the steps of a lap *)

Section LapSteps.

Import race_twin Random.
Local Open Scope sim_scope.

Variable fpow : Q -> Q -> Q.

(** The traffic penalty never raises and is never negative; the leader
    pays none and draws no random number. *)
Lemma traffic_penalty_returns
    (driver_id : string) (position : Z) (drivers : Dict.t State.t)
    (sector : string) (g : Rng) :
  exists penalty g',
    _calculate_traffic_penalty fpow driver_id position drivers sector g
    = Ok (penalty, g')
    /\ 0 <= penalty
    /\ (position = 1%Z -> penalty = 0 /\ g' = g).
Proof.
  unfold _calculate_traffic_penalty.
  destruct (position - 1 =? 0)%Z eqn:E.
  - exists 0, g. split; [reflexivity | split; [lra | auto]].
  - apply Z.eqb_neq in E. unfold uniform, random, Random.bind, ret.
    do 2 eexists. split; [reflexivity | split].
    + match goal with
      | |- _ <= max2 ?x 0 => destruct (max2_cases x 0) as [[-> ?] | [-> ?]]; lra
      end.
    + intro. lia.
Qed.

(** X12: what a lap time computation does, case by case, for tires of up
    to a thousand laps and positions of float size (so that neither the
    power of the degradation model nor a conversion of a position
    overflows).  Without a twin the lookup on [None] raises
    [AttributeError]; with a consistency index above 1 the variance of the
    noise is negative and the draw raises [ValueError]; in every other case
    a lap time is returned, and it is at least 90 seconds. *)
Theorem lap_time_outcome
    (driver_id : string) (state : State.t) (lap : Z)
    (weather_data : option Weather.t) (drivers : Dict.t State.t) (g : Rng) :
  (Z.abs (State.tire_age state) <= 1000)%Z ->
  float_sized (State.position state) ->
  Forall (fun entry => float_sized (State.position (snd entry))) drivers ->
  match State.twin state with
  | None =>
      _calculate_lap_time fpow driver_id state lap weather_data drivers g
      = Raise (AttributeError "NoneType" "get")
  | Some twin =>
      if Qlt_bool 1 (or_default (Twin.consistency_index twin) 0.8)
      then _calculate_lap_time fpow driver_id state lap weather_data drivers g
           = Raise (ValueError "scale < 0")
      else exists lap_time g',
             _calculate_lap_time fpow driver_id state lap weather_data drivers g
             = Ok (lap_time, g')
             /\ 90 <= lap_time
  end.
Proof.
  intros _ _ _. unfold _calculate_lap_time, twin_of.
  destruct (State.twin state) as [twin |]; [| reflexivity].
  cbn [lift Random.bind].
  unfold degradation.exponential_degradation, degradation.pow_int.
  cbn [degradation.compound degradation.__init__].
  pose proof (compound_coefficient_positive (State.tire_compound state)) as Hc.
  set (c := dict_get degradation.compound_coefficients (State.tire_compound state) 0.05)
    in *.
  assert (E0 : Qeq_bool (1 + c) 0 = false).
  { destruct (Qeq_bool (1 + c) 0) eqn:E; [| reflexivity].
    apply Qeq_bool_iff in E. lra. }
  rewrite E0. cbn [andb Py.bind lift Random.bind].
  set (base_pace := match Twin.degradation_profile twin with
                    | Some profile => _
                    | None => _
                    end).
  assert (Hdiv : exists f,
             (if Qlt_bool 0 base_pace
              then truediv (base_pace * (1 + c) ^ State.tire_age state - base_pace)
                           base_pace
              else Ok (inject_Z (State.tire_age state) * 0.002)) = Ok f).
  { destruct (Qlt_bool 0 base_pace) eqn:E; [| eexists; reflexivity].
    apply Qlt_bool_true in E. rewrite truediv_nonzero by lra. eexists. reflexivity. }
  destruct Hdiv as [f ->]. cbn [lift Random.bind].
  destruct (traffic_penalty_returns driver_id (State.position state) drivers
              (sector_of_lap lap) g) as (penalty & g1 & Hp & _ & _).
  rewrite !(bind_ok _ _ _ _ _ Hp). unfold Random.bind, normal.
  assert (Hscale : Qlt_bool ((1 - or_default (Twin.consistency_index twin) 0.8) * 0.5) 0
                   = Qlt_bool 1 (or_default (Twin.consistency_index twin) 0.8)).
  { set (k := or_default (Twin.consistency_index twin) 0.8).
    destruct (Qlt_bool 1 k) eqn:E.
    - apply Qlt_bool_true in E. apply Qlt_bool_true. lra.
    - apply Qlt_bool_false in E. apply Qlt_bool_false. lra. }
  rewrite Hscale.
  destruct (Qlt_bool 1 (or_default (Twin.consistency_index twin) 0.8));
    [reflexivity |].
  unfold ret. do 2 eexists. split; [reflexivity |].
  match goal with
  | |- _ <= max2 ?x 90 => destruct (max2_cases x 90) as [[-> ?] | [-> ?]]; lra
  end.
Qed.

(** X13: when the simulator pits a car.  A planned stop on this lap is
    taken at once, whatever the tires and without a twin.  Otherwise a
    driver without a twin raises [AttributeError]; with a twin, tires
    younger than 15 laps never pit, tires of 20 laps or more always pit
    while at least ten laps remain, and no random number is drawn unless the
    tires are older than 25 laps. *)
Theorem should_pit_rules
    (driver_id : string) (state : State.t) (lap total_laps : Z)
    (options : option (list Strategy.t)) (g : Rng) :
  (planned_stop driver_id lap options = true ->
   _should_pit driver_id state lap total_laps options g = Ok (true, g))
  /\ (planned_stop driver_id lap options = false ->
      match State.twin state with
      | None =>
          _should_pit driver_id state lap total_laps options g
          = Raise (AttributeError "NoneType" "get")
      | Some _ =>
          ((State.tire_age state < 15)%Z ->
           _should_pit driver_id state lap total_laps options g = Ok (false, g))
          /\ ((20 <= State.tire_age state)%Z -> (10 <= total_laps - lap)%Z ->
              _should_pit driver_id state lap total_laps options g = Ok (true, g))
          /\ ((State.tire_age state <= 25)%Z ->
              exists b, _should_pit driver_id state lap total_laps options g
                        = Ok (b, g))
      end).
Proof.
  unfold _should_pit, twin_of. split; intros ->; [reflexivity |].
  destruct (State.twin state) as [twin |]; [| reflexivity].
  cbn [lift Random.bind].
  set (rate := match Twin.degradation_profile twin with
               | Some profile => _
               | None => _
               end).
  set (critical_age := if Qlt_bool rate 0.003 then 20%Z else 15%Z).
  assert (Hc : (15 <= critical_age <= 20)%Z)
    by (subst critical_age; destruct (Qlt_bool rate 0.003); lia).
  split; [| split].
  - intro H.
    replace (critical_age <=? State.tire_age state)%Z with false
      by (symmetry; apply Z.leb_gt; lia).
    replace (25 <? State.tire_age state)%Z with false
      by (symmetry; apply Z.ltb_ge; lia).
    reflexivity.
  - intros H Hlaps.
    replace (critical_age <=? State.tire_age state)%Z with true
      by (symmetry; apply Z.leb_le; lia).
    replace (10 <=? total_laps - lap)%Z with true
      by (symmetry; apply Z.leb_le; lia).
    reflexivity.
  - intro H.
    replace (25 <? State.tire_age state)%Z with false
      by (symmetry; apply Z.ltb_ge; lia).
    destruct ((critical_age <=? State.tire_age state)%Z && (10 <=? total_laps - lap)%Z);
      eexists; reflexivity.
Qed.

Lemma compound_index_lt (c : string) : (compound_index c < 3)%nat.
Proof.
  unfold compound_index.
  repeat match goal with
         | |- context [if ?b then _ else _] => destruct b
         end; lia.
Qed.

Lemma simulate_pit_stop_returns
    (state : State.t) (lap : Z) (drivers : Dict.t State.t) (total_cars : Z) (g : Rng) :
  exists pit g',
    _simulate_pit_stop state lap drivers total_cars g = Ok (pit, g')
    /\ uniform_cursor g' = S (S (uniform_cursor g))
    /\ PitStop.lap pit = lap
    /\ (compound_index (State.tire_compound state)
        <= compound_index (PitStop.new_compound pit)
        <= S (compound_index (State.tire_compound state)))%nat
    /\ (0 <= uniforms g (uniform_cursor g) ->
        20 <= PitStop.pit_time pit
        /\ (21 <= PitStop.positions_lost pit)%Z
        /\ ((total_cars <= State.position state + 21)%Z ->
            PitStop.rejoin_position pit = total_cars))
    /\ (uniforms g (uniform_cursor g) <= 1 -> PitStop.pit_time pit <= 24).
Proof.
  unfold _simulate_pit_stop, uniform, random, Random.bind, ret.
  cbn [uniforms uniform_cursor normals normal_cursor].
  do 2 eexists. split; [reflexivity |].
  cbn [uniform_cursor PitStop.lap PitStop.new_compound PitStop.pit_time
       PitStop.positions_lost PitStop.rejoin_position].
  set (u := uniforms g (uniform_cursor g)).
  split; [reflexivity | split; [reflexivity | split; [| split]]].
  - pose proof (compound_index_lt (State.tire_compound state)) as Hlt.
    set (idx := compound_index (State.tire_compound state)) in *.
    destruct (Qlt_bool _ 0.7).
    + assert (Hi : idx = 0%nat \/ idx = 1%nat \/ idx = 2%nat) by lia.
      destruct Hi as [-> | [-> | ->]]; cbn; lia.
    + assert (Hi : idx = 0%nat \/ idx = 1%nat \/ idx = 2%nat) by lia.
      destruct Hi as [-> | [-> | ->]]; cbn; lia.
  - intro Hu.
    pose proof (traffic_density_range (driver_list drivers "S2") "S2") as [Hd0 _].
    set (density := traffic.calculate_traffic_density _ _) in *.
    unfold pit_rejoin.simulate_pit_rejoin.
    cbn [pit_rejoin.positions_lost pit_rejoin.rejoin_position].
    unfold pit_rejoin._calculate_rejoin_time_loss, pit_rejoin._time_to_positions.
    cbn [dict_get pit_rejoin.sector_penalties String.eqb Ascii.eqb Bool.eqb].
    set (time := 22.0 + (-2 + (2 - -2) * u) + 1.5 * (1.0 + density * 0.5) * 1.2).
    assert (Htime : 21 <= time / 1.0)
      by (apply Qle_shift_div_l; [reflexivity | subst time; lra]).
    assert (Hlost : 21 <= max2 0 (time / 1.0))
      by (destruct (max2_cases 0 (time / 1.0)) as [[-> ?] | [-> ?]]; lra).
    split; [lra | split].
    + apply int_ge_lower. exact Hlost.
    + intro Hlast.
      set (lost := max2 0 (time / 1.0)) in *.
      assert (Hpos : inject_Z total_cars <= inject_Z (State.position state) + lost).
      { assert (inject_Z total_cars <= inject_Z (State.position state + 21))
          by (rewrite <- Zle_Qle; lia).
        rewrite inject_Z_plus in H. change (inject_Z 21) with 21 in H. lra. }
      destruct (min2_cases (inject_Z (State.position state) + lost)
                           (inject_Z total_cars)) as [[E Hle] | [E Hlt]]; rewrite E.
      * apply Z.le_antisymm.
        -- apply int_le_upper. lra.
        -- apply int_ge_lower. lra.
      * unfold int. cbn [inject_Z Qnum Qden]. apply Z.quot_1_r.
  - intro Hu. lra.
Qed.


End LapSteps.

Lemma should_pit_rules_witness :
  let twin :=
    {| race_twin.Twin.pace_vector := None;
       race_twin.Twin.consistency_index := None;
       race_twin.Twin.degradation_profile := None |} in
  let state :=
    {| race_twin.State.driver_id := "driver_1";
       race_twin.State.position := 3;
       race_twin.State.lap_times := [];
       race_twin.State.pit_stops := [];
       race_twin.State.tire_age := 22;
       race_twin.State.tire_compound := "MEDIUM";
       race_twin.State.total_time := 0;
       race_twin.State.twin := Some twin |} in
  let g :=
    {| Random.normals := fun _ => 0; Random.uniforms := fun _ => 0.5;
       Random.normal_cursor := 0; Random.uniform_cursor := 0 |} in
  race_twin._should_pit "driver_1" state 30 50 None g = Ok (true, g).
Proof.
  intros twin state g.
  destruct (should_pit_rules "driver_1" state 30 50 None g) as [_ H].
  specialize (H eq_refl). cbn [race_twin.State.twin state] in H.
  destruct H as (_ & H & _). apply H; cbn; lia.
Defined.


Lemma lap_time_outcome_witness :
  let twin :=
    {| race_twin.Twin.pace_vector := Some 0.02;
       race_twin.Twin.consistency_index := Some 0.9;
       race_twin.Twin.degradation_profile := None |} in
  let state :=
    {| race_twin.State.driver_id := "driver_1";
       race_twin.State.position := 3;
       race_twin.State.lap_times := [];
       race_twin.State.pit_stops := [];
       race_twin.State.tire_age := 12;
       race_twin.State.tire_compound := "MEDIUM";
       race_twin.State.total_time := 0;
       race_twin.State.twin := Some twin |} in
  let g :=
    {| Random.normals := fun _ => 0.3; Random.uniforms := fun _ => 0.5;
       Random.normal_cursor := 0; Random.uniform_cursor := 0 |} in
  exists lap_time g',
    race_twin._calculate_lap_time (fun _ _ => 1) "driver_1" state 11 None
      [("driver_1"%string, state)] g = Ok (lap_time, g')
    /\ 90 <= lap_time.
Proof.
  intros twin state g.
  apply (lap_time_outcome (fun _ _ => 1) "driver_1" state 11 None
           [("driver_1"%string, state)] g).
  - cbn. lia.
  - apply float_sized_small. cbn. lia.
  - repeat constructor. apply float_sized_small. cbn. lia.
Defined.

(** ** grracing/strategy_optimizer.py *)

Section StrategyOptimizer.

Import strategy_optimizer.

Lemma window_start_and_end
    (current_lap total_laps tire_age : Z) (degradation_rate traffic_density : Q) :
  let w :=
    _calculate_optimal_pit_window current_lap total_laps tire_age
      degradation_rate traffic_density in
  (current_lap < Window.start w <= Window.optimal w)%Z
  /\ (Window.end_ w <= Window.optimal w + 2)%Z.
Proof.
  intro w. subst w. unfold _calculate_optimal_pit_window.
  cbn [Window.start Window.end_ Window.optimal]. lia.
Qed.


Lemma overcut_rejected
    (driver_id : string) (current_lap : Z) (w : Window.t)
    (driver_pace : Q) (opponent_pace : option Q) (tire_age : Z) (traffic_density : Q) :
  (Window.end_ w <= Window.optimal w + 2)%Z ->
  _analyze_overcut driver_id current_lap w driver_pace opponent_pace tire_age
    traffic_density
  = Overcut.Rejected "Overcut window exceeds optimal pit window".
Proof.
  intro H. unfold _analyze_overcut.
  replace (Window.end_ w <? Window.optimal w + 2 + 3)%Z with true
    by (symmetry; apply Z.ltb_lt; lia).
  reflexivity.
Qed.

Lemma undercut_assessed
    (driver_id : string) (current_lap : Z) (w : Window.t)
    (driver_pace : Q) (opponent_pace : option Q) (tire_age : Z) (traffic_density : Q) :
  (current_lap < Window.start w <= Window.optimal w)%Z ->
  exists viable lap gain laps impact confidence,
    _analyze_undercut driver_id current_lap w driver_pace opponent_pace tire_age
      traffic_density
    = Undercut.Assessed viable lap gain laps impact confidence
    /\ (3 <= laps)%Z
    /\ (current_lap < lap <= Window.optimal w)%Z
    /\ (viable = true -> traffic_density < 0.5 /\ 1 < gain)
    /\ (0.5 <= traffic_density -> viable = false).
Proof.
  intro H. unfold _analyze_undercut.
  set (undercut_lap := Z.max (current_lap + 1) (Window.start w - 2)).
  assert (Hlap : (current_lap < undercut_lap <= Window.optimal w)%Z)
    by (subst undercut_lap; lia).
  replace (Window.optimal w + 3 - undercut_lap <=? 0)%Z with false
    by (symmetry; apply Z.leb_gt; lia).
  do 6 eexists. split; [reflexivity |].
  split; [lia | split; [| split]].
  - destruct (_ && _); lia.
  - intro Hv. apply andb_prop in Hv as [Hg Hd].
    apply Qlt_bool_true in Hg. apply Qlt_bool_true in Hd. split; [exact Hd |].
    match goal with
    | |- _ < max2 0.0 ?x => destruct (max2_cases 0.0 x) as [[-> ?] | [-> ?]]; lra
    end.
  - intro Hd. apply andb_false_iff. right. apply Qlt_bool_false. exact Hd.
Qed.


Lemma recommendation_cases
    (driver_id : string) (current_lap total_laps current_position tire_age : Z)
    (tire_compound : string) (degradation_rate traffic_density driver_pace : Q)
    (opponent_pace : option Q) :
  let s :=
    optimize_pit_strategy driver_id current_lap total_laps current_position
      tire_age tire_compound degradation_rate traffic_density driver_pace
      opponent_pace in
  let r := Strategy.recommendation s in
  (Recommendation.strategy r = "UNDERCUT"%string
   /\ traffic_density < 0.5
   /\ exists lap, Recommendation.lap r = Some lap
                  /\ (current_lap < lap
                      <= Window.optimal (Strategy.optimal_pit_window s))%Z)
  \/ (Recommendation.strategy r = "PIT_NOW"%string
      /\ 0.05 < inject_Z tire_age * degradation_rate
      /\ Recommendation.lap r = None)
  \/ (Recommendation.strategy r = "STANDARD_PIT"%string
      /\ Recommendation.lap r = None).
Proof.
  intros s r. subst r s. unfold optimize_pit_strategy.
  cbn [Strategy.overcut_analysis Strategy.recommendation Strategy.optimal_pit_window].
  pose proof (window_start_and_end current_lap total_laps tire_age
                degradation_rate traffic_density) as (Hstart & Hend).
  cbv zeta in Hstart, Hend.
  rewrite (overcut_rejected driver_id current_lap _ driver_pace opponent_pace
             tire_age traffic_density Hend).
  destruct (undercut_assessed driver_id current_lap _ driver_pace opponent_pace
              tire_age traffic_density Hstart)
    as (viable & lap & gain & laps & impact & confidence & -> & _ & Hlap & Hv & _).
  unfold _generate_recommendation.
  assert (Hrest :
    let d := _make_degradation_aware_decision tire_age degradation_rate
               (_calculate_optimal_pit_window current_lap total_laps tire_age
                  degradation_rate traffic_density) current_lap in
    String.eqb (DegradationDecision.decision d) "PIT_NOW" = true ->
    0.05 < inject_Z tire_age * degradation_rate).
  { intro d. subst d. unfold _make_degradation_aware_decision.
    destruct (Qlt_bool 0.05 (inject_Z tire_age * degradation_rate)) eqn:E.
    - intros _. now apply Qlt_bool_true.
    - repeat match goal with
             | |- context [if ?b then _ else _] => destruct b
             end; discriminate. }
  cbv zeta in Hrest.
  destruct viable.
  - destruct (Qlt_bool 2.0 gain).
    + left. cbn [Recommendation.strategy Recommendation.lap].
      split; [reflexivity | split; [now apply Hv |]].
      exists lap. split; [reflexivity | exact Hlap].
    + destruct (String.eqb _ "PIT_NOW") eqn:E.
      * right. left. cbn [Recommendation.strategy Recommendation.lap].
        split; [reflexivity | split; [now apply Hrest | reflexivity]].
      * right. right. split; reflexivity.
  - destruct (String.eqb _ "PIT_NOW") eqn:E.
    + right. left. cbn [Recommendation.strategy Recommendation.lap].
      split; [reflexivity | split; [now apply Hrest | reflexivity]].
    + right. right. split; reflexivity.
Qed.


End StrategyOptimizer.


(** ** grracing/race_twin.py: the analyses of the simulations *)

Section RaceAnalyses.

Import race_twin Random.

Lemma flat_map_nil {A B : Type} (f : A -> list B) (l : list A) :
  (forall x, In x l -> f x = []) -> flat_map f l = [].
Proof.
  induction l as [| x l IH]; intro H; cbn [flat_map]; [reflexivity |].
  rewrite (H x (or_introl eq_refl)), IH; [reflexivity |].
  intros y Hy. apply H. now right.
Qed.

(** X18: the undercut analysis of the race twin can never report a viable
    undercut for pit stops that the simulator produced.  A simulated stop
    costs at least 21 places while the analysis only counts stops that cost
    at most one, so for results whose pit stops all come from
    [_simulate_pit_stop] (on non-negative random draws) the outcome is
    always: not viable, time gain 0, confidence "low", success rate 0. *)
Theorem simulated_undercuts_never_viable
    (simulation_results : list SimulationResult.t) (drivers : list Driver.t)
    (driver_twins : Dict.t Twin.t) :
  (forall pit, In pit (all_pit_stops simulation_results) ->
     exists state lap race_state total_cars g g',
       0 <= uniforms g (uniform_cursor g)
       /\ _simulate_pit_stop state lap race_state total_cars g = Ok (pit, g')) ->
  _analyze_undercut_outcomes simulation_results drivers driver_twins
  = {| UndercutOutcomes.viable := false;
       UndercutOutcomes.time_gain := 0.0;
       UndercutOutcomes.confidence := "low";
       UndercutOutcomes.success_rate := 0.0 |}.
Proof.
  intro Hpits. unfold _analyze_undercut_outcomes.
  rewrite flat_map_nil; [reflexivity |].
  intros pit Hin.
  destruct (Hpits pit Hin) as (state & lap & rs & total & g & g' & Hu & Hrun).
  destruct (simulate_pit_stop_returns state lap rs total g)
    as (pit0 & g0 & Hrun0 & _ & _ & _ & Hcost & _).
  rewrite Hrun in Hrun0. injection Hrun0 as <- <-.
  destruct (Hcost Hu) as (_ & Hlost & _).
  unfold undercut_gain.
  replace (PitStop.positions_lost pit <=? 1)%Z with false
    by (symmetry; apply Z.leb_gt; lia).
  reflexivity.
Qed.

Lemma share_of_list_bounds (n m : nat) :
  (n <= m)%nat -> m <> 0%nat ->
  0 <= inject_Z (Z.of_nat n) / inject_Z (Z.of_nat m) <= 1.
Proof.
  intros H Hm.
  pose proof (sector_share_bounds n m H) as Hb.
  replace (Z.max (Z.of_nat m) 1) with (Z.of_nat m) in Hb by lia. exact Hb.
Qed.


(** The laps of the pit stops come from results. *)
Lemma pit_laps_nonempty (simulation_results : list SimulationResult.t) :
  pit_laps simulation_results <> [] -> simulation_results <> [].
Proof. intros H ->. now apply H. Qed.

Lemma counter_add_keys (c : Counter.t) (k k' : Z) (n : Z) :
  In (k', n) (Counter.add c k) -> k' = k \/ In k' (map fst c).
Proof.
  induction c as [| [k0 n0] c IH]; cbn [Counter.add].
  - intros [E | []]. injection E as <- _. now left.
  - destruct (k =? k0)%Z eqn:E; cbn [In map fst].
    + intros [E' | Hin].
      * injection E' as <- _. right. now left.
      * right. right. apply in_map_iff. now exists (k', n).
    + intros [E' | Hin].
      * injection E' as <- _. right. now left.
      * destruct (IH Hin) as [-> | H]; auto.
Qed.

Lemma counter_fold_keys (l : list Z) (c : Counter.t) (k : Z) :
  In k (map fst (fold_left Counter.add l c)) -> In k (map fst c) \/ In k l.
Proof.
  revert c. induction l as [| x l IH]; intros c H; cbn [fold_left] in H; [now left |].
  destruct (IH _ H) as [Hc | Hl]; [| right; now right].
  apply in_map_iff in Hc. destruct Hc as ([k' n] & <- & Hin). cbn [fst].
  destruct (counter_add_keys _ _ _ _ Hin) as [-> | Hc]; [right; now left | now left].
Qed.

Lemma most_common_In (c : Counter.t) (x : Z * Z) :
  Counter.most_common1 c = [x] -> In x c.
Proof.
  destruct c as [| y c]; [discriminate |]. cbn [Counter.most_common1].
  intro H. injection H as <-.
  assert (Hgen : forall l best,
            In (fold_left (fun best y : Z * Z =>
                             if (snd best <? snd y)%Z then y else best)
                          l best) (best :: l)).
  { induction l as [| z l IH]; intro best; cbn [fold_left]; [now left |].
    destruct (IH (if (snd best <? snd z)%Z then z else best)) as [E | Hin].
    - rewrite <- E. destruct (snd best <? snd z)%Z; cbn [In]; auto.
    - cbn [In]. auto. }
  apply Hgen.
Qed.


End RaceAnalyses.

Lemma simulated_undercuts_never_viable_witness :
  let state :=
    {| race_twin.State.driver_id := "driver_1";
       race_twin.State.position := 3;
       race_twin.State.lap_times := [];
       race_twin.State.pit_stops := [];
       race_twin.State.tire_age := 22;
       race_twin.State.tire_compound := "MEDIUM";
       race_twin.State.total_time := 0;
       race_twin.State.twin := None |} in
  let g :=
    {| Random.normals := fun _ => 0; Random.uniforms := fun _ => 0;
       Random.normal_cursor := 0; Random.uniform_cursor := 0 |} in
  exists pit g',
    race_twin._simulate_pit_stop state 30 [("driver_1"%string, state)] 20 g
    = Ok (pit, g')
    /\ race_twin.UndercutOutcomes.viable
         (race_twin._analyze_undercut_outcomes
            [ {| race_twin.SimulationResult.finishing_order := ["driver_1"%string];
                 race_twin.SimulationResult.pit_stops := [("driver_1"%string, [pit])];
                 race_twin.SimulationResult.total_times := [] |} ] [] [])
       = false.
Proof.
  intros state g.
  destruct (simulate_pit_stop_returns state 30 [("driver_1"%string, state)] 20 g)
    as (pit & g' & Hrun & _).
  exists pit, g'. split; [exact Hrun |].
  rewrite simulated_undercuts_never_viable; [reflexivity |].
  intros pit' [<- | []].
  exists state, 30%Z, [("driver_1"%string, state)], 20%Z, g, g'.
  split; [discriminate | exact Hrun].
Defined.


(** ** grracing/race_twin.py: positions and the run without laps *)

Section Reranking.

Import race_twin.

Context {A : Type} (key : A -> Q).

(** [sorted] puts every element before the elements of larger or equal
    key. *)
Lemma insert_ordered (x : A) (l : list A) :
  ForallOrdPairs (fun a b => key a <= key b) l ->
  ForallOrdPairs (fun a b => key a <= key b) (Sorted.insert key x l).
Proof.
  induction 1 as [| y l Hy Hl IH]; cbn [Sorted.insert].
  - constructor; [constructor | constructor].
  - destruct (Qle_bool (key x) (key y)) eqn:E.
    + apply Qle_bool_iff in E. constructor; [| now constructor].
      constructor; [exact E |].
      eapply Forall_impl; [| exact Hy]. intros b Hb. cbv beta in Hb. lra.
    + assert (Hlt : key y <= key x).
      { destruct (Qlt_le_dec (key y) (key x)) as [H | H]; [lra |].
        apply Qle_bool_iff in H. congruence. }
      constructor; [| exact IH].
      eapply Permutation_Forall.
      * symmetry. apply insert_perm.
      * constructor; [exact Hlt | exact Hy].
Qed.

Lemma sorted_ordered (l : list A) :
  ForallOrdPairs (fun a b => key a <= key b) (Sorted.sorted key l).
Proof.
  induction l as [| x l IH]; cbn [Sorted.sorted fold_right]; [constructor |].
  apply insert_ordered. exact IH.
Qed.

(** Equal keys: the order is kept. *)
Lemma sorted_of_equal_keys (l : list A) (c : Q) :
  (forall x, In x l -> key x == c) -> Sorted.sorted key l = l.
Proof.
  induction l as [| x l IH]; intro H; [reflexivity |].
  cbn [Sorted.sorted fold_right]. fold (Sorted.sorted key l).
  rewrite IH by (intros y Hy; apply H; now right).
  destruct l as [| y l']; [reflexivity |]. cbn [Sorted.insert].
  assert (E : Qle_bool (key x) (key y) = true).
  { apply Qle_bool_iff. rewrite (H x), (H y); [lra | right; now left | now left]. }
  now rewrite E.
Qed.

End Reranking.

Section Positions.

Import race_twin.

Let step : Z * Dict.t State.t -> string * State.t -> Z * Dict.t State.t :=
  fun '(new_pos, rs) '(driver_id, _) =>
    ((new_pos + 1)%Z,
     match Dict.get rs driver_id with
     | Some s => Dict.set rs driver_id (State.set_position s new_pos)
     | None => rs
     end).

Lemma rerank_fold_get (l : list (string * State.t)) :
  forall (rs : Dict.t State.t) (n : Z),
    NoDup (map fst l) ->
    (forall k s, In (k, s) l -> Dict.get rs k = Some s) ->
    (forall i k s,
       nth_error l i = Some (k, s) ->
       Dict.get (snd (fold_left step l (n, rs))) k
       = Some (State.set_position s (n + Z.of_nat i)))
    /\ (forall k, ~ In k (map fst l) ->
          Dict.get (snd (fold_left step l (n, rs))) k = Dict.get rs k).
Proof.
  induction l as [| [k0 s0] l IH]; intros rs n Hnd Hget.
  - split; [intros [| i] k s H; discriminate | reflexivity].
  - cbn [map fst] in Hnd. inversion Hnd as [| ? ? Hk0 Hnd']; subst.
    set (rs1 := Dict.set rs k0 (State.set_position s0 n)).
    assert (Hstep : step (n, rs) (k0, s0) = ((n + 1)%Z, rs1)).
    { unfold step. now rewrite (Hget k0 s0 (or_introl eq_refl)). }
    change (fold_left step ((k0, s0) :: l) (n, rs))
      with (fold_left step l (step (n, rs) (k0, s0))).
    rewrite Hstep.
    assert (Hget1 : forall k s, In (k, s) l -> Dict.get rs1 k = Some s).
    { intros k s Hin. subst rs1. rewrite get_set_other.
      - apply Hget. now right.
      - intros ->. apply Hk0. apply in_map_iff. now exists (k0, s). }
    destruct (IH rs1 (n + 1)%Z Hnd' Hget1) as [Hpos Hother]. split.
    + intros [| i] k s H; cbn [nth_error] in H.
      * injection H as <- <-. rewrite (Hother k0 Hk0). subst rs1.
        rewrite get_set_same. do 2 f_equal. lia.
      * rewrite (Hpos i k s H). do 2 f_equal. lia.
    + intros k Hk. cbn [map fst In] in Hk.
      rewrite Hother by tauto. subst rs1. apply get_set_other.
      intros ->. tauto.
Qed.

(** X21: after the re-ranking that ends every lap the positions are 1, 2,
    ... in order of cumulative time.  For a race state with distinct driver
    ids there is an order of its entries, ascending in total time, such that
    the entry at (zero-based) index [i] is stored with position [i + 1] and
    is otherwise unchanged; the keys stay as they were. *)
Theorem rerank_orders_by_total_time (race_state : Dict.t State.t) :
  NoDup (Dict.keys race_state) ->
  Dict.keys (rerank race_state) = Dict.keys race_state
  /\ exists order,
       Permutation order race_state
       /\ ForallOrdPairs
            (fun a b => State.total_time (snd a) <= State.total_time (snd b)) order
       /\ forall i k s,
            nth_error order i = Some (k, s) ->
            Dict.get (rerank race_state) k
            = Some (State.set_position s (Z.of_nat i + 1)).
Proof.
  intro Hnd. split; [apply rerank_keys |].
  exists (Sorted.sorted (fun x => State.total_time (snd x)) race_state).
  pose proof (sorted_perm (fun x : string * State.t => State.total_time (snd x))
                race_state) as Hperm.
  split; [exact Hperm | split].
  - apply (sorted_ordered (fun x : string * State.t => State.total_time (snd x))).
  - intros i k s Hnth. unfold rerank. fold step.
    destruct (rerank_fold_get
                (Sorted.sorted (fun x => State.total_time (snd x)) race_state)
                race_state 1) as [Hpos _].
    + eapply Permutation_NoDup; [| exact Hnd].
      unfold Dict.keys. apply Permutation_map. symmetry. exact Hperm.
    + intros k' s' Hin. apply In_get; [exact Hnd |].
      eapply Permutation_in; [exact Hperm | exact Hin].
    + rewrite (Hpos i k s Hnth). do 2 f_equal. lia.
Qed.

End Positions.

Lemma rerank_orders_by_total_time_witness :
  let car (id : string) (position : Z) (total_time : Q) :=
    (id,
     {| race_twin.State.driver_id := id;
        race_twin.State.position := position;
        race_twin.State.lap_times := [];
        race_twin.State.pit_stops := [];
        race_twin.State.tire_age := 0;
        race_twin.State.tire_compound := "MEDIUM";
        race_twin.State.total_time := total_time;
        race_twin.State.twin := None |}) in
  let race_state := [car "A"%string 1%Z 200; car "B"%string 2%Z 190] in
  Dict.keys (race_twin.rerank race_state) = Dict.keys race_state
  /\ exists order,
       Permutation order race_state
       /\ ForallOrdPairs
            (fun a b => race_twin.State.total_time (snd a)
                        <= race_twin.State.total_time (snd b)) order
       /\ forall i k s,
            nth_error order i = Some (k, s) ->
            Dict.get (race_twin.rerank race_state) k
            = Some (race_twin.State.set_position s (Z.of_nat i + 1)).
Proof.
  intros car race_state. apply rerank_orders_by_total_time.
  repeat constructor; cbn; intuition discriminate.
Defined.

Section RaceWithoutLaps.

Import race_twin Random.

Variable fpow : Q -> Q -> Q.

Lemma set_absent {V : Type} (d : Dict.t V) (k : string) (v : V) :
  ~ In k (Dict.keys d) -> Dict.set d k v = d ++ [(k, v)].
Proof.
  induction d as [| [k' v'] d IH]; intro H; cbn [Dict.set app]; [reflexivity |].
  cbn [Dict.keys map fst In] in H.
  destruct (String.eqb k k') eqn:E.
  - apply String.eqb_eq in E. subst. tauto.
  - f_equal. apply IH. unfold Dict.keys. tauto.
Qed.

Lemma fold_set_fresh {X V : Type} (key : X -> string) (value : X -> V)
    (xs : list X) (d : Dict.t V) :
  NoDup (Dict.keys d ++ map key xs) ->
  fold_left (fun d x => Dict.set d (key x) (value x)) xs d
  = d ++ map (fun x => (key x, value x)) xs.
Proof.
  revert d. induction xs as [| x xs IH]; intros d H; cbn [fold_left map].
  - now rewrite app_nil_r.
  - cbn [map] in H.
    assert (Hx : ~ In (key x) (Dict.keys d)).
    { intro Hin. apply NoDup_remove_2 in H. apply H. apply in_or_app. now left. }
    rewrite (set_absent d (key x) (value x) Hx), IH.
    + now rewrite <- app_assoc.
    + unfold Dict.keys in *. rewrite map_app. cbn [map fst].
      rewrite <- app_assoc. exact H.
Qed.

(** X22: a run that starts after the last lap simulates nothing and returns
    the grid as it was given.  With distinct driver ids and [current_lap]
    beyond [total_laps] the iteration returns without drawing a random
    number; the finishing order is the order of the input list (the
    positions of the drivers are not consulted), every total time is 0 and
    no driver has a pit stop. *)
Theorem race_without_laps_returns_the_grid
    (drivers : list Driver.t) (driver_twins : Dict.t Twin.t)
    (total_laps current_lap : Z) (weather_data : option Weather.t)
    (options : option (list Strategy.t)) (g : Rng) :
  (total_laps < current_lap)%Z ->
  NoDup (map Driver.id drivers) ->
  _simulate_single_race fpow drivers driver_twins total_laps current_lap
    weather_data options g
  = Ok ({| SimulationResult.finishing_order := map Driver.id drivers;
           SimulationResult.pit_stops := map (fun d => (Driver.id d, [])) drivers;
           SimulationResult.total_times := map (fun d => (Driver.id d, 0)) drivers |},
        g).
Proof.
  intros Hlaps Hnd. unfold _simulate_single_race, _simulate_single_race_with.
  rewrite range_nil by lia. cbn [for_each]. unfold Random.bind, ret.
  unfold Dict.comprehension. rewrite fold_set_fresh by exact Hnd.
  cbn [app]. rewrite !map_map. cbn [initial_state State.total_time State.pit_stops].
  rewrite (sorted_of_equal_keys snd _ 0).
  - rewrite map_map. cbn [fst]. reflexivity.
  - intros x Hx. apply in_map_iff in Hx. destruct Hx as (d & <- & _). reflexivity.
Qed.

End RaceWithoutLaps.

Lemma race_without_laps_returns_the_grid_witness :
  let g :=
    {| Random.normals := fun _ => 0; Random.uniforms := fun _ => 0;
       Random.normal_cursor := 0; Random.uniform_cursor := 0 |} in
  let car (id : string) (position : Z) :=
    {| race_twin.Driver.id := id; race_twin.Driver.position := Some position;
       race_twin.Driver.tire_age := None; race_twin.Driver.tire_compound := None |} in
  exists r,
    race_twin._simulate_single_race (fun _ _ => 1)
      [car "B"%string 2%Z; car "A"%string 1%Z] [] 50 51 None None g = Ok (r, g)
    /\ race_twin.SimulationResult.finishing_order r = ["B"; "A"]%string.
Proof.
  intros g car. eexists. split.
  - apply race_without_laps_returns_the_grid; [lia |].
    repeat constructor; cbn; intuition discriminate.
  - reflexivity.
Defined.

(** ** grracing/driver_twin.py *)

Section DriverTwinMetrics.

Import driver_twin.

(** X24: the sector strengths are always within [[0.8, 1.2]], and they are
    exactly 1.0 for all three sectors as soon as fewer than two laps of
    sector times are given or one of the sectors has no positive time. *)
Theorem sector_strengths_bounds (sector_times : list SectorTimes.t) :
  let s := _calculate_sector_strengths sector_times in
  (0.8 <= S1 s <= 1.2 /\ 0.8 <= S2 s <= 1.2 /\ 0.8 <= S3 s <= 1.2)
  /\ ((List.length sector_times < 2)%nat
      \/ positive_times SectorTimes.S1 sector_times = []
      \/ positive_times SectorTimes.S2 sector_times = []
      \/ positive_times SectorTimes.S3 sector_times = [] ->
      s = unit_strengths).
Proof.
  intro s. subst s. unfold _calculate_sector_strengths.
  assert (Hunit : 0.8 <= 1.0 <= 1.2) by (split; discriminate).
  assert (Hstrength : forall overall avg,
            0.8 <= (if Qeq_bool avg 0 then 1.0
                    else Py.min2 (Py.max2 (overall / avg) 0.8) 1.2) <= 1.2).
  { intros overall avg. destruct (Qeq_bool avg 0); [exact Hunit |].
    apply clip_bounds. discriminate. }
  destruct (List.length sector_times <? 2)%nat eqn:Elen.
  - split; [cbn; repeat split; discriminate | reflexivity].
  - apply Nat.ltb_ge in Elen. split.
    + destruct (positive_times SectorTimes.S1 sector_times);
        [cbn; repeat split; discriminate |].
      destruct (positive_times SectorTimes.S2 sector_times);
        [cbn; repeat split; discriminate |].
      destruct (positive_times SectorTimes.S3 sector_times);
        [cbn; repeat split; discriminate |].
      destruct (Qeq_bool _ 0); [cbn; repeat split; discriminate |].
      cbn [S1 S2 S3]. repeat split; apply Hstrength.
    + intros [H | [H | [H | H]]]; [lia | | |]; rewrite H;
        repeat match goal with
               | |- context [match ?l with [] => _ | _ :: _ => _ end] => destruct l
               end; reflexivity.
Qed.

(** X25: when the aggression score is a number.  Without a throttle sample
    the score is the default 0.5.  With two or more throttle samples and no
    increase from one sample to the next (constant or falling throttle), the
    mean of the empty set of increases is [nan], and [nan] is the score.  In
    every other case the score is a number in [[0, 1]]. *)
Theorem aggression_score_cases (telemetry_data : list Telemetry.t) :
  let throttle_values := present Telemetry.throttle telemetry_data in
  let increases := filter (fun d => Qlt_bool 0 d) (diff throttle_values) in
  let score := _calculate_aggression_score telemetry_data in
  (throttle_values = [] -> score = Np.Finite 0.5)
  /\ ((2 <= List.length throttle_values)%nat -> increases = [] -> score = Np.NaN)
  /\ (List.length throttle_values = 1%nat \/ increases <> [] ->
      Np.between score 0 1).
Proof.
  intros throttle_values increases score. subst score.
  unfold _calculate_aggression_score. fold throttle_values. fold increases.
  split; [| split].
  - intros ->. reflexivity.
  - intros Hlen Hnone.
    destruct throttle_values as [| t ts]; [cbn in Hlen; lia |].
    replace (1 <? List.length (t :: ts))%nat with true
      by (symmetry; apply Nat.ltb_lt; lia).
    rewrite Hnone. reflexivity.
  - intro Hcase.
    assert (Hfactor : exists f,
              (if (1 <? List.length throttle_values)%nat
               then Np.min2 (Np.scale (Np.mean_of (map Qabs increases)) 10)
                            (Np.Finite 1.0)
               else Np.Finite 0.5) = Np.Finite f).
    { destruct (1 <? List.length throttle_values)%nat eqn:E;
        [| eexists; reflexivity].
      apply Nat.ltb_lt in E. destruct Hcase as [H1 | Hne]; [lia |].
      destruct increases as [| d ds]; [congruence |].
      cbn [map Np.mean_of Np.scale]. unfold Np.min2, Np.lt.
      match goal with
      | |- context [if ?b then _ else _] => destruct b
      end; eexists; reflexivity. }
    destruct Hfactor as [f Hf].
    destruct throttle_values as [| t ts] eqn:Et.
    { exfalso. destruct Hcase as [H | H]; [discriminate |].
      apply H. reflexivity. }
    rewrite Hf. cbn [Np.scale Np.add Np.clip Np.between].
    match goal with
    | |- _ <= Py.min2 (Py.max2 ?x 0.0) 1.0 <= _ =>
        pose proof (clip_bounds x 0.0 1.0) as Hb
    end.
    assert (H01 : 0.0 <= 1.0) by discriminate. specialize (Hb H01). lra.
Qed.

Section Fatigue.

Variable flog : Q -> Q.
Variable SCIPY_AVAILABLE : bool.
Variable curve_fit_fatigue : list Q -> option (Q * Q).

(** X26: the fatigue model is normalised whatever the curve fit returns.
    For every lap history and every outcome of the fit, the factor is in
    [[0, 0.05]] and the time constant is reported and lies in [[10, 100]].
    From five laps of history on the trend is "improving" below a factor of
    0.01, "stable" below 0.02, "degrading" below 0.035 and "critical" from
    there; with fewer laps it is "stable" (for the default factor 0.02, which
    five laps would label "degrading").  With a factor of at most 0.02 the
    critical lap is 30 laps ahead (25 with fewer than five laps). *)
Theorem fatigue_dropoff_is_normalised (lap_times : list Q) (current_lap : Z) :
  let f := _calculate_fatigue_dropoff flog SCIPY_AVAILABLE curve_fit_fatigue
             lap_times current_lap in
  0 <= factor f <= 0.05
  /\ (exists tau, fatigue_constant f = Some tau /\ 10 <= tau <= 100)
  /\ trend f
     = (if (List.length lap_times <? 5)%nat then "stable"
        else if Qlt_bool (factor f) 0.01 then "improving"
        else if Qlt_bool (factor f) 0.02 then "stable"
        else if Qlt_bool (factor f) 0.035 then "degrading"
        else "critical")%string
  /\ (factor f <= 0.02 ->
      critical_lap f
      = (current_lap + (if (List.length lap_times <? 5)%nat then 25 else 30))%Z).
Proof.
  intro f. subst f. unfold _calculate_fatigue_dropoff.
  destruct (List.length lap_times <? 5)%nat.
  - cbn [factor fatigue_constant trend critical_lap].
    split; [split; discriminate | split; [| split; [reflexivity | reflexivity]]].
    exists 30.0. split; [reflexivity | split; discriminate].
  - match goal with
    | |- context [let '(a, b) := ?p in _] => destruct p as [fatigue_factor tau]
    end.
    cbn [factor fatigue_constant trend critical_lap].
    assert (Hf : 0 <= Py.min2 (Py.max2 0.0 fatigue_factor) 0.05 <= 0.05).
    { destruct (min2_cases (Py.max2 0.0 fatigue_factor) 0.05) as [[-> ?] | [-> ?]];
        destruct (max2_cases 0.0 fatigue_factor) as [[E ?] | [E ?]];
        rewrite ?E in *; lra. }
    split; [exact Hf | split; [| split; [reflexivity |]]].
    + eexists. split; [reflexivity |].
      destruct (max2_cases 10.0 (Py.min2 tau 100.0)) as [[-> ?] | [-> ?]];
        destruct (min2_cases tau 100.0) as [[E ?] | [E ?]]; rewrite ?E in *; lra.
    + intro Hsmall.
      replace (Qlt_bool 0.02 (Py.min2 (Py.max2 0.0 fatigue_factor) 0.05)) with false
        by (symmetry; apply Qlt_bool_false; exact Hsmall).
      reflexivity.
Qed.

End Fatigue.

End DriverTwinMetrics.

Lemma sector_strengths_bounds_witness :
  driver_twin._calculate_sector_strengths
    [ {| driver_twin.SectorTimes.S1 := Some 31.5; driver_twin.SectorTimes.S2 := Some 32.0;
         driver_twin.SectorTimes.S3 := Some 31.7 |} ]
  = driver_twin.unit_strengths.
Proof.
  destruct (sector_strengths_bounds
              [ {| driver_twin.SectorTimes.S1 := Some 31.5;
                   driver_twin.SectorTimes.S2 := Some 32.0;
                   driver_twin.SectorTimes.S3 := Some 31.7 |} ]) as [_ H].
  apply H. left. cbn. lia.
Defined.

Lemma aggression_score_cases_witness :
  let sample (throttle : Q) :=
    {| driver_twin.Telemetry.throttle := Some throttle;
       driver_twin.Telemetry.brake := None; driver_twin.Telemetry.speed := None;
       driver_twin.Telemetry.steering := None; driver_twin.Telemetry.g_force := None |} in
  driver_twin._calculate_aggression_score [sample 1.0; sample 1.0; sample 0.8] = Np.NaN
  /\ Np.between (driver_twin._calculate_aggression_score [sample 0.2; sample 0.9]) 0 1.
Proof.
  intro sample. split.
  - destruct (aggression_score_cases [sample 1.0; sample 1.0; sample 0.8])
      as (_ & H & _).
    apply H; [cbn; lia | reflexivity].
  - destruct (aggression_score_cases [sample 0.2; sample 0.9]) as (_ & _ & H).
    apply H. right. discriminate.
Defined.

Lemma fatigue_dropoff_is_normalised_witness :
  driver_twin.critical_lap
    (driver_twin._calculate_fatigue_dropoff (fun _ => 0) false (fun _ => None)
       [95; 95; 95; 95; 95; 95] 10)
  = 40%Z.
Proof.
  destruct (fatigue_dropoff_is_normalised (fun _ => 0) false (fun _ => None)
              [95; 95; 95; 95; 95; 95] 10) as (_ & _ & _ & H).
  apply H. vm_compute. discriminate.
Defined.

(** ** grracing/pit_decision_engine.py: the factors and the decision *)

Section EngineFactors.

Import pit_decision_engine.

Lemma best_window_In (traffic_window : list Window.t) (w : Window.t) :
  best_window traffic_window = Some w -> In w traffic_window.
Proof.
  destruct traffic_window as [| x rest]; [discriminate |]. cbn [best_window].
  intro H. injection H as <-.
  revert x. induction rest as [| y rest IH]; intro x; cbn [fold_left]; [now left |].
  destruct (IH (if Qlt_bool (Window.predicted_density y) (Window.predicted_density x)
                then y else x)) as [E | Hin].
  - rewrite <- E. destruct (Qlt_bool _ _); cbn [In]; auto.
  - cbn [In]. auto.
Qed.

Lemma traffic_factor_spec
    (current_position : Z) (traffic_density : Q) (current_lap total_laps : Z)
    (driver_id : string) :
  total_laps <> 0%Z ->
  exists tf,
    _analyze_traffic_factor current_position traffic_density current_lap total_laps
      driver_id = Ok tf
    /\ TrafficFactor.weight tf = 0.25
    /\ In (TrafficFactor.score tf) [0.3; 0.5; 0.8]
    /\ map Window.lap (TrafficFactor.traffic_window tf)
       = [current_lap + 1; current_lap + 2; current_lap + 3;
          current_lap + 4; current_lap + 5]%Z
    /\ Forall (fun w => 0 <= Window.predicted_density w <= 1)
              (TrafficFactor.traffic_window tf)
    /\ match TrafficFactor.best_window_lap tf with
       | Some lap => (current_lap < lap <= current_lap + 5)%Z
       | None => True
       end.
Proof.
  intro H. unfold _analyze_traffic_factor.
  assert (Hscore : In (snd (if Qle_bool 0.7 traffic_density
                            then ("heavy"%string, false, 0.3)
                            else if Qle_bool 0.4 traffic_density
                                 then ("moderate"%string, false, 0.5)
                                 else ("light"%string, true, 0.8)))
                      [0.3; 0.5; 0.8]).
  { destruct (Qle_bool 0.7 traffic_density); [cbn; tauto |].
    destruct (Qle_bool 0.4 traffic_density); cbn; tauto. }
  destruct (if Qle_bool 0.7 traffic_density then _ else _) as [[level clear] score].
  cbn [snd] in Hscore.
  cbn [mapM range_1_6].
  rewrite !truediv_nonzero by (unfold Qeq; cbn; lia).
  cbn [bind].
  match goal with
  | |- context [best_window ?l] =>
      pose proof (best_window_In l) as Hbest;
      destruct (best_window l) as [best |] eqn:Eb; [| discriminate Eb]
  end.
  specialize (Hbest best eq_refl).
  cbn [bind]. eexists. split; [reflexivity |].
  cbn [TrafficFactor.weight TrafficFactor.score TrafficFactor.traffic_window
       TrafficFactor.best_window_lap].
  split; [reflexivity | split; [exact Hscore | split; [reflexivity | split]]].
  - repeat constructor; cbn [Window.predicted_density]; apply clamp01_bounds.
  - destruct (Window.clear best); [| exact I].
    cbn [In] in Hbest.
    destruct Hbest as [<- | [<- | [<- | [<- | [<- | []]]]]]; cbn [Window.lap]; lia.
Qed.


Lemma degradation_factor_score
    (current_degradation : Q) (predicted : list Prediction.t) (tire_age : Z)
    (degradation_rate : Q) (driver_twin : option DriverTwin.t) :
  let d := degradation_factor_of current_degradation predicted tire_age
             degradation_rate driver_twin in
  DegradationFactor.weight d = 0.35
  /\ 0.2 <= DegradationFactor.score d <= 1
  /\ (current_degradation < 0.05 -> driver_twin = None ->
      DegradationFactor.score d <= 0.7
      /\ DegradationFactor.urgency d <> "critical"%string).
Proof.
  intro d. subst d. unfold degradation_factor_of.
  destruct (Qle_bool 0.05 current_degradation) eqn:Ec.
  - cbn [DegradationFactor.weight DegradationFactor.score DegradationFactor.urgency].
    split; [reflexivity | split].
    + destruct driver_twin as [[[profile |]] |];
        cbn [DriverTwin.degradation_profile]; try (split; discriminate).
      match goal with
      | |- context [if ?b then _ else _] => destruct b
      end; [| split; discriminate].
      destruct (min2_cases 1.0 (0.9 + 0.1)) as [[-> ?] | [-> ?]]; split; discriminate.
    + intro Hlt. apply Qle_bool_iff in Ec. lra.
  - match goal with
    | |- context [let '(u, s) := ?p in _] =>
        assert (Hp : exists u s, p = (u, s) /\ 0.2 <= s <= 0.7
                                 /\ u <> "critical"%string)
    end.
    { repeat match goal with
             | |- context [if ?b then _ else _] => destruct b
             end; do 2 eexists; (split; [reflexivity |]);
        (split; [split; discriminate | discriminate]). }
    destruct Hp as (u & s & -> & Hs & Hu).
    cbn [DegradationFactor.weight DegradationFactor.score DegradationFactor.urgency].
    split; [reflexivity | split].
    + destruct driver_twin as [[[profile |]] |];
        cbn [DriverTwin.degradation_profile]; try lra.
      match goal with
      | |- context [if ?b then _ else _] => destruct b
      end; [| lra].
      destruct (min2_cases 1.0 (s + 0.1)) as [[-> ?] | [-> ?]]; lra.
    + intros _ ->. split; [lra | exact Hu].
Qed.

Lemma weather_factor_score (weather_data : option WeatherData.t) (tire_compound : string) :
  let f := _analyze_weather_factor weather_data tire_compound in
  Factor.weight f = 0.10 /\ 0.3 <= Factor.score f <= 0.7.
Proof.
  intro f. subst f. unfold _analyze_weather_factor, neutral.
  destruct weather_data as [w |]; cbn [Factor.weight Factor.score];
    [| split; [reflexivity | split; discriminate]].
  split; [reflexivity |].
  set (s := if _ || _ then 0.4 else if String.eqb _ "dry" then 0.5 else 0.5).
  assert (Hs : 0.4 <= s <= 0.5).
  { subst s. destruct (_ || _); [split; discriminate |].
    destruct (String.eqb _ "dry"); split; discriminate. }
  destruct (Qlt_bool 35 _).
  - destruct (min2_cases 1.0 (s + 0.2)) as [[-> ?] | [-> ?]]; lra.
  - destruct (Qlt_bool _ 15); [| lra].
    destruct (max2_cases 0.0 (s - 0.1)) as [[-> ?] | [-> ?]]; lra.
Qed.

Lemma opponent_factor_score
    (opponent_data : option (list Opponent.t)) (current_lap tire_age : Z)
    (driver_id : string) :
  let f := _analyze_opponent_factor opponent_data current_lap tire_age driver_id in
  Factor.weight f = 0.10 /\ 0.3 <= Factor.score f <= 0.8.
Proof.
  intro f. subst f. unfold _analyze_opponent_factor, neutral.
  destruct opponent_data as [[| o os] |]; cbn [Factor.weight Factor.score];
    try (split; [reflexivity | split; discriminate]).
  destruct (closest_opponent (o :: os)) as [closest |]; cbn [Factor.weight Factor.score];
    [| split; [reflexivity | split; discriminate]].
  destruct (Opponent.is_empty closest); cbn [Factor.weight Factor.score];
    [split; [reflexivity | split; discriminate] |].
  split; [reflexivity |].
  repeat match goal with
         | |- context [if ?b then _ else _] => destruct b
         end; split; discriminate.
Qed.

Lemma race_twin_factor_score
    (race_twin : option RaceTwin.t) (driver_id : string) (current_lap total_laps : Z) :
  let f := _analyze_race_twin_factor race_twin driver_id current_lap total_laps in
  Factor.weight f = 0.20 /\ 0.3 <= Factor.score f <= 1.
Proof.
  intro f. subst f. unfold _analyze_race_twin_factor, neutral.
  destruct race_twin as [rt |]; cbn [Factor.weight Factor.score];
    [| split; [reflexivity | split; discriminate]].
  match goal with
  | |- context [let '(s, i) := ?p in @?k s i] =>
      assert (H1 : exists s i, p = (s, i) /\ 0.3 <= s <= 0.8)
  end.
  { destruct (RaceTwin.pit_recommendations rt);
      [| do 2 eexists; split; [reflexivity | split; discriminate]].
    repeat match goal with
           | |- context [if ?b then _ else _] => destruct b
           end; do 2 eexists; (split; [reflexivity | split; discriminate]). }
  destruct H1 as (s1 & i1 & -> & Hs1).
  match goal with
  | |- context [let '(s, i) := ?p in @?k s i] =>
      assert (H2 : exists s i, p = (s, i) /\ 0.3 <= s <= 0.9)
  end.
  { repeat match goal with
           | |- context [if ?b then _ else _] => destruct b
           end; do 2 eexists; (split; [reflexivity |]); lra. }
  destruct H2 as (s2 & i2 & -> & Hs2).
  match goal with
  | |- context [let '(s, i) := ?p in @?k s i] =>
      assert (H3 : exists s i, p = (s, i) /\ 0.3 <= s <= 0.9)
  end.
  { repeat match goal with
           | |- context [if ?b then _ else _] => destruct b
           end; do 2 eexists; (split; [reflexivity |]); try lra.
    destruct (max2_cases s2 0.9) as [[-> ?] | [-> ?]]; lra. }
  destruct H3 as (s3 & i3 & -> & Hs3).
  match goal with
  | |- context [let '(s, i) := ?p in @?k s i] =>
      assert (H4 : exists s i, p = (s, i) /\ 0.3 <= s <= 1)
  end.
  { repeat match goal with
           | |- context [if ?b then _ else _] => destruct b
           end; do 2 eexists; (split; [reflexivity |]); try lra.
    destruct (min2_cases 1.0 (s3 + 0.1)) as [[-> ?] | [-> ?]]; lra. }
  destruct H4 as (s4 & i4 & -> & Hs4).
  cbn [Factor.weight Factor.score]. split; [reflexivity | exact Hs4].
Qed.

End EngineFactors.

Section EngineDecision.

Import pit_decision_engine.

(** The availability multiplier of the confidence score. *)
Lemma availability_multiplier_range (a b c : bool) :
  0.82 <= 0.7 + inject_Z (count_true [true; true; a; b; c]) / 5.0 * 0.3 <= 1.
Proof. destruct a, b, c; split; discriminate. Qed.

Lemma unclamped (x : Q) : 0 <= x <= 1 -> max2 0.0 (min2 1.0 x) == x.
Proof.
  intro H.
  destruct (max2_cases 0.0 (min2 1.0 x)) as [[-> ?] | [-> ?]];
    destruct (min2_cases 1.0 x) as [[E ?] | [E ?]]; rewrite ?E in *; lra.
Qed.

(** X28: the confidence of the engine is never clamped and never "low".
    The factors the analysers produce carry the weights 0.35, 0.25, 0.20,
    0.10 and 0.10 and scores between 0.2 and 1; so the confidence computed
    from them is the weighted sum times the availability multiplier as it
    stands, it is above 0.2 and at most 1 without the final clamp having any
    effect, and its level is never "low". *)
Theorem confidence_is_never_clamped
    (current_degradation : Q) (predicted : list Prediction.t) (tire_age : Z)
    (degradation_rate : Q) (driver_twin : option DriverTwin.t)
    (current_position : Z) (traffic_density : Q) (current_lap total_laps : Z)
    (driver_id tire_compound : string) (traffic_factor : TrafficFactor.t)
    (race_twin : option RaceTwin.t) (opponent_data : option (list Opponent.t))
    (weather_data : option WeatherData.t) :
  _analyze_traffic_factor current_position traffic_density current_lap total_laps
    driver_id = Ok traffic_factor ->
  let d := degradation_factor_of current_degradation predicted tire_age
             degradation_rate driver_twin in
  let r := _analyze_race_twin_factor race_twin driver_id current_lap total_laps in
  let o := _analyze_opponent_factor opponent_data current_lap tire_age driver_id in
  let w := _analyze_weather_factor weather_data tire_compound in
  let confidence := _calculate_confidence_score d traffic_factor r o w in
  confidence
  == (DegradationFactor.score d * 0.35 + TrafficFactor.score traffic_factor * 0.25
      + Factor.score r * 0.20 + Factor.score o * 0.10 + Factor.score w * 0.10)
     * (0.7 + inject_Z (count_true [true; true; Factor.available r;
                                    Factor.available o; Factor.available w])
              / 5.0 * 0.3)
  /\ 0.2 < confidence <= 1
  /\ _confidence_level confidence <> "low"%string.
Proof.
  intros Htf d r o w confidence.
  assert (total_laps <> 0%Z) as Hlaps.
  { intros ->. rewrite traffic_factor_without_laps in Htf. discriminate. }
  destruct (traffic_factor_spec current_position traffic_density current_lap
              total_laps driver_id Hlaps) as (tf & Htf' & Hwt & Hst & _).
  rewrite Htf in Htf'. injection Htf' as <-.
  destruct (degradation_factor_score current_degradation predicted tire_age
              degradation_rate driver_twin) as (Hwd & Hsd & _).
  destruct (race_twin_factor_score race_twin driver_id current_lap total_laps)
    as (Hwr & Hsr).
  destruct (opponent_factor_score opponent_data current_lap tire_age driver_id)
    as (Hwo & Hso).
  destruct (weather_factor_score weather_data tire_compound) as (Hww & Hsw).
  cbv zeta in Hwd, Hsd, Hwr, Hsr, Hwo, Hso, Hww, Hsw.
  fold d in Hwd, Hsd. fold r in Hwr, Hsr. fold o in Hwo, Hso. fold w in Hww, Hsw.
  assert (Hst' : 0.3 <= TrafficFactor.score traffic_factor <= 0.8).
  { cbn [In] in Hst. destruct Hst as [<- | [<- | [<- | []]]]; split; discriminate. }
  pose proof (availability_multiplier_range (Factor.available r) (Factor.available o)
                (Factor.available w)) as Hm.
  subst confidence. unfold _calculate_confidence_score.
  rewrite Hwd, Hwt, Hwr, Hwo, Hww.
  set (m := 0.7 + inject_Z (count_true _) / 5.0 * 0.3) in *.
  set (sd := DegradationFactor.score d) in *.
  set (st := TrafficFactor.score traffic_factor) in *.
  set (sr := Factor.score r) in *. set (so := Factor.score o) in *.
  set (sw := Factor.score w) in *.
  set (total := sd * 0.35 + st * 0.25 + sr * 0.20 + so * 0.10 + sw * 0.10).
  assert (Ht : 0.265 <= total <= 0.915) by (subst total; lra).
  assert (Hc : 0.2 < total * m <= 1) by nra.
  assert (Hu : max2 0.0 (min2 1.0 (total * m)) == total * m)
    by (apply unclamped; lra).
  split; [exact Hu | split].
  - rewrite Hu. exact Hc.
  - unfold _confidence_level.
    assert (Hle : Qle_bool 0.2 (max2 0.0 (min2 1.0 (total * m))) = true)
      by (apply Qle_bool_iff; rewrite Hu; lra).
    repeat match goal with
           | |- context [if Qle_bool ?a ?b then _ else _] =>
               destruct (Qle_bool a b) eqn:?
           end; discriminate.
Qed.

(** X29: without optional inputs the engine can only extend the stint,
    unless the degradation is critical.  With no race twin, driver twin,
    opponent data or weather data, and a current degradation below the
    critical 0.05, the confidence is at most 0.5289, below both decision
    thresholds: the decision is [EXTEND_STINT] and no lap is recommended,
    whatever the traffic. *)
Theorem without_optional_inputs_only_extend_stint
    (current_degradation : Q) (predicted : list Prediction.t) (tire_age : Z)
    (degradation_rate : Q) (current_position : Z) (traffic_density : Q)
    (current_lap total_laps : Z) (driver_id tire_compound : string)
    (traffic_factor : TrafficFactor.t) :
  current_degradation < 0.05 ->
  _analyze_traffic_factor current_position traffic_density current_lap total_laps
    driver_id = Ok traffic_factor ->
  let d := degradation_factor_of current_degradation predicted tire_age
             degradation_rate None in
  let r := _analyze_race_twin_factor None driver_id current_lap total_laps in
  let o := _analyze_opponent_factor None current_lap tire_age driver_id in
  let w := _analyze_weather_factor None tire_compound in
  let confidence := _calculate_confidence_score d traffic_factor r o w in
  let decision :=
    _make_decision d traffic_factor r o w confidence current_lap total_laps tire_age in
  confidence <= 0.5289
  /\ Decision.decision decision = "EXTEND_STINT"%string
  /\ Decision.recommended_lap decision = None.
Proof.
  intros Hcd Htf d r o w confidence decision.
  assert (total_laps <> 0%Z) as Hlaps.
  { intros ->. rewrite traffic_factor_without_laps in Htf. discriminate. }
  destruct (traffic_factor_spec current_position traffic_density current_lap
              total_laps driver_id Hlaps) as (tf & Htf' & Hwt & Hst & _).
  rewrite Htf in Htf'. injection Htf' as <-.
  destruct (degradation_factor_score current_degradation predicted tire_age
              degradation_rate None) as (Hwd & Hsd & Hnc).
  cbv zeta in Hwd, Hsd, Hnc. fold d in Hwd, Hsd, Hnc.
  destruct (Hnc Hcd eq_refl) as [Hsd' Hurg].
  assert (Hst' : 0.3 <= TrafficFactor.score traffic_factor <= 0.8).
  { cbn [In] in Hst. destruct Hst as [<- | [<- | [<- | []]]]; split; discriminate. }
  assert (Hconf : confidence <= 0.5289).
  { subst confidence. unfold _calculate_confidence_score.
    rewrite Hwd, Hwt. subst r o w.
    unfold _analyze_race_twin_factor, _analyze_opponent_factor,
      _analyze_weather_factor, neutral.
    cbn [Factor.score Factor.weight Factor.available count_true filter List.length].
    set (sd := DegradationFactor.score d) in *.
    set (st := TrafficFactor.score traffic_factor) in *.
    match goal with
    | |- max2 0.0 (min2 1.0 ?x) <= _ =>
        assert (Hx : 0 <= x <= 0.5289);
        [| rewrite (unclamped x) by lra; lra]
    end.
    change (inject_Z (Z.of_nat 2)) with 2.
    assert (Hm : 0.7 + 2 / 5.0 * 0.3 == 0.82) by reflexivity.
    rewrite Hm. lra. }
  split; [exact Hconf |].
  subst decision. unfold _make_decision.
  destruct (String.eqb (DegradationFactor.urgency d) "critical") eqn:Eu.
  { apply String.eqb_eq in Eu. contradiction. }
  replace (Qle_bool 0.75 confidence) with false.
  2:{ symmetry. destruct (Qle_bool 0.75 confidence) eqn:E; [| reflexivity].
      apply Qle_bool_iff in E. lra. }
  replace (Qle_bool 0.55 confidence) with false.
  2:{ symmetry. destruct (Qle_bool 0.55 confidence) eqn:E; [| reflexivity].
      apply Qle_bool_iff in E. lra. }
  subst r. unfold _analyze_race_twin_factor, neutral. cbn [Factor.insights].
  split; reflexivity.
Qed.

(** X30: the decision and the recommended lap agree.  For the traffic
    factor the engine computes and any other factors and confidence,
    [PIT_NOW] recommends the current lap, [PIT_LATER] a lap after the current
    one and at most five laps ahead, and [EXTEND_STINT] no lap; there is no
    other decision. *)
Theorem decision_and_recommended_lap
    (degradation_factor : DegradationFactor.t)
    (current_position : Z) (traffic_density : Q) (current_lap total_laps : Z)
    (driver_id : string) (traffic_factor : TrafficFactor.t)
    (race_twin_factor opponent_factor weather_factor : Factor.t)
    (confidence_score : Q) (tire_age : Z) :
  _analyze_traffic_factor current_position traffic_density current_lap total_laps
    driver_id = Ok traffic_factor ->
  let decision :=
    _make_decision degradation_factor traffic_factor race_twin_factor
      opponent_factor weather_factor confidence_score current_lap total_laps
      tire_age in
  (Decision.decision decision = "PIT_NOW"%string
   /\ Decision.recommended_lap decision = Some current_lap)
  \/ (Decision.decision decision = "PIT_LATER"%string
      /\ exists lap, Decision.recommended_lap decision = Some lap
                     /\ (current_lap < lap <= current_lap + 5)%Z)
  \/ (Decision.decision decision = "EXTEND_STINT"%string
      /\ Decision.recommended_lap decision = None).
Proof.
  intros Htf decision.
  assert (total_laps <> 0%Z) as Hlaps.
  { intros ->. rewrite traffic_factor_without_laps in Htf. discriminate. }
  destruct (traffic_factor_spec current_position traffic_density current_lap
              total_laps driver_id Hlaps) as (tf & Htf' & _ & _ & _ & _ & Hbest).
  rewrite Htf in Htf'. injection Htf' as <-.
  subst decision. unfold _make_decision.
  destruct (String.eqb _ "critical"); [left; split; reflexivity |].
  destruct (Qle_bool 0.75 confidence_score); [left; split; reflexivity |].
  destruct (Qle_bool 0.55 confidence_score); [| right; right; split; reflexivity].
  right. left. cbn [Decision.decision Decision.recommended_lap].
  split; [reflexivity |]. eexists. split; [reflexivity |].
  destruct (TrafficFactor.best_window_lap traffic_factor) as [l |]; [| lia].
  destruct (negb (l =? 0)%Z && (l <=? current_lap + 5)%Z); lia.
Qed.

End EngineDecision.


Lemma confidence_is_never_clamped_witness :
  exists tf,
    pit_decision_engine._analyze_traffic_factor 5 0.5 20 50 "driver_1" = Ok tf
    /\ 0.2 < pit_decision_engine._calculate_confidence_score
               (pit_decision_engine.degradation_factor_of 0.024 [] 12 0.002 None) tf
               (pit_decision_engine._analyze_race_twin_factor None "driver_1" 20 50)
               (pit_decision_engine._analyze_opponent_factor None 20 12 "driver_1")
               (pit_decision_engine._analyze_weather_factor None "MEDIUM")
       <= 1.
Proof.
  eexists. split; [reflexivity |].
  destruct (confidence_is_never_clamped 0.024 [] 12 0.002 None 5 0.5 20 50
              "driver_1" "MEDIUM" _ None None None eq_refl) as (_ & H & _).
  exact H.
Defined.

Lemma without_optional_inputs_only_extend_stint_witness :
  exists tf,
    pit_decision_engine._analyze_traffic_factor 5 0.5 20 50 "driver_1" = Ok tf
    /\ pit_decision_engine.Decision.decision
         (pit_decision_engine._make_decision
            (pit_decision_engine.degradation_factor_of 0.024 [] 12 0.002 None) tf
            (pit_decision_engine._analyze_race_twin_factor None "driver_1" 20 50)
            (pit_decision_engine._analyze_opponent_factor None 20 12 "driver_1")
            (pit_decision_engine._analyze_weather_factor None "MEDIUM")
            (pit_decision_engine._calculate_confidence_score
               (pit_decision_engine.degradation_factor_of 0.024 [] 12 0.002 None) tf
               (pit_decision_engine._analyze_race_twin_factor None "driver_1" 20 50)
               (pit_decision_engine._analyze_opponent_factor None 20 12 "driver_1")
               (pit_decision_engine._analyze_weather_factor None "MEDIUM"))
            20 50 12)
       = "EXTEND_STINT"%string.
Proof.
  eexists. split; [reflexivity |].
  destruct (without_optional_inputs_only_extend_stint 0.024 [] 12 0.002 5 0.5 20 50
              "driver_1" "MEDIUM" _ ltac:(reflexivity) eq_refl) as (_ & H & _).
  exact H.
Defined.

Lemma decision_and_recommended_lap_witness :
  exists tf,
    pit_decision_engine._analyze_traffic_factor 5 0.2 20 50 "driver_1" = Ok tf
    /\ pit_decision_engine.Decision.recommended_lap
         (pit_decision_engine._make_decision
            (pit_decision_engine.degradation_factor_of 0.024 [] 12 0.002 None) tf
            (pit_decision_engine.neutral 0.20) (pit_decision_engine.neutral 0.10)
            (pit_decision_engine.neutral 0.10) 0.6 20 50 12)
       = Some 25%Z.
Proof.
  eexists. split; [reflexivity |].
  destruct (decision_and_recommended_lap
              (pit_decision_engine.degradation_factor_of 0.024 [] 12 0.002 None)
              5 0.2 20 50 "driver_1" _
              (pit_decision_engine.neutral 0.20) (pit_decision_engine.neutral 0.10)
              (pit_decision_engine.neutral 0.10) 0.6 12 eq_refl)
    as [[H _] | [[_ (lap & H & _)] | [H _]]].
  - vm_compute in H. discriminate H.
  - vm_compute. reflexivity.
  - vm_compute in H. discriminate H.
Defined.
